(** * audio-metadata: the MP3 decoding pipeline

    A shallow embedding of [audio_metadata/formats/id3v2.py],
    [audio_metadata/formats/mp3.py] and the [Tags] mapping of
    [audio_metadata/formats/models.py], with the properties of the ID3v2
    container, the MPEG frame header, the Xing/LAME/VBRI headers and the
    stream-info synchronizer.

    Conventions
    - a byte is a [Z] in [0, 256); a byte string is a [list Z];
    - Python exceptions are the constructors of [exn]; a computation that
      may raise returns a [result];
    - code that reads from the byte source runs in the monad [M]: the reader
      state is threaded explicitly and survives an exception, as the file
      position of a Python stream does;
    - Python's true division [/] is exact rational division in [Q]. *)

From Stdlib Require Import ZArith List Bool Lia String Ascii QArith.
Import ListNotations.
Open Scope Z_scope.

(* ================================================================== *)
(** * Exceptions and results *)

Inductive exn : Set :=
| InvalidFrame        (* exceptions.InvalidFrame *)
| InvalidHeader       (* exceptions.InvalidHeader *)
| InvalidFormat       (* exceptions.InvalidFormat *)
| BitstructError      (* bitstruct.Error *)
| StructError         (* struct.error *)
| MalformedInteger    (* a synchsafe byte with its top bit set *)
| ValueError
| TypeError
| KeyError
| IndexError
| ZeroDivisionError.

Inductive result (A : Type) : Type :=
| Ok (a : A)
| Raise (e : exn).
Arguments Ok {A} a.
Arguments Raise {A} e.

Definition rbind {A B} (r : result A) (k : A -> result B) : result B :=
  match r with
  | Ok a => k a
  | Raise e => Raise e
  end.

Definition is_ok {A} (r : result A) : bool :=
  match r with Ok _ => true | Raise _ => false end.

(* ================================================================== *)
(** * Byte strings *)

Definition bytes := list Z.

Definition byte_of_ascii (c : ascii) : Z := Z.of_N (N_of_ascii c).

Fixpoint bytes_of_string (s : string) : bytes :=
  match s with
  | EmptyString => []
  | String c s' => byte_of_ascii c :: bytes_of_string s'
  end.

Fixpoint bytes_eqb (a b : bytes) : bool :=
  match a, b with
  | [], [] => true
  | x :: a', y :: b' => (x =? y) && bytes_eqb a' b'
  | _, _ => false
  end.

(** [bytes.startswith] *)
Fixpoint startswith (l sub : bytes) : bool :=
  match sub, l with
  | [], _ => true
  | y :: sub', x :: l' => (x =? y) && startswith l' sub'
  | _ :: _, [] => false
  end.

(** Big-endian unsigned value of a byte string. *)
Definition be_uint (bs : bytes) : Z :=
  fold_left (fun acc b => acc * 256 + b) bs 0.

Definition is_byte (b : Z) : Prop := 0 <= b < 256.

(* ================================================================== *)
(** * [struct.unpack] and [bitstruct.unpack] *)

(** [struct.unpack('>I', b)] and friends: one big-endian unsigned field of
    [n] bytes; [struct.error] unless the buffer has exactly [n] bytes. *)
Definition struct_unpack_uint (n : nat) (b : bytes) : result Z :=
  if Nat.eqb (List.length b) n then Ok (be_uint b) else Raise StructError.

(** [struct.unpack('>i', b)]: a signed 32-bit field. *)
Definition struct_unpack_int32 (b : bytes) : result Z :=
  rbind (struct_unpack_uint 4 b)
        (fun u => Ok (if u <? 2 ^ 31 then u else u - 2 ^ 32)).

(** A [bitstruct] format is a list of fields, read most significant bit
    first from the big-endian value of the buffer. *)
Inductive bitfield : Set :=
| FU (width : Z)   (* uN: unsigned *)
| FB (width : Z)   (* bN: boolean, as 0 or 1 *)
| FS (width : Z)   (* sN: two's complement *)
| FP (width : Z).  (* pN: padding, yields no value *)

Definition field_width (f : bitfield) : Z :=
  match f with FU w | FB w | FS w | FP w => w end.

Definition format_width (fmt : list bitfield) : Z :=
  fold_right (fun f acc => field_width f + acc) 0 fmt.

(** The [width] bits of [w] that end [below] bits above bit 0. *)
Definition bits_at (w below width : Z) : Z :=
  Z.land (Z.shiftr w below) (Z.ones width).

Fixpoint unpack_fields (fmt : list bitfield) (left : Z) (w : Z) : list Z :=
  match fmt with
  | [] => []
  | FU n :: r => bits_at w (left - n) n :: unpack_fields r (left - n) w
  | FB n :: r =>
      (if bits_at w (left - n) n =? 0 then 0 else 1)
        :: unpack_fields r (left - n) w
  | FS n :: r =>
      (let u := bits_at w (left - n) n in
       if u <? 2 ^ (n - 1) then u else u - 2 ^ n)
        :: unpack_fields r (left - n) w
  | FP n :: r => unpack_fields r (left - n) w
  end.

(** [bitstruct.unpack(fmt, b)]: [bitstruct.Error] when the buffer is
    shorter than the format; bits after the last field are ignored. *)
Definition bitstruct_unpack (fmt : list bitfield) (b : bytes) : result (list Z) :=
  let total := 8 * Z.of_nat (List.length b) in
  if total <? format_width fmt then Raise BitstructError
  else Ok (unpack_fields fmt total (be_uint b)).

(* ================================================================== *)
(** * The byte source

    Modelled from the spec: [utils.DataReader] and the [datareader]
    decorator are not among the sources; the reader follows the byte source
    contract of the specification: [read(n)] advances, [peek(n)] does not,
    [seek(offset, whence)] and [tell()]. *)

Record reader : Type := mkReader { raw : bytes; pos : Z }.

Definition M (A : Type) : Type := reader -> result A * reader.

Definition ret {A} (a : A) : M A := fun s => (Ok a, s).
Definition raise {A} (e : exn) : M A := fun s => (Raise e, s).
Definition bind {A B} (c : M A) (k : A -> M B) : M B :=
  fun s => match c s with
           | (Ok a, s') => k a s'
           | (Raise e, s') => (Raise e, s')
           end.
Definition lift {A} (r : result A) : M A := fun s => (r, s).

Notation "x <- c ;; k" := (bind c (fun x => k))
  (at level 61, c at next level, right associativity).
Notation "c ;;; k" := (bind c (fun _ => k))
  (at level 61, right associativity).

(** The bytes from the current position to the end of the source. *)
Definition remaining (s : reader) : bytes := skipn (Z.to_nat (pos s)) (raw s).

(** [n < 0] reads to the end, as Python's [read(-1)] does. *)
Definition take_bytes (n : Z) (b : bytes) : bytes :=
  if n <? 0 then b else firstn (Z.to_nat n) b.

Definition peek (n : Z) : M bytes :=
  fun s => (Ok (take_bytes n (remaining s)), s).

Definition read (n : Z) : M bytes :=
  fun s => let b := take_bytes n (remaining s) in
           (Ok b, mkReader (raw s) (pos s + Z.of_nat (List.length b))).

Definition read_all : M bytes := read (-1).

Definition tell : M Z := fun s => (Ok (pos s), s).

(** Seeking before the start of the source is an error. *)
Definition seek_to (p : Z) : M unit :=
  fun s => if p <? 0 then (Raise ValueError, s)
           else (Ok tt, mkReader (raw s) p).

Definition seek_set (off : Z) : M unit := seek_to off.
Definition seek_cur (off : Z) : M unit := fun s => seek_to (pos s + off) s.
Definition seek_end (off : Z) : M unit :=
  fun s => seek_to (Z.of_nat (List.length (raw s)) + off) s.

(** Truth value of an integer. *)
Definition Zbool (z : Z) : bool := negb (z =? 0).

(** A decoder applied to a byte string gets a reader of its own. *)
Definition on_bytes {A} (c : M A) (b : bytes) : result A :=
  fst (c (mkReader b 0)).

(* ================================================================== *)
(** * ID3v2 header  (id3v2.py) *)

Module ID3.

(** Modelled from the spec: [tables.ID3Version] is not among the sources;
    the major version byte maps to one of exactly three variants
    (2, 3, 4) and any other value is unsupported. *)
Inductive ID3Version : Set := v22 | v23 | v24.

Definition ID3Version_of (major : Z) : result ID3Version :=
  if major =? 2 then Ok v22
  else if major =? 3 then Ok v23
  else if major =? 4 then Ok v24
  else Raise ValueError.

Definition version_pair (v : ID3Version) : Z * Z :=
  match v with v22 => (2, 2) | v23 => (2, 3) | v24 => (2, 4) end.

(** Modelled from the spec: [utils.decode_synchsafe_int] is not among the
    sources; the groups of [per_byte] bits are concatenated most
    significant first, and a byte with its reserved top bit set is
    malformed. *)
Definition decode_synchsafe_int (data : bytes) (per_byte : Z) : result Z :=
  if existsb (fun b => Z.testbit b 7) data then Raise MalformedInteger
  else Ok (fold_left (fun value element => Z.shiftl value per_byte + element)
                     data 0).

Record ID3v2Flags : Set := mkFlags {
  unsync : bool;
  extended : bool;
  experimental : bool;
  footer : bool
}.

Record ID3v2Header : Set := mkHeader {
  hdr_size : Z;              (* _size *)
  hdr_version : ID3Version;  (* version *)
  hdr_flags : ID3v2Flags     (* flags *)
}.

(** [bitstruct.unpack_dict('b1 b1 b1 b1', [...], flags_)] followed by the
    [ID3v2Flags.from_mapping] converter. *)
Definition unpack_flags (flags_ : bytes) : result ID3v2Flags :=
  rbind (bitstruct_unpack [FB 1; FB 1; FB 1; FB 1] flags_) (fun fs =>
  match fs with
  | [u; e; x; f] => Ok (mkFlags (Zbool u) (Zbool e) (Zbool x) (Zbool f))
  | _ => Raise ValueError
  end).

(** [ID3v2Header.load] *)
Definition ID3v2Header_load : M ID3v2Header :=
  magic <- read 3 ;;
  if negb (bytes_eqb magic (bytes_of_string "ID3")) then raise InvalidHeader
  else
    rest <- read 7 ;;
    (* struct.unpack('BBs4s', ...) *)
    match rest with
    | [major; revision; flags_; s0; s1; s2; s3] =>
        version <- lift (ID3Version_of major) ;;
        flags <- lift (unpack_flags [flags_]) ;;
        size <- lift (decode_synchsafe_int [s0; s1; s2; s3] 7) ;;
        ret (mkHeader size version flags)
    | _ => raise StructError
    end.

(* ================================================================== *)
(** * Tag mappings  (models.py, id3v2.py) *)

(** A Python [dict] with string keys: insertion-ordered, one entry per
    key. *)
Definition dict (A : Type) : Type := list (string * A).

Fixpoint dict_get {A} (d : dict A) (k : string) : option A :=
  match d with
  | [] => None
  | (k', v) :: d' => if String.eqb k' k then Some v else dict_get d' k
  end.

Fixpoint dict_set {A} (d : dict A) (k : string) (v : A) : dict A :=
  match d with
  | [] => [(k, v)]
  | (k', v') :: d' =>
      if String.eqb k' k then (k', v) :: d' else (k', v') :: dict_set d' k v
  end.

Fixpoint dict_del {A} (d : dict A) (k : string) : dict A :=
  match d with
  | [] => []
  | (k', v') :: d' =>
      if String.eqb k' k then d' else (k', v') :: dict_del d' k
  end.

(** [frozenbidict.get(key, key)]: the forward direction of a field map. *)
Definition field_map_get (fm : dict string) (key : string) : string :=
  match dict_get fm key with Some raw_id => raw_id | None => key end.

Definition _v22_FIELD_MAP : dict string := [
  ("album", "TAL"); ("albumartist", "TP2"); ("artist", "TP1");
  ("audiodelay", "TDY"); ("audiolength", "TLE"); ("audiosize", "TSI");
  ("bpm", "TBP"); ("comment", "COM"); ("composer", "TCM");
  ("conductor", "TP3"); ("copyright", "TCR"); ("date", "TYE");
  ("discnumber", "TPA"); ("encodedby", "TEN"); ("encodersettings", "TSS");
  ("genre", "TCO"); ("grouping", "TT1"); ("isrc", "TRC"); ("label", "TPB");
  ("language", "TLA"); ("lyricist", "TXT"); ("lyrics", "ULT");
  ("media", "TMT"); ("originalalbum", "TOT"); ("originalartist", "TOA");
  ("originalauthor", "TOL"); ("originaldate", "TOR"); ("pictures", "PIC");
  ("playcount", "CNT"); ("remixer", "TP4"); ("subtitle", "TT3");
  ("title", "TT2"); ("tracknumber", "TRK")
]%string.

Definition _v23_FIELD_MAP : dict string := [
  ("album", "TALB"); ("albumsort", "TSOA"); ("albumartist", "TPE2");
  ("albumartistsort", "TSO2"); ("artist", "TPE1"); ("artistsort", "TSOP");
  ("audiodelay", "TDLY"); ("audiolength", "TLEN"); ("audiosize", "TSIZ");
  ("bpm", "TBPM"); ("comment", "COMM"); ("compilation", "TCMP");
  ("composer", "TCOM"); ("composersort", "TSOC"); ("conductor", "TPE3");
  ("copyright", "TCOP"); ("date", "TYER"); ("discnumber", "TPOS");
  ("encodedby", "TENC"); ("encodersettings", "TSSE"); ("genre", "TCON");
  ("grouping", "TIT1"); ("isrc", "TSRC"); ("label", "TPUB");
  ("language", "TLAN"); ("lyricist", "TEXT"); ("lyrics", "USLT");
  ("media", "TMED"); ("originalalbum", "TOAL"); ("originalartist", "TOPE");
  ("originalauthor", "TOLY"); ("originaldate", "TORY"); ("pictures", "APIC");
  ("playcount", "PCNT"); ("remixer", "TPE4"); ("subtitle", "TIT3");
  ("title", "TIT2"); ("titlesort", "TSOT"); ("tracknumber", "TRCK")
]%string.

Definition _v24_FIELD_MAP : dict string := [
  ("album", "TALB"); ("albumsort", "TSOA"); ("albumartist", "TPE2");
  ("albumartistsort", "TSO2"); ("artist", "TPE1"); ("artistsort", "TSOP");
  ("audiodelay", "TDLY"); ("audiolength", "TLEN"); ("audiosize", "TSIZ");
  ("bpm", "TBPM"); ("comment", "COMM"); ("compilation", "TCMP");
  ("composer", "TCOM"); ("composersort", "TSOC"); ("conductor", "TPE3");
  ("copyright", "TCOP"); ("date", "TDRC"); ("discnumber", "TPOS");
  ("encodedby", "TENC"); ("encodersettings", "TSSE"); ("genre", "TCON");
  ("grouping", "TIT1"); ("isrc", "TSRC"); ("label", "TPUB");
  ("language", "TLAN"); ("lyricist", "TEXT"); ("lyrics", "USLT");
  ("media", "TMED"); ("mood", "TMOO"); ("originalalbum", "TOAL");
  ("originalartist", "TOPE"); ("originalauthor", "TOLY");
  ("originaldate", "TDOR"); ("pictures", "APIC"); ("playcount", "PCNT");
  ("remixer", "TPE4"); ("subtitle", "TIT3"); ("title", "TIT2");
  ("titlesort", "TSOT"); ("tracknumber", "TRCK")
]%string.

Section Frames.

(** The values carried by decoded frames.  The per-frame decoders
    ([id3v2_frames.py]) are not among the sources. *)
Variable V : Type.

(** What [ID3v2Frame.load] returned, by the first [isinstance] branch of
    the aggregator that accepts it. *)
Inductive frame_obj : Type :=
| NotABaseFrame
| CommentLike (id description language : string) (value : V)
    (* ID3v2CommentFrame, ID3v2SynchronizedLyricsFrame,
       ID3v2UnsynchronizedLyricsFrame *)
| GenreFrame (id : string) (value : V)
| GEOBFrame (id description filename mime_type : string) (value : V)
| PrivateFrame (id owner : string) (value : V)
| UserDefined (id description : string) (value : V)
    (* ID3v2UserTextFrame, ID3v2UserURLLinkFrame *)
| TextLike (id : string) (value : V)
    (* ID3v2NumericTextFrame, ID3v2TextFrame, ID3v2TimestampFrame *)
| OtherFrame (id : string) (value : V).

(** What a list held in the mapping collects. *)
Inductive item : Type :=
| Plain (value : V)
| GeobItem (filename mime_type : string) (value : V).

(** An entry of [frames]: a frame value put there by assignment, or a list
    grown by [append]. *)
Inductive tagval : Type :=
| Assigned (value : V)
| Appended (items : list item).

(** [stored.append(x)] on a frame value that an assignment left under the
    key; what it does depends on the value's Python type. *)
Variable value_append : V -> item -> result V.

(** [frames[key].append(x)] on a [defaultdict(list)] *)
Definition append_to (frames : dict tagval) (key : string) (x : item)
  : result (dict tagval) :=
  match dict_get frames key with
  | None => Ok (dict_set frames key (Appended [x]))
  | Some (Appended l) => Ok (dict_set frames key (Appended (l ++ [x])))
  | Some (Assigned v) =>
      rbind (value_append v x) (fun v' => Ok (dict_set frames key (Assigned v')))
  end.

(** The body of the [while True] loop of [ID3v2Frames.load], for one
    decoded frame. *)
Definition fold_frame (frames : dict tagval) (frame : frame_obj)
  : result (dict tagval) :=
  match frame with
  | NotABaseFrame => Ok frames
  | CommentLike id description language value =>
      append_to frames (id ++ ":" ++ description ++ ":" ++ language)%string
                (Plain value)
  | GenreFrame _ value => Ok (dict_set frames "TCON"%string (Assigned value))
  | GEOBFrame _ description filename mime_type value =>
      append_to frames ("GEOB:" ++ description)%string
                (GeobItem filename mime_type value)
  | PrivateFrame _ owner value =>
      append_to frames ("PRIV:" ++ owner)%string (Plain value)
  | UserDefined id description value =>
      append_to frames (id ++ ":" ++ description)%string (Plain value)
  | TextLike id value => Ok (dict_set frames id (Assigned value))
  | OtherFrame id value => append_to frames id (Plain value)
  end.

Fixpoint fold_frames (trace : list frame_obj) (frames : dict tagval)
  : result (dict tagval) :=
  match trace with
  | [] => Ok frames
  | frame :: trace' => rbind (fold_frame frames frame) (fold_frames trace')
  end.

(** [models.Tags]: the mapping with the field map that [load] installed. *)
Record Tags : Type := mkTags {
  FIELD_MAP : dict string;
  entries : dict tagval
}.

(** [Tags.__getitem__] *)
Definition Tags_getitem (t : Tags) (key : string) : result tagval :=
  let k := field_map_get (FIELD_MAP t) key in
  match dict_get (entries t) k with
  | Some v => Ok v
  | None => Raise KeyError
  end.

(** [Tags.__setitem__] *)
Definition Tags_setitem (t : Tags) (key : string) (value : tagval) : Tags :=
  let k := field_map_get (FIELD_MAP t) key in
  mkTags (FIELD_MAP t) (dict_set (entries t) k value).

(** [Tags.__delitem__] *)
Definition Tags_delitem (t : Tags) (key : string) : result Tags :=
  let k := field_map_get (FIELD_MAP t) key in
  match dict_get (entries t) k with
  | Some _ => Ok (mkTags (FIELD_MAP t) (dict_del (entries t) k))
  | None => Raise KeyError
  end.

(** [MutableMapping.pop(key, default)] *)
Definition Tags_pop (t : Tags) (key : string) (default : tagval)
  : result (tagval * Tags) :=
  match Tags_getitem t key with
  | Raise _ => Ok (default, t)
  | Ok value => rbind (Tags_delitem t key) (fun t' => Ok (value, t'))
  end.

(** Modelled from the spec: [structures.DictMixin] is not among the
    sources; [cls(frames)] builds the tag set, a mapping from key to
    scalar or list value, by storing every entry of [frames] through
    [__setitem__]. *)
Definition Tags_of (fm : dict string) (frames : dict tagval) : Tags :=
  fold_left (fun t kv => Tags_setitem t (fst kv) (snd kv)) frames (mkTags fm []).

(** The frames that successive calls of [ID3v2Frame.load(data,
    struct_pattern, size_len, per_byte)] return up to the first
    [InvalidFrame], or the other exception that escapes the loop. *)
Variable frame_trace : string -> Z -> Z -> bytes -> result (list frame_obj).

(** [ID3v2Frames.load] *)
Definition ID3v2Frames_load (data : bytes) (id3_version : ID3Version)
  : result Tags :=
  let '(field_map, struct_pattern, size_len, per_byte) :=
    match id3_version with
    | v22 => (_v22_FIELD_MAP, "3s3B"%string, 3, 8)
    | v23 => (_v23_FIELD_MAP, "4s4B2B"%string, 4, 8)
    | v24 => (_v24_FIELD_MAP, "4s4B2B"%string, 4, 7)
    end in
  rbind (frame_trace struct_pattern size_len per_byte data) (fun trace =>
  rbind (fold_frames trace []) (fun frames =>
  Ok (Tags_of field_map frames))).

Record ID3v2 : Type := mkID3v2 {
  _header : ID3v2Header;
  _size : Z;
  tags : Tags;
  pictures : tagval
}.

(** [ID3v2.load].  The test [self._header is ID3Version.v24] compares the
    header object with an enumeration member and never holds, so the
    extended header is always skipped by [ext_size] bytes. *)
Definition ID3v2_load : M ID3v2 :=
  magic <- peek 3 ;;
  if negb (bytes_eqb magic (bytes_of_string "ID3")) then raise InvalidHeader
  else
    head <- read 10 ;;
    header <- lift (on_bytes ID3v2Header_load head) ;;
    let size := 10 + hdr_size header in
    size <- (if extended (hdr_flags header) then
               ext <- read 4 ;;
               (* struct.unpack('4B', ...) *)
               _ <- lift (struct_unpack_uint 4 ext) ;;
               ext_size <- lift (decode_synchsafe_int ext 7) ;;
               _ <- read ext_size ;;
               ret (size + ext_size)
             else ret size) ;;
    size <- (if footer (hdr_flags header) then
               _ <- read 10 ;;
               ret (size + 10)
             else ret size) ;;
    body <- read (hdr_size header) ;;
    tags <- lift (ID3v2Frames_load body (hdr_version header)) ;;
    popped <- lift (Tags_pop tags "pictures" (Appended [])) ;;
    ret (mkID3v2 header size (snd popped) (fst popped)).

End Frames.

End ID3.

(* ================================================================== *)
(** * MPEG audio  (mp3.py) *)

Module MP3.

(** The MPEG versions 2.5, 2 and 1. *)
Inductive mpeg_version : Set := V2_5 | V2 | V1.

(** [tables.py] is not among the sources: the lookup tables and the
    members of the enumerations are parameters of the decoders.  A table
    maps a key to [None] where the Python dictionary has no such key. *)
Record Tables : Type := mkTables {
  MP3Bitrates : mpeg_version -> Z -> option (list Z);
  MP3SampleRates : mpeg_version -> option (list Z);
  MP3SamplesPerFrame : mpeg_version -> Z -> option (Z * Z);
  MP3ChannelMode : Z -> bool;
  LAMEBitrateMode : Z -> bool;
  LAMEChannelMode : Z -> bool;
  LAMEPreset : Z -> bool;
  LAMESurroundInfo : Z -> bool;
  LAMEReplayGainType : Z -> bool;
  LAMEReplayGainOrigin : Z -> bool
}.

(** Calling an enumeration: [ValueError] when the value is no member. *)
Definition enum (member : Z -> bool) (v : Z) : result Z :=
  if member v then Ok v else Raise ValueError.

(** [d[key]] *)
Definition lookup {A} (o : option A) : result A :=
  match o with Some a => Ok a | None => Raise KeyError end.

(** [l[i]] for [0 <= i] *)
Definition index {A} (l : list A) (i : Z) : result A :=
  match nth_error l (Z.to_nat i) with
  | Some a => Ok a
  | None => Raise IndexError
  end.

(** [a // b] *)
Definition floordiv (a b : Z) : result Z :=
  if b =? 0 then Raise ZeroDivisionError else Ok (a / b).

(** [a / b] *)
Definition truediv (a b : Q) : result Q :=
  if Qeq_bool b 0 then Raise ZeroDivisionError else Ok (a / b)%Q.

Inductive MP3BitrateMode : Set := UNKNOWN | CBR | ABR | VBR.

Record LAMEReplayGain : Type := mkReplayGain {
  peak : option Q;
  track_type : Z;
  track_origin : Z;
  track_adjustment : Q;
  album_type : Z;
  album_origin : Z;
  album_adjustment : Q
}.

Record LAMEEncodingFlags : Set := mkEncodingFlags {
  nogap_continuation : bool;
  nogap_continued : bool;
  nssafejoint : bool;
  nspsytune : bool
}.

Record LAMEHeader : Type := mkLAME {
  _crc : bytes;
  lame_version : option (Z * Z);
  revision : Z;
  ath_type : Z;
  audio_crc : bytes;
  lame_audio_size : Z;
  lame_bitrate : Z;
  lame_bitrate_mode : Z;
  lame_channel_mode : Z;
  delay : Z;
  encoding_flags : LAMEEncodingFlags;
  lowpass_filter : Z;
  mp3_gain : Z;
  noise_shaping : Z;
  padding : Z;
  preset : Z;
  replay_gain : LAMEReplayGain;
  source_sample_rate : Z;
  surround_info : Z;
  unwise_settings_used : Z
}.

Record XingHeader : Type := mkXing {
  _lame : option LAMEHeader;
  num_frames : option Z;
  num_bytes : option Z;
  toc : bytes;                (* a XingToC, by the converter of the attribute *)
  quality : option Z
}.

Record VBRIHeader : Set := mkVBRI {
  vbri_version : Z;
  vbri_delay : Z;            (* the 16 bits of the half-precision float *)
  vbri_quality : Z;
  vbri_num_bytes : Z;
  vbri_num_frames : Z;
  num_toc_entries : Z;
  toc_scale_factor : Z;
  toc_entry_num_bytes : Z;
  toc_entry_num_frames : Z;
  vbri_toc : list Z
}.

Record MPEGFrameHeader : Type := mkFrame {
  _start : Z;
  _size : Z;
  _vbri : option VBRIHeader;
  _xing : option XingHeader;
  version : mpeg_version;
  layer : Z;
  protected : bool;
  padded : Z;
  bitrate : Z;
  channel_mode : Z;
  channels : Z;
  sample_rate : Z
}.

Record MP3StreamInfo : Type := mkStreamInfo {
  si_start : Z;
  si_end : Z;
  si_size : Z;
  si_vbri : option VBRIHeader;
  si_xing : option XingHeader;
  si_version : mpeg_version;
  si_layer : Z;
  si_protected : bool;
  si_bitrate : Q;
  si_bitrate_mode : MP3BitrateMode;
  si_channel_mode : Z;
  si_channels : Z;
  si_duration : Q;
  si_sample_rate : Z
}.

(** The leading ASCII digits of a byte string, and what follows them. *)
Fixpoint span_digits (l : bytes) : bytes * bytes :=
  match l with
  | d :: l' =>
      if (48 <=? d) && (d <=? 57) then
        let '(ds, rest) := span_digits l' in (d :: ds, rest)
      else ([], l)
  | [] => ([], [])
  end.

Definition int_of_digits (ds : bytes) : Z :=
  fold_left (fun acc d => acc * 10 + (d - 48)) ds 0.

(** [re.search(rb'LAME(\d+)\.(\d+)', encoder)] on the nine bytes that
    start with [LAME]: the pattern can only match at offset 0. *)
Definition lame_version_of (encoder : bytes) : option (Z * Z) :=
  match span_digits (skipn 4 encoder) with
  | ((_ :: _) as major, 46 :: rest) =>
      match span_digits rest with
      | ((_ :: _) as minor, _) => Some (int_of_digits major, int_of_digits minor)
      | _ => None
      end
  | _ => None
  end.

Section Decoders.

Variable T : Tables.

(** One gain field of the replay-gain structure:
    [bitstruct.unpack('u3 u3 b1 u9', data.read(2))], the two
    enumerations, and the adjustment with its sign. *)
Definition gain_load : M (Z * Z * Q) :=
  b <- read 2 ;;
  fs <- lift (bitstruct_unpack [FU 3; FU 3; FB 1; FU 9] b) ;;
  match fs with
  | [gain_type_; gain_origin_; gain_sign; gain_adjustment_] =>
      gain_type <- lift (enum (LAMEReplayGainType T) gain_type_) ;;
      gain_origin <- lift (enum (LAMEReplayGainOrigin T) gain_origin_) ;;
      let gain_adjustment := (inject_Z gain_adjustment_ / 10)%Q in
      ret (gain_type, gain_origin,
           if Zbool gain_sign then (gain_adjustment * -1)%Q
           else gain_adjustment)
  | _ => raise ValueError
  end.

(** [LAMEReplayGain.load] *)
Definition LAMEReplayGain_load : M LAMEReplayGain :=
  b <- read 4 ;;
  peak_data <- lift (struct_unpack_uint 4 b) ;;
  let gain_peak :=
    if peak_data =? 0 then None
    else Some (inject_Z peak_data / inject_Z (2 ^ 23))%Q in
  track <- gain_load ;;
  album <- gain_load ;;
  let '(track_gain_type, track_gain_origin, track_gain_adjustment) := track in
  let '(album_gain_type, album_gain_origin, album_gain_adjustment) := album in
  ret (mkReplayGain gain_peak
         track_gain_type track_gain_origin track_gain_adjustment
         album_gain_type album_gain_origin album_gain_adjustment).

(** [LAMEHeader.load] *)
Definition LAMEHeader_load (xing_quality : option Z) : M LAMEHeader :=
  encoder <- read 9 ;;
  if negb (startswith encoder (bytes_of_string "LAME")) then raise InvalidHeader
  else
    let version := lame_version_of encoder in
    b <- read 1 ;;
    fs <- lift (bitstruct_unpack [FU 4; FU 4] b) ;;
    match fs with
    | [revision; bitrate_mode_] =>
    bitrate_mode <- lift (enum (LAMEBitrateMode T) bitrate_mode_) ;;
    b <- read 1 ;;
    lowpass <- lift (struct_unpack_uint 1 b) ;;
    let lowpass_filter := lowpass * 100 in
    replay_gain <- LAMEReplayGain_load ;;
    b <- read 1 ;;
    flags_ath <- lift (bitstruct_unpack [FB 1; FB 1; FB 1; FB 1; FU 4] b) ;;
    match flags_ath with
    | [f0; f1; f2; f3; ath_type] =>
    let encoding_flags :=
      mkEncodingFlags (Zbool f0) (Zbool f1) (Zbool f2) (Zbool f3) in
    b <- read 1 ;;
    rate <- lift (struct_unpack_uint 1 b) ;;
    let bitrate := rate * 1000 in
    b <- read 3 ;;
    fs <- lift (bitstruct_unpack [FU 12; FU 12] b) ;;
    match fs with
    | [delay; padding] =>
    b <- read 1 ;;
    fs <- lift (bitstruct_unpack [FU 2; FU 1; FU 3; FU 2] b) ;;
    match fs with
    | [source_sample_rate; unwise_settings_used; channel_mode_; noise_shaping] =>
    channel_mode <- lift (enum (LAMEChannelMode T) channel_mode_) ;;
    b <- read 1 ;;
    fs <- lift (bitstruct_unpack [FS 8] b) ;;
    mp3_gain <- lift (index fs 0) ;;
    b <- read 2 ;;
    fs <- lift (bitstruct_unpack [FP 2; FU 3; FU 11] b) ;;
    match fs with
    | [surround_info_; preset_used_] =>
    surround_info <- lift (enum (LAMESurroundInfo T) surround_info_) ;;
    preset <- lift (enum (LAMEPreset T) preset_used_) ;;
    b <- read 8 ;;
    (* struct.unpack('>I2s2s', ...) *)
    if negb (Nat.eqb (List.length b) 8) then raise StructError
    else
      let audio_size := be_uint (firstn 4 b) in
      let audio_crc := firstn 2 (skipn 4 b) in
      let lame_crc := skipn 6 b in
      ret (mkLAME lame_crc version revision ath_type audio_crc audio_size
             bitrate bitrate_mode channel_mode delay encoding_flags
             lowpass_filter mp3_gain noise_shaping padding preset
             replay_gain source_sample_rate surround_info
             unwise_settings_used)
    | _ => raise ValueError end
    | _ => raise ValueError end
    | _ => raise ValueError end
    | _ => raise ValueError end
    | _ => raise ValueError end.

Definition is_xing_marker (b : bytes) : bool :=
  bytes_eqb b (bytes_of_string "Xing") || bytes_eqb b (bytes_of_string "Info").

(** A field of the Xing header that is read only when its flag is set. *)
Definition gated (flags mask : Z) {A} (c : M A) : M (option A) :=
  if Z.land flags mask =? 0 then ret None else (a <- c ;; ret (Some a)).

Definition read_uint32 : M Z := b <- read 4 ;; lift (struct_unpack_uint 4 b).
Definition read_uint16 : M Z := b <- read 2 ;; lift (struct_unpack_uint 2 b).

(** Modelled from the spec: [structures.ListMixin] is not among the
    sources; the converter [XingToC] of the attribute [toc] makes a list of
    the bytes of the table, the empty list when no table was read. *)
Definition XingToC (table : option bytes) : bytes :=
  match table with
  | Some entries => entries
  | None => []
  end.

(** [XingHeader.load] *)
Definition XingHeader_load : M XingHeader :=
  magic <- read 4 ;;
  if negb (is_xing_marker magic) then raise InvalidHeader
  else
    b <- read 4 ;;
    flags <- lift (struct_unpack_int32 b) ;;
    num_frames <- gated flags 1 read_uint32 ;;
    num_bytes <- gated flags 2 read_uint32 ;;
    toc <- gated flags 4 (read 100) ;;
    quality <- gated flags 8 read_uint32 ;;
    next <- peek 4 ;;
    lame_header <- (if bytes_eqb next (bytes_of_string "LAME")
                    then (l <- LAMEHeader_load quality ;; ret (Some l))
                    else ret None) ;;
    ret (mkXing lame_header num_frames num_bytes (XingToC toc) quality).

(** The generator that [VBRIToC] consumes: [count] entries of
    [entry_size] bytes each. *)
Fixpoint vbri_toc_load (count : nat) (entry_size : Z) : M (list Z) :=
  match count with
  | O => ret []
  | S count' =>
      b <- read entry_size ;;
      e <- lift (struct_unpack_uint (Z.to_nat entry_size) b) ;;
      es <- vbri_toc_load count' entry_size ;;
      ret (e :: es)
  end.

(** [VBRIHeader.load] *)
Definition VBRIHeader_load : M VBRIHeader :=
  magic <- read 4 ;;
  if negb (bytes_eqb magic (bytes_of_string "VBRI")) then raise InvalidHeader
  else
    version <- read_uint16 ;;
    delay <- read_uint16 ;;
    quality <- read_uint16 ;;
    num_bytes <- read_uint32 ;;
    num_frames <- read_uint32 ;;
    num_toc_entries <- read_uint16 ;;
    toc_scale_factor <- read_uint16 ;;
    toc_entry_num_bytes <- read_uint16 ;;
    toc_entry_num_frames <- read_uint16 ;;
    let toc_size := num_toc_entries * toc_entry_num_bytes in
    if negb ((toc_entry_num_bytes =? 2) || (toc_entry_num_bytes =? 4))
    then raise InvalidHeader
    else
      toc <- vbri_toc_load (Z.to_nat (toc_size / toc_entry_num_bytes))
                           toc_entry_num_bytes ;;
      ret (mkVBRI version delay quality num_bytes num_frames num_toc_entries
             toc_scale_factor toc_entry_num_bytes toc_entry_num_frames toc).

(** [[2.5, None, 2, 1][version_id]] *)
Definition version_of_id (version_id : Z) : option mpeg_version :=
  nth (Z.to_nat version_id) [Some V2_5; None; Some V2; Some V1] None.

Definition mpeg_version_eqb (a b : mpeg_version) : bool :=
  match a, b with
  | V2_5, V2_5 | V2, V2 | V1, V1 => true
  | _, _ => false
  end.

(** The probes for a Xing and a VBRI header in a layer-3 frame. *)
Definition vbr_headers_load (frame_start frame_size : Z)
    (version : mpeg_version) (channel_mode : Z)
  : M (option VBRIHeader * option XingHeader) :=
  let xing_header_start :=
    if mpeg_version_eqb version V1 then
      if negb (channel_mode =? 3) then 36 else 21
    else if negb (channel_mode =? 3) then 21
    else 13 in
  seek_set (frame_start + xing_header_start) ;;;
  marker <- peek 4 ;;
  xing_header <- (if is_xing_marker marker
                  then (b <- read frame_size ;;
                        x <- lift (on_bytes XingHeader_load b) ;;
                        ret (Some x))
                  else ret None) ;;
  seek_set (frame_start + 36) ;;;
  marker <- peek 4 ;;
  vbri_header <- (if bytes_eqb marker (bytes_of_string "VBRI")
                  then (v <- VBRIHeader_load ;; ret (Some v))
                  else ret None) ;;
  ret (vbri_header, xing_header).

(** [MPEGFrameHeader.load] *)
Definition MPEGFrameHeader_load : M MPEGFrameHeader :=
  frame_start <- tell ;;
  b <- read 2 ;;
  fs <- lift (bitstruct_unpack [FU 11; FU 2; FU 2; FB 1] b) ;;
  match fs with
  | [sync; version_id; layer_index; protection] =>
  if negb (sync =? 2047) then raise InvalidFrame
  else
    let version := version_of_id version_id in
    let layer := 4 - layer_index in
    let protected := negb (Zbool protection) in
    b <- read 1 ;;
    fs <- lift (bitstruct_unpack [FU 4; FU 2; FU 1] b) ;;
    match fs with
    | [bitrate_index; sample_rate_index; padded] =>
    if (version_id =? 1) || (layer_index =? 0) || (bitrate_index =? 0)
       || (bitrate_index =? 15) || (sample_rate_index =? 3)
    then raise InvalidFrame
    else
      b <- read 1 ;;
      fs <- lift (bitstruct_unpack [FU 2] b) ;;
      mode <- lift (index fs 0) ;;
      channel_mode <- lift (enum (MP3ChannelMode T) mode) ;;
      let channels := if channel_mode =? 3 then 1 else 2 in
      version <- lift (lookup version) ;;
      rates <- lift (lookup (MP3Bitrates T version layer)) ;;
      rate <- lift (index rates bitrate_index) ;;
      let bitrate := rate * 1000 in
      sample_rates <- lift (lookup (MP3SampleRates T version)) ;;
      sample_rate <- lift (index sample_rates sample_rate_index) ;;
      spf <- lift (lookup (MP3SamplesPerFrame T version layer)) ;;
      let '(samples_per_frame, slot_size) := spf in
      slots <- lift (floordiv (samples_per_frame / 8 * bitrate) sample_rate) ;;
      let frame_size := (slots + padded) * slot_size in
      headers <- (if layer =? 3
                  then vbr_headers_load frame_start frame_size version
                                        channel_mode
                  else ret (None, None)) ;;
      ret (mkFrame frame_start frame_size (fst headers) (snd headers)
             version layer protected padded bitrate channel_mode channels
             sample_rate)
    | _ => raise ValueError end
  | _ => raise ValueError end.

End Decoders.

(** [bytes.find] of one byte, from index [i]: the first index, or -1. *)
Fixpoint find_byte_from (x : Z) (l : bytes) (i : Z) : Z :=
  match l with
  | [] => -1
  | y :: l' => if y =? x then i else find_byte_from x l' (i + 1)
  end.

Definition find_byte (l : bytes) (x : Z) : Z := find_byte_from x l 0.

(** [bytes.rfind], from index [i]: the highest index, or -1. *)
Fixpoint rfind_from (sub l : bytes) (i : Z) : Z :=
  match l with
  | [] => if startswith [] sub then i else -1
  | _ :: l' =>
      let r := rfind_from sub l' (i + 1) in
      if 0 <=? r then r else if startswith l sub then i else -1
  end.

Definition rfind (l sub : bytes) : Z := rfind_from sub l 0.

(** The exceptions that [find_mp3_frames] catches around a frame decode:
    [except (InvalidFrame, bitstruct.Error)]. *)
Definition caught (e : exn) : bool :=
  match e with
  | InvalidFrame | BitstructError => true
  | _ => false
  end.

(** A header object is a non-empty mapping: only [None] is false. *)
Definition truthy {A} (o : option A) : bool :=
  match o with Some _ => true | None => false end.

(** [more_itertools.all_equal] *)
Definition all_equal (l : list Z) : bool :=
  match l with
  | [] => true
  | x :: l' => forallb (Z.eqb x) l'
  end.

Section Synchronizer.

Variable T : Tables.

(** The loop [for _ in range(4)] of [find_mp3_frames] with its
    [try]/[except]: [n] rounds are left and [frames] is the run so far. *)
Fixpoint load_run (n : nat) (frames : list MPEGFrameHeader)
  : M (list MPEGFrameHeader) :=
  match n with
  | O => ret frames
  | S n' => fun s =>
      match MPEGFrameHeader_load T s with
      | (Ok frame, s1) =>
          let frames := frames ++ [frame] in
          if truthy (_xing frame) then (Ok frames, s1)
          else
            match seek_set (_start frame + _size frame) s1 with
            | (Ok _, s2) => load_run n' frames s2
            | (Raise e, s2) =>
                if caught e then (seek_cur 1 ;;; ret frames) s2
                else (Raise e, s2)
            end
      | (Raise e, s1) =>
          if caught e then (seek_cur 1 ;;; ret frames) s1
          else (Raise e, s1)
      end
  end.

(** [frames and (len(frames) >= 4 or frames[0]._xing)] *)
Definition accepted (frames : list MPEGFrameHeader) : bool :=
  match frames with
  | [] => false
  | frame0 :: _ => (4 <=? Z.of_nat (List.length frames)) || truthy (_xing frame0)
  end.

(** How one round of the [while] loop ends. *)
Inductive round : Type :=
| Exhausted                                        (* the loop test fails *)
| Accepted (frames : list MPEGFrameHeader)         (* break *)
| Again (cached_frames : option (list MPEGFrameHeader)).

Definition buffer_size : Z := 128.

(** The body of the [while] loop from the seek to the candidate at
    [sync_start] to the end of the [if]/[else]: the run decoded there. *)
Definition decode_run (sync_start : Z) : M (list MPEGFrameHeader) :=
  seek_cur sync_start ;;;
  two <- peek 2 ;;
  fs <- lift (bitstruct_unpack [FU 11] two) ;;
  sync <- lift (index fs 0) ;;
  if sync =? 2047 then load_run 4 []
  else seek_cur (sync_start + 1) ;;; ret [].

(** [cached_frames] after a round that did not accept [frames]. *)
Definition cache (cached_frames : option (list MPEGFrameHeader))
    (frames : list MPEGFrameHeader) : option (list MPEGFrameHeader) :=
  match cached_frames with
  | None => if 2 <=? Z.of_nat (List.length frames) then Some frames else None
  | Some _ => cached_frames
  end.

(** The loop test and the body of the [while] loop. *)
Definition scan_round (cached_frames : option (list MPEGFrameHeader))
  : M round :=
  buffer <- peek buffer_size ;;
  if Z.of_nat (List.length buffer) <? buffer_size then ret Exhausted
  else
    let sync_start := find_byte buffer 255 in
    if sync_start =? -1 then
      seek_cur buffer_size ;;; ret (Again cached_frames)
    else
      frames <- decode_run sync_start ;;
      if accepted frames then ret (Accepted frames)
      else ret (Again (cache cached_frames frames)).

(** The [while] loop, for at most [fuel] rounds; the result is the pair
    [(frames, cached_frames)] on leaving the loop. *)
Fixpoint scan_loop (fuel : nat) (cached_frames : option (list MPEGFrameHeader))
    (s : reader)
  : option (result (list MPEGFrameHeader * option (list MPEGFrameHeader))
            * reader) :=
  match fuel with
  | O => None
  | S fuel' =>
      match scan_round cached_frames s with
      | (Ok Exhausted, s') => Some (Ok ([], cached_frames), s')
      | (Ok (Accepted frames), s') => Some (Ok (frames, cached_frames), s')
      | (Ok (Again cached_frames'), s') => scan_loop fuel' cached_frames' s'
      | (Raise e, s') => Some (Raise e, s')
      end
  end.

(** The end of [find_mp3_frames], after the loop. *)
Definition choose_frames (frames : list MPEGFrameHeader)
    (cached_frames : option (list MPEGFrameHeader))
  : result (list MPEGFrameHeader) :=
  match frames with
  | [] =>
      match cached_frames with
      | Some ((_ :: _) as cached) => Ok cached
      | _ => Raise InvalidFormat
      end
  | _ :: _ => Ok frames
  end.

(** [MP3StreamInfo.find_mp3_frames] *)
Definition find_mp3_frames (fuel : nat) (s : reader)
  : option (result (list MPEGFrameHeader) * reader) :=
  match scan_loop fuel None s with
  | None => None
  | Some (Ok (frames, cached_frames), s') =>
      Some (choose_frames frames cached_frames, s')
  | Some (Raise e, s') => Some (Raise e, s')
  end.

Definition end_tag_types : list bytes :=
  [bytes_of_string "APETAGEX"; bytes_of_string "LYRICSBEGIN";
   bytes_of_string "TAG"].

(** The loop over the three end-tag markers. *)
Definition end_tag_offset_of (end_buffer : bytes) : Z :=
  fold_left
    (fun end_tag_offset tag_type =>
       let tag_offset := rfind end_buffer tag_type in
       if 0 <? tag_offset then
         let tag_offset := Z.of_nat (List.length end_buffer) - tag_offset in
         if end_tag_offset <? tag_offset then tag_offset else end_tag_offset
       else end_tag_offset)
    end_tag_types 0.

Definition chunk_size : Z := 64 * 1024.

(** The end of the file and the buffer searched for end tags. *)
Definition read_end_buffer : M (Z * bytes) :=
  seek_end 0 ;;;
  end_pos <- tell ;;
  (if chunk_size <? end_pos then seek_end (- chunk_size) else seek_set 0) ;;;
  end_buffer <- read_all ;;
  ret (end_pos, end_buffer).

Definition lame_padding_of (lame : LAMEHeader) : Z := delay lame + padding lame.

(** The sample count of the Xing branch: [TypeError] when the header has
    no frame count. *)
Definition xing_num_samples (samples_per_frame : Z) (xing_header : XingHeader)
  : result Z :=
  match num_frames xing_header with
  | None => Raise TypeError
  | Some n =>
      let num_samples := samples_per_frame * n in
      match _lame xing_header with
      | Some lame =>
          let lame_padding := lame_padding_of lame in
          if lame_padding <? num_samples then Ok (num_samples - lame_padding)
          else Ok num_samples
      | None => Ok num_samples
      end
  end.

Definition member (x : Z) (l : list Z) : bool := existsb (Z.eqb x) l.

(** The bitrate mode of the Xing branch. *)
Definition xing_bitrate_mode (xing_header : XingHeader) : MP3BitrateMode :=
  match _lame xing_header with
  | Some lame =>
      if member (lame_bitrate_mode lame) [1; 8] then CBR
      else if member (lame_bitrate_mode lame) [2; 9] then ABR
      else if member (lame_bitrate_mode lame) [3; 4; 5; 6] then VBR
      else UNKNOWN
  | None => UNKNOWN
  end.

(** [num_samples] and [bitrate_mode], by the headers of the first frame. *)
Definition samples_and_mode (frames : list MPEGFrameHeader)
    (frame0 : MPEGFrameHeader) (samples_per_frame audio_size : Z)
  : result (Q * MP3BitrateMode) :=
  match _xing frame0 with
  | Some xing_header =>
      rbind (xing_num_samples samples_per_frame xing_header) (fun num_samples =>
      Ok (inject_Z num_samples, xing_bitrate_mode xing_header))
  | None =>
      match _vbri frame0 with
      | Some vbri_header =>
          Ok (inject_Z (samples_per_frame * vbri_num_frames vbri_header), VBR)
      | None =>
          let bitrate_mode :=
            if all_equal (map bitrate frames) then CBR else UNKNOWN in
          rbind (truediv (inject_Z audio_size) (inject_Z (_size frame0)))
                (fun n => Ok ((inject_Z samples_per_frame * n)%Q, bitrate_mode))
      end
  end.

(** The bitrate, by the bitrate mode. *)
Definition bitrate_of (frame0 : MPEGFrameHeader) (bitrate_mode : MP3BitrateMode)
    (audio_size : Z) (num_samples : Q) : result Q :=
  match bitrate_mode with
  | CBR => Ok (inject_Z (bitrate frame0))
  | _ =>
      if truthy (_xing frame0) then
        truediv (inject_Z ((audio_size - _size frame0) * 8 * sample_rate frame0))
                num_samples
      else
        truediv (inject_Z (audio_size * 8 * sample_rate frame0)) num_samples
  end.

(** [MP3StreamInfo.load], after [find_mp3_frames] returned [frames]. *)
Definition stream_info_of (frames : list MPEGFrameHeader) : M MP3StreamInfo :=
  frame0 <- lift (index frames 0) ;;
  spf <- lift (lookup (MP3SamplesPerFrame T (version frame0) (layer frame0))) ;;
  let samples_per_frame := fst spf in
  ends <- read_end_buffer ;;
  let '(end_pos, end_buffer) := ends in
  let end_tag_offset := end_tag_offset_of end_buffer in
  let audio_start := _start frame0 in
  let audio_end := end_pos - end_tag_offset in
  let audio_size := audio_end - audio_start in
  sm <- lift (samples_and_mode frames frame0 samples_per_frame audio_size) ;;
  let '(num_samples, bitrate_mode) := sm in
  bitrate <- lift (bitrate_of frame0 bitrate_mode audio_size num_samples) ;;
  duration <- lift (truediv (inject_Z (audio_size * 8)) bitrate) ;;
  ret (mkStreamInfo audio_start audio_end audio_size (_vbri frame0)
         (_xing frame0) (version frame0) (layer frame0) (protected frame0)
         bitrate bitrate_mode (channel_mode frame0) (channels frame0)
         duration (sample_rate frame0)).

(** [MP3StreamInfo.load] *)
Definition MP3StreamInfo_load (fuel : nat) (s : reader)
  : option (result MP3StreamInfo * reader) :=
  match find_mp3_frames fuel s with
  | None => None
  | Some (Ok frames, s') => Some (stream_info_of frames s')
  | Some (Raise e, s') => Some (Raise e, s')
  end.

End Synchronizer.

End MP3.

(* ================================================================== *)
(** * Instances used in the examples *)

(** An instance of the tables with the values of the MPEG audio standard
    and of the LAME tag. *)
Definition std_bitrates (v : MP3.mpeg_version) (layer : Z) : option (list Z) :=
  match v, layer with
  | MP3.V1, 1 => Some [0; 32; 64; 96; 128; 160; 192; 224; 256; 288; 320; 352; 384; 416; 448]
  | MP3.V1, 2 => Some [0; 32; 48; 56; 64; 80; 96; 112; 128; 160; 192; 224; 256; 320; 384]
  | MP3.V1, 3 => Some [0; 32; 40; 48; 56; 64; 80; 96; 112; 128; 160; 192; 224; 256; 320]
  | _, 1 => Some [0; 32; 48; 56; 64; 80; 96; 112; 128; 144; 160; 176; 192; 224; 256]
  | _, 2 | _, 3 => Some [0; 8; 16; 24; 32; 40; 48; 56; 64; 80; 96; 112; 128; 144; 160]
  | _, _ => None
  end.

Definition std_sample_rates (v : MP3.mpeg_version) : option (list Z) :=
  match v with
  | MP3.V1 => Some [44100; 48000; 32000]
  | MP3.V2 => Some [22050; 24000; 16000]
  | MP3.V2_5 => Some [11025; 12000; 8000]
  end.

Definition std_samples_per_frame (v : MP3.mpeg_version) (layer : Z)
  : option (Z * Z) :=
  match v, layer with
  | _, 1 => Some (384, 4)
  | _, 2 => Some (1152, 1)
  | MP3.V1, 3 => Some (1152, 1)
  | _, 3 => Some (576, 1)
  | _, _ => None
  end.

Definition below (n : Z) (v : Z) : bool := (0 <=? v) && (v <? n).

Definition std_tables : MP3.Tables :=
  MP3.mkTables std_bitrates std_sample_rates std_samples_per_frame
    (below 4)
    (fun v => below 7 v || (v =? 8) || (v =? 9) || (v =? 15))
    (below 8)
    (fun _ => true)
    (below 4)
    (below 3)
    (below 5).

(** A frame decoder that finds no frame in its input. *)
Definition no_frames (V : Type)
  : string -> Z -> Z -> bytes -> result (list (ID3.frame_obj V)) :=
  fun _ _ _ _ => Ok [].

(** Frame values without [append]. *)
Definition no_append (V : Type) : V -> ID3.item V -> result V :=
  fun _ _ => Raise TypeError.

(* ================================================================== *)
(** * Predicates and inputs of the properties *)

Import ID3.

(** A ten-byte ID3v2 header. *)
Definition header_bytes (major revision flags_ s0 s1 s2 s3 : Z) : bytes :=
  bytes_of_string "ID3" ++ [major; revision; flags_; s0; s1; s2; s3].

(** A v2.3 tag with the extended flag set: declared size 10, an extended
    header of declared size 6, and ten bytes of padding as its body. *)
Definition extended_tag : reader :=
  mkReader (header_bytes 3 0 0x40 0 0 0 10
            ++ [0; 0; 0; 6] ++ [0; 0; 0; 0; 0; 0]
            ++ [0; 0; 0; 0; 0; 0; 0; 0; 0; 0]) 0.

(** The tag set that [ID3v2Frames.load] builds from the frames [trace]
    that the frame decoder returned. *)
Definition tags_of_trace (V : Type) (value_append : V -> item V -> result V)
    (id3_version : ID3Version) (trace : list (frame_obj V))
  : result (Tags V) :=
  ID3v2Frames_load V value_append (fun _ _ _ _ => Ok trace) [] id3_version.

Import MP3.

(** The adjustment of a gain field with 16-bit value [w]. *)
Definition gain_of_word (w : Z) : Q :=
  if Z.testbit w 9 then (- (inject_Z (w mod 2 ^ 9) / 10))%Q
  else (inject_Z (w mod 2 ^ 9) / 10)%Q.

(** [c] leaves the byte source unchanged and, started at or after [lo],
    ends at or after [lo], whether it returns or raises. *)
Definition stays_above (lo : Z) {A} (c : M A) : Prop :=
  forall s r s', c s = (r, s') -> lo <= pos s -> raw s' = raw s /\ lo <= pos s'.

(** The tables hold no negative bitrate, sample rate, sample count or slot
    size. *)
Definition tables_ok (T : Tables) : Prop :=
  (forall v l rates, MP3Bitrates T v l = Some rates -> Forall (Z.le 0) rates)
  /\ (forall v rates, MP3SampleRates T v = Some rates -> Forall (Z.le 0) rates)
  /\ (forall v l spf slot,
        MP3SamplesPerFrame T v l = Some (spf, slot) -> 0 <= spf /\ 0 <= slot).







(** An MPEG-2 layer-3 frame of 8 kbit/s at 24 kHz: 24 bytes. *)
Definition small_frame : bytes := [255; 243; 20; 0] ++ repeat 0 20%nat.

(** Four such frames and forty bytes of padding. *)
Definition four_frames : reader :=
  mkReader (small_frame ++ small_frame ++ small_frame ++ small_frame
            ++ repeat 0 40%nat) 0.

(** Two frames followed by zero bytes, and zero bytes alone. *)
Definition two_frames : reader :=
  mkReader (small_frame ++ small_frame ++ repeat 0 150%nat) 0.

Definition silence : reader := mkReader (repeat 0 200%nat) 0.

(** A LAME header with the given delay, padding and bitrate-mode code. *)
Definition sample_lame (delay padding bitrate_mode : Z) : LAMEHeader :=
  mkLAME [0; 0] (Some (3, 99)) 0 0 [0; 0] 0 128000 bitrate_mode 1 delay
    (mkEncodingFlags false false false false) 19000 0 0 padding 0
    (mkReplayGain None 0 0 0 0 0 0) 1 0 0.

(** The run that the scan finds in [four_frames]. *)
Definition four_frames_run : list MPEGFrameHeader :=
  match find_mp3_frames std_tables 200 four_frames with
  | Some (Ok frames, _) => frames
  | _ => []
  end.

(** The last 64 KiB of the file, or the whole file when it is shorter. *)
Definition end_window (data : bytes) : bytes :=
  let len := Z.of_nat (List.length data) in
  if chunk_size <? len then skipn (Z.to_nat (len - chunk_size)) data
  else data.

(** A Xing header with no flag set, and a stream whose first frame (MPEG-1
    layer 3, 128 kbit/s, 44.1 kHz) carries it. *)
Definition bare_xing : bytes :=
  bytes_of_string "Xing" ++ [0; 0; 0; 0] ++ repeat 0 20%nat.

Definition bare_xing_stream : reader :=
  mkReader ([255; 251; 144; 0] ++ repeat 0 32%nat ++ bare_xing
            ++ repeat 0 140%nat) 0.

Definition TAG : bytes := bytes_of_string "TAG".

Definition APETAGEX : bytes := bytes_of_string "APETAGEX".

Definition LYRICSBEGIN : bytes := bytes_of_string "LYRICSBEGIN".

(** The distance from the end of [buffer] to the last occurrence of
    [marker], and 0 when there is none. *)
Definition match_offset (buffer marker : bytes) : Z :=
  if rfind buffer marker =? -1 then 0
  else Z.of_nat (List.length buffer) - rfind buffer marker.

(** The largest of the offsets of the three markers. *)
Definition largest_offset (buffer : bytes) : Z :=
  fold_right Z.max 0 (map (match_offset buffer) end_tag_types).

(** The stream [four_frames] followed by "TAG" and 125 zero bytes. *)
Definition plain_filler : bytes := repeat 0 125%nat.

Definition tagged_stream : reader :=
  mkReader (raw four_frames ++ TAG ++ plain_filler) 0.

(** The same with a filler that itself contains "TAG". *)
Definition tag_in_filler : bytes := [0; 0] ++ TAG ++ repeat 0 120%nat.

Definition doubly_tagged_stream : reader :=
  mkReader (raw four_frames ++ TAG ++ tag_in_filler) 0.

(** A replay-gain structure: the four bytes of the peak; track gain of type 1,
    origin 3, negative, magnitude 60; album gain of type 2, origin 3,
    positive, magnitude 10. *)
Definition gain_bytes (p0 p1 p2 p3 : Z) : bytes :=
  [p0; p1; p2; p3; 0x2E; 0x3C; 0x4C; 0x0A].

(* ================================================================== *)
(** * More of the tag mapping  (models.py) *)

(** [frozenbidict.inv.get(raw_id, raw_id)]: the backward direction of a
    field map. *)
Definition field_map_inv_get (fm : dict string) (raw_id : string) : string :=
  match find (fun kv => String.eqb (snd kv) raw_id) fm with
  | Some kv => fst kv
  | None => raw_id
  end.

(** [Tags.__iter__]: the keys of the instance dictionary, without the
    private ones and [FIELD_MAP], each under its canonical name. *)
Definition Tags_iter (V : Type) (t : Tags V) : list string :=
  map (field_map_inv_get (FIELD_MAP V t))
      (filter (fun k => negb (String.prefix "_" k)
                        && negb (String.eqb k "FIELD_MAP"))
              (map fst (entries V t))).

(** The field map that [ID3v2Frames.load] installs for a version. *)
Definition field_map_of (id3_version : ID3Version) : dict string :=
  match id3_version with
  | v22 => _v22_FIELD_MAP
  | v23 => _v23_FIELD_MAP
  | v24 => _v24_FIELD_MAP
  end.

(** A dictionary holds each key once. *)
Definition dict_wf {A} (d : dict A) : Prop := NoDup (map fst d).

(** No raw id of the field map is one of its canonical names. *)
Definition ids_apart (fm : dict string) : bool :=
  forallb (fun kv => match dict_get fm (snd kv) with
                     | None => true
                     | Some _ => false
                     end) fm.

(** Every raw id of the field map leads back to its canonical name. *)
Definition inv_round_trip (fm : dict string) : bool :=
  forallb (fun kv => String.eqb (field_map_inv_get fm (snd kv)) (fst kv)
                     && negb (String.prefix "_" (snd kv))
                     && negb (String.eqb (snd kv) "FIELD_MAP")) fm.

(** [isinstance(frame, ID3v2BaseFrame)] *)
Definition is_base_frame {V : Type} (frame : frame_obj V) : bool :=
  match frame with
  | NotABaseFrame _ => false
  | _ => true
  end.

(** The raw id of the picture frames of a version. *)
Definition picture_id (id3_version : ID3Version) : string :=
  field_map_get (field_map_of id3_version) "pictures".

(** A v2.3 tag whose body is sixteen bytes, and a decoder that finds two
    picture frames in such a body. *)
Definition picture_tag : reader :=
  mkReader (header_bytes 3 0 0 0 0 0 16 ++ repeat 0 16%nat) 0.

Definition two_pictures
  : string -> Z -> Z -> bytes -> result (list (frame_obj string)) :=
  fun _ _ _ _ => Ok [OtherFrame string "APIC" "front";
                     OtherFrame string "APIC" "back"]%string.

(** A LAME header: encoder [LAME3.99r], VBR method 4, lowpass 19 kHz, no
    replay gain, bitrate 32, delay 576 and padding 1404, joint stereo. *)
Definition lame_tag : bytes :=
  bytes_of_string "LAME3.99r"
  ++ [4; 190] ++ [0; 0; 0; 0; 0; 0; 0; 0] ++ [0; 32]
  ++ [36; 5; 124] ++ [13; 0] ++ [0; 0] ++ [0; 1; 0; 0; 171; 205; 18; 52].

(** A Xing header ([Info]) with a frame count of 100, a byte count and a
    quality, no table of contents, followed by the LAME header. *)
Definition xing_lame : bytes :=
  bytes_of_string "Info" ++ [0; 0; 0; 11]
  ++ [0; 0; 0; 100] ++ [0; 0; 64; 0] ++ [0; 0; 0; 80] ++ lame_tag.

(** A VBRI header announcing 100 frames and a table of two entries of
    [entry_size] bytes, followed by four bytes. *)
Definition vbri_tag (entry_size : Z) : bytes :=
  bytes_of_string "VBRI" ++ [0; 1] ++ [0; 0] ++ [0; 75]
  ++ [0; 0; 64; 0] ++ [0; 0; 0; 100]
  ++ [0; 2] ++ [0; 1] ++ [0; entry_size] ++ [0; 1] ++ [1; 0; 2; 0].

(** [frames] are what [MPEGFrameHeader.load] returns in [data], one after
    the other from [start] on: each frame is decoded where the one before
    it ends, and only the last one may carry a Xing header. *)
Fixpoint decoded_run (T : Tables) (data : bytes) (start : Z)
    (frames : list MPEGFrameHeader) : Prop :=
  match frames with
  | [] => True
  | frame :: rest =>
      fst (MPEGFrameHeader_load T (mkReader data start)) = Ok frame
      /\ _start frame = start
      /\ 0 <= _size frame
      /\ (rest <> [] -> _xing frame = None)
      /\ decoded_run T data (start + _size frame) rest
  end.

(** A run of at most four frames decoded at or after [lo]. *)
Definition run_at (T : Tables) (data : bytes) (lo : Z)
    (frames : list MPEGFrameHeader) : Prop :=
  (List.length frames <= 4)%nat
  /\ exists start, lo <= start /\ decoded_run T data start frames.

Definition cached_at (T : Tables) (data : bytes) (lo : Z)
    (cached_frames : option (list MPEGFrameHeader)) : Prop :=
  match cached_frames with
  | None => True
  | Some run => (2 <= List.length run)%nat /\ run_at T data lo run
  end.

(** The size of the audio region when the first frame starts at [start]. *)
Definition audio_size_of (s : reader) (start : Z) : Z :=
  Z.of_nat (List.length (raw s)) - end_tag_offset_of (end_window (raw s))
  - start.

(** An MPEG-1 layer-3 frame header of 128 kbit/s at 44.1 kHz at the start
    of the file, with the given Xing and VBRI headers. *)
Definition sample_frame (vbri_header : option VBRIHeader)
    (xing_header : option XingHeader) : MPEGFrameHeader :=
  mkFrame 0 417 vbri_header xing_header V1 3 true 0 128000 0 2 44100.

(* ================================================================== *)
(** * The container  (mp3.py, [MP3.load]) *)

(** [bytes.find], from index [i]: the lowest index, or -1. *)
Fixpoint find_from (sub l : bytes) (i : Z) : Z :=
  match l with
  | [] => if startswith [] sub then i else -1
  | _ :: l' => if startswith l sub then i else find_from sub l' (i + 1)
  end.

Definition find (l sub : bytes) : Z := find_from sub l 0.

Section Container.

Variable V : Type.
Variable value_append : V -> item V -> result V.
Variable frame_trace : string -> Z -> Z -> bytes -> result (list (frame_obj V)).
Variable T : Tables.

(** Modelled from the spec: [id3v1.py] is not among the sources;
    [ID3v1.load] decodes the legacy tag from the at most 128 bytes it is
    given. *)
Variable ID3v1 : Type.
Variable ID3v1_load : bytes -> result ID3v1.

(** What [self._id3] holds. *)
Inductive id3_tag : Type :=
| Id3v2 (id3 : ID3v2 V)
| Id3v1 (id3 : ID3v1).

(** The attributes of an [MP3] object that [load] sets; [pictures] and
    [tags] are those of [_id3], and [filepath] is left out. *)
Record MP3File : Type := mkMP3 {
  filesize : Z;
  _id3 : option id3_tag;
  streaminfo : MP3StreamInfo
}.

(** The [try] block of [MP3.load] with its [except]. *)
Definition try_id3v2 : M (option (ID3v2 V)) :=
  fun s =>
    match ID3v2_load V value_append frame_trace s with
    | (Ok id3, s') => (Ok (Some id3), s')
    | (Raise InvalidFrame, s') | (Raise InvalidHeader, s') =>
        (seek_set 0 ;;; ret None) s'
    | (Raise e, s') => (Raise e, s')
    end.

(** The block under [if '_id3' not in self]. *)
Definition find_id3v1 (info : MP3StreamInfo) : M (option ID3v1) :=
  seek_set (si_start info + si_size info) ;;;
  end_buffer <- read_all ;;
  let apev2_index := find end_buffer (bytes_of_string "APETAGEX") in
  let end_buffer :=
    if negb (apev2_index =? -1)
    then skipn (Z.to_nat (apev2_index + 8)) end_buffer
    else end_buffer in
  let id3v1_index := find end_buffer (bytes_of_string "TAG") in
  if negb (id3v1_index =? -1) then
    id3v1 <- lift (ID3v1_load
                     (firstn 128 (skipn (Z.to_nat id3v1_index) end_buffer))) ;;
    ret (Some id3v1)
  else ret None.

(** [MP3.load], on the reader that [Format._load] made of its argument;
    [fuel] bounds the rounds of the frame scan. *)
Definition MP3_load (fuel : nat) (s : reader)
  : option (result MP3File * reader) :=
  let size := Z.of_nat (List.length (raw s)) in
  match try_id3v2 s with
  | (Raise e, s1) => Some (Raise e, s1)
  | (Ok id3v2, s1) =>
      match MP3StreamInfo_load T fuel s1 with
      | None => None
      | Some (Raise e, s2) => Some (Raise e, s2)
      | Some (Ok info, s2) =>
          match id3v2 with
          | Some id3 => Some (Ok (mkMP3 size (Some (Id3v2 id3)) info), s2)
          | None =>
              match find_id3v1 info s2 with
              | (Ok id3v1, s3) =>
                  Some (Ok (mkMP3 size (option_map Id3v1 id3v1) info), s3)
              | (Raise e, s3) => Some (Raise e, s3)
              end
          end
      end
  end.

End Container.

(** An ID3v1 decoder that keeps the bytes it is given. *)
Definition raw_id3v1 : bytes -> result bytes := fun b => Ok b.

(** The stream [four_frames] after an empty ID3v2 tag of the given major
    version. *)
Definition after_tag (major : Z) : reader :=
  mkReader (header_bytes major 0 0 0 0 0 0 ++ raw four_frames) 0.

(** A cached run was not accepted and has at least two frames. *)
Definition unaccepted (cached_frames : option (list MPEGFrameHeader)) : Prop :=
  match cached_frames with
  | None => True
  | Some run => accepted run = false /\ (2 <= List.length run)%nat
  end.

(** The key of [frames] that the aggregator writes for a frame. *)
Definition frame_key {V : Type} (frame : frame_obj V) : option string :=
  match frame with
  | NotABaseFrame _ => None
  | CommentLike _ id description language _ =>
      Some (id ++ ":" ++ description ++ ":" ++ language)%string
  | GenreFrame _ _ _ => Some "TCON"%string
  | GEOBFrame _ _ description _ _ _ => Some ("GEOB:" ++ description)%string
  | PrivateFrame _ _ owner _ => Some ("PRIV:" ++ owner)%string
  | UserDefined _ id description _ => Some (id ++ ":" ++ description)%string
  | TextLike _ id _ => Some id
  | OtherFrame _ id _ => Some id
  end.

(** The value of a frame that the aggregator stores by assignment. *)
Definition assigned_value {V : Type} (frame : frame_obj V) : option V :=
  match frame with
  | GenreFrame _ _ value | TextLike _ _ value => Some value
  | _ => None
  end.

(** Where a layer-3 frame is probed for a Xing header, in bytes from the
    start of the frame. *)
Definition xing_header_start (version : mpeg_version) (channel_mode : Z) : Z :=
  if mpeg_version_eqb version V1 then
    if negb (channel_mode =? 3) then 36 else 21
  else if negb (channel_mode =? 3) then 21
  else 13.

(** The bytes of a source from an offset on. *)
Definition bytes_from (s : reader) (offset : Z) : bytes :=
  skipn (Z.to_nat offset) (raw s).

(** 127 zero bytes and a last byte 0xFF. *)
Definition trailing_sync : reader := mkReader (repeat 0 127%nat ++ [255]) 0.

(** Ten zero bytes, 0xFF 0x00, and 188 zero bytes. *)
Definition false_sync : reader :=
  mkReader (repeat 0 10%nat ++ [255; 0] ++ repeat 0 188%nat) 0.

(* ================================================================== *)
(** * Properties *)

(** ** Byte strings and bit fields *)

Lemma bytes_eqb_eq (a b : bytes) : bytes_eqb a b = true <-> a = b.
Proof.
  revert b; induction a as [|x a IH]; intros [|y b]; simpl; split;
    intros H; try congruence.
  - apply andb_true_iff in H as [Hx Hab]. apply Z.eqb_eq in Hx.
    apply IH in Hab. congruence.
  - inversion H; subst. rewrite Z.eqb_refl. simpl. now apply IH.
Qed.

Lemma bytes_eqb_refl (a : bytes) : bytes_eqb a a = true.
Proof. now apply bytes_eqb_eq. Qed.

Lemma bits_at_div_mod (w below width : Z) :
  0 <= below -> 0 <= width ->
  bits_at w below width = (w / 2 ^ below) mod 2 ^ width.
Proof.
  intros Hb Hw. unfold bits_at.
  rewrite Z.land_ones by assumption.
  now rewrite Z.shiftr_div_pow2 by assumption.
Qed.

Lemma bits_at_1_testbit (w below : Z) :
  0 <= below -> bits_at w below 1 = Z.b2z (Z.testbit w below).
Proof.
  intros Hb. unfold bits_at. change (Z.ones 1) with 1.
  rewrite Z.land_ones with (n := 1) by lia.
  change (2 ^ 1) with 2. rewrite <- Z.bit0_mod.
  now rewrite Z.shiftr_spec, Z.add_0_l by lia.
Qed.

Lemma Zbool_flag (w below : Z) :
  0 <= below ->
  Zbool (if bits_at w below 1 =? 0 then 0 else 1) = Z.testbit w below.
Proof.
  intros Hb. rewrite bits_at_1_testbit by assumption.
  now destruct (Z.testbit w below).
Qed.

(** ** The ID3v2 header *)

Import ID3.

Lemma unpack_flags_bits (b : Z) :
  unpack_flags [b]
  = Ok (mkFlags (Z.testbit b 7) (Z.testbit b 6) (Z.testbit b 5) (Z.testbit b 4)).
Proof.
  unfold unpack_flags, bitstruct_unpack.
  change (8 * Z.of_nat (List.length [b]) <? _) with false.
  cbv [rbind unpack_fields]. change (be_uint [b]) with (0 * 256 + b).
  rewrite Z.mul_0_l, Z.add_0_l.
  change (8 * Z.of_nat (List.length [b]) - 1) with 7.
  change (7 - 1) with 6. change (6 - 1) with 5. change (5 - 1) with 4.
  now rewrite !Zbool_flag by lia.
Qed.

Lemma testbit_high_nibble (b b' i : Z) :
  Z.shiftr b 4 = Z.shiftr b' 4 -> 4 <= i -> Z.testbit b i = Z.testbit b' i.
Proof.
  intros H Hi. replace i with ((i - 4) + 4) by lia.
  rewrite <- !Z.shiftr_spec by lia. now rewrite H.
Qed.

Lemma ID3v2Header_load_bytes (major revision flags_ s0 s1 s2 s3 : Z) :
  on_bytes ID3v2Header_load (header_bytes major revision flags_ s0 s1 s2 s3)
  = rbind (ID3Version_of major) (fun version =>
    rbind (unpack_flags [flags_]) (fun flags =>
    rbind (decode_synchsafe_int [s0; s1; s2; s3] 7) (fun size =>
    Ok (mkHeader size version flags)))).
Proof.
  cbv -[ID3Version_of unpack_flags decode_synchsafe_int].
  destruct (ID3Version_of major); [|reflexivity].
  destruct (unpack_flags [flags_]); [|reflexivity].
  destruct (decode_synchsafe_int [s0; s1; s2; s3] 7); reflexivity.
Qed.

(** C9: the ten bytes "ID3" 03 00 00 00 00 00 00 decode to version (2,3),
    no flag set and declared size 0.  Every header with a supported major
    version and a well-formed size decodes, whatever its flags byte, to
    that version, that size and the flags unsync, extended, experimental
    and footer equal to bits 7, 6, 5 and 4 of the flags byte; so the four
    flags of any decoded header are those bits, and two flags bytes that
    agree above their low four bits decode alike. *)
Theorem C9_header_scenario_and_flags :
  (exists h,
     on_bytes ID3v2Header_load (header_bytes 3 0 0 0 0 0 0) = Ok h
     /\ version_pair (hdr_version h) = (2, 3)
     /\ hdr_flags h = mkFlags false false false false
     /\ hdr_size h = 0)
  /\ (forall major revision b s0 s1 s2 s3 version size,
        ID3Version_of major = Ok version ->
        decode_synchsafe_int [s0; s1; s2; s3] 7 = Ok size ->
        on_bytes ID3v2Header_load (header_bytes major revision b s0 s1 s2 s3)
        = Ok (mkHeader size version
                (mkFlags (Z.testbit b 7) (Z.testbit b 6) (Z.testbit b 5)
                   (Z.testbit b 4))))
  /\ (forall major revision b s0 s1 s2 s3 h,
        on_bytes ID3v2Header_load (header_bytes major revision b s0 s1 s2 s3)
        = Ok h ->
        unsync (hdr_flags h) = Z.testbit b 7
        /\ extended (hdr_flags h) = Z.testbit b 6
        /\ experimental (hdr_flags h) = Z.testbit b 5
        /\ footer (hdr_flags h) = Z.testbit b 4)
  /\ (forall major revision b b' s0 s1 s2 s3,
        Z.shiftr b 4 = Z.shiftr b' 4 ->
        on_bytes ID3v2Header_load (header_bytes major revision b s0 s1 s2 s3)
        = on_bytes ID3v2Header_load (header_bytes major revision b' s0 s1 s2 s3)).
Proof.
  split; [|split; [|split]].
  - eexists. split; [reflexivity|]. now cbn.
  - intros major revision b s0 s1 s2 s3 version size Hversion Hsize.
    rewrite ID3v2Header_load_bytes, unpack_flags_bits, Hversion, Hsize.
    reflexivity.
  - intros major revision b s0 s1 s2 s3 h.
    rewrite ID3v2Header_load_bytes, unpack_flags_bits.
    destruct (ID3Version_of major); cbn; [|discriminate].
    destruct (decode_synchsafe_int [s0; s1; s2; s3] 7); cbn; [|discriminate].
    intros [= <-]. now cbn.
  - intros major revision b b' s0 s1 s2 s3 Hhigh.
    rewrite !ID3v2Header_load_bytes, !unpack_flags_bits.
    now rewrite !(testbit_high_nibble b b') by (assumption || lia).
Qed.

Lemma C9_witness :
  on_bytes ID3v2Header_load (header_bytes 4 0 0xBF 0 0 0 0x11)
  = Ok (mkHeader 17 v24 (mkFlags true false true true))
  /\ (unsync (hdr_flags (mkHeader 17 v24 (mkFlags true false true true)))
      = Z.testbit 0xBF 7
      /\ extended (hdr_flags (mkHeader 17 v24 (mkFlags true false true true)))
         = Z.testbit 0xBF 6
      /\ experimental
           (hdr_flags (mkHeader 17 v24 (mkFlags true false true true)))
         = Z.testbit 0xBF 5
      /\ footer (hdr_flags (mkHeader 17 v24 (mkFlags true false true true)))
         = Z.testbit 0xBF 4)
  /\ on_bytes ID3v2Header_load (header_bytes 4 0 0xBF 0 0 0 0x11)
     = on_bytes ID3v2Header_load (header_bytes 4 0 0xB0 0 0 0 0x11).
Proof.
  destruct C9_header_scenario_and_flags as (_ & Hdecode & Hflags & Hlow).
  assert (E : on_bytes ID3v2Header_load (header_bytes 4 0 0xBF 0 0 0 0x11)
              = Ok (mkHeader 17 v24 (mkFlags true false true true)))
    by exact (Hdecode 4 0 0xBF 0 0 0 0x11 v24 17 eq_refl eq_refl).
  split; [exact E|]. split.
  - exact (Hflags 4 0 0xBF 0 0 0 0x11 _ E).
  - apply (Hlow 4 0 0xBF 0xB0 0 0 0 0x11). reflexivity.
Defined.

(** ** Inversion of monadic code *)

Lemma bind_Ok_inv {A B} (c : M A) (k : A -> M B) (s s' : reader) (b : B) :
  bind c k s = (Ok b, s') ->
  exists a s1, c s = (Ok a, s1) /\ k a s1 = (Ok b, s').
Proof.
  unfold bind. destruct (c s) as [[a|e] s1]; [eauto|discriminate].
Qed.

Lemma lift_Ok_inv {A} (r : result A) (s s' : reader) (a : A) :
  lift r s = (Ok a, s') -> r = Ok a /\ s' = s.
Proof. unfold lift. now intros [= -> ->]. Qed.

Lemma ret_Ok_inv {A} (x a : A) (s s' : reader) :
  ret x s = (Ok a, s') -> a = x /\ s' = s.
Proof. unfold ret. now intros [= -> ->]. Qed.

Lemma rbind_Ok_inv {A B} (r : result A) (k : A -> result B) (b : B) :
  rbind r k = Ok b -> exists a, r = Ok a /\ k a = Ok b.
Proof. destruct r as [a|e]; [eauto|discriminate]. Qed.

Lemma read_eq (n : Z) (s : reader) :
  read n s = (Ok (take_bytes n (remaining s)), snd (read n s)).
Proof. reflexivity. Qed.

Lemma read_Ok_inv (n : Z) (s s' : reader) (b : bytes) :
  read n s = (Ok b, s') -> b = take_bytes n (remaining s) /\ s' = snd (read n s).
Proof. unfold read. cbn. now intros [= <- <-]. Qed.

Lemma peek_Ok_inv (n : Z) (s s' : reader) (b : bytes) :
  peek n s = (Ok b, s') -> b = take_bytes n (remaining s) /\ s' = s.
Proof. unfold peek. now intros [= <- <-]. Qed.

Lemma tell_Ok_inv (s s' : reader) (p : Z) :
  tell s = (Ok p, s') -> p = pos s /\ s' = s.
Proof. unfold tell. now intros [= <- <-]. Qed.

(** Decompose a successful run of monadic code, one step at a time. *)
Ltac inv_step H :=
  lazymatch type of H with
  | bind _ _ _ = (Ok _, _) =>
      let a := fresh "a" in
      let s1 := fresh "s" in
      let H1 := fresh "Hrun" in
      apply bind_Ok_inv in H as (a & s1 & H1 & H);
      try inv_step H1
  | lift _ _ = (Ok _, _) => apply lift_Ok_inv in H as [H ->]
  | ret _ _ = (Ok _, _) => apply ret_Ok_inv in H as [-> ->]
  | read _ _ = (Ok _, _) => apply read_Ok_inv in H as [-> ->]
  | peek _ _ = (Ok _, _) => apply peek_Ok_inv in H as [-> ->]
  | tell _ = (Ok _, _) => apply tell_Ok_inv in H as [-> ->]
  | raise _ _ = (Ok _, _) => discriminate H
  end.

(** ** The size of an ID3v2 tag *)

Section TagSize.

Variable V : Type.
Variable value_append : V -> item V -> result V.
Variable frame_trace : string -> Z -> Z -> bytes -> result (list (frame_obj V)).

(** C3 (amended): a successfully parsed tag whose header declares size S
    records the size 10 + S, plus the declared size of the extended header
    when the extended flag is set, plus 10 exactly when the footer flag is
    set. *)
Theorem C3_tag_size (s s' : reader) (t : ID3v2 V) :
  ID3v2_load V value_append frame_trace s = (Ok t, s') ->
  on_bytes ID3v2Header_load (take_bytes 10 (remaining s)) = Ok (_header V t)
  /\ exists ext_size,
      (if extended (hdr_flags (_header V t))
       then decode_synchsafe_int
              (take_bytes 4 (remaining (snd (read 10 s)))) 7 = Ok ext_size
       else ext_size = 0)
      /\ _size V t = 10 + hdr_size (_header V t) + ext_size
                     + (if footer (hdr_flags (_header V t)) then 10 else 0).
Proof.
  unfold ID3v2_load. intros H.
  inv_step H.
  destruct (negb _); [discriminate H|].
  inv_step H. inv_step H. rename a into header, Hrun into Hheader.
  inv_step H. rename a into size1, Hrun into Hext.
  inv_step H. rename a into size2, Hrun into Hfoot.
  inv_step H. inv_step H. inv_step H. inv_step H.
  cbn [_header _size]. split; [assumption|].
  assert (Hsize2 : size2 = size1 + (if footer (hdr_flags header) then 10 else 0)).
  { destruct (footer (hdr_flags header)).
    - inv_step Hfoot. now inv_step Hfoot.
    - inv_step Hfoot. lia. }
  destruct (extended (hdr_flags header)).
  - do 5 inv_step Hext.
    eexists. split; [eassumption|lia].
  - inv_step Hext. exists 0. split; [reflexivity|lia].
Qed.

End TagSize.

Lemma C3_witness :
  match ID3v2_load unit (no_append unit) (no_frames unit) extended_tag with
  | (Ok t, _) =>
      on_bytes ID3v2Header_load (take_bytes 10 (remaining extended_tag))
      = Ok (_header unit t)
      /\ exists ext_size,
          (if extended (hdr_flags (_header unit t))
           then decode_synchsafe_int
                  (take_bytes 4 (remaining (snd (read 10 extended_tag)))) 7
                = Ok ext_size
           else ext_size = 0)
          /\ _size unit t = 10 + hdr_size (_header unit t) + ext_size
                            + (if footer (hdr_flags (_header unit t))
                               then 10 else 0)
  | (Raise _, _) => False
  end.
Proof.
  destruct (ID3v2_load unit (no_append unit) (no_frames unit) extended_tag)
    as [[t|e] s'] eqn:H.
  - exact (C3_tag_size unit (no_append unit) (no_frames unit) _ _ _ H).
  - vm_compute in H. discriminate H.
Defined.

(** The tag [extended_tag] parses, its header declares size 10 and has no
    footer flag, and the recorded size is 26, not 20. *)
Lemma C3_counterexample :
  exists t s',
    ID3v2_load unit (no_append unit) (no_frames unit) extended_tag = (Ok t, s')
    /\ hdr_size (_header unit t) = 10
    /\ footer (hdr_flags (_header unit t)) = false
    /\ _size unit t = 26
    /\ _size unit t
       <> 10 + hdr_size (_header unit t)
          + (if footer (hdr_flags (_header unit t)) then 10 else 0).
Proof.
  eexists. eexists. split; [vm_compute; reflexivity|].
  cbn. repeat split; discriminate.
Qed.

(** ** The genre frame *)

Lemma dict_get_set_same {A} (d : dict A) (k : string) (v : A) :
  dict_get (dict_set d k v) k = Some v.
Proof.
  induction d as [|[k' v'] d IH]; cbn.
  - now rewrite String.eqb_refl.
  - destruct (String.eqb k' k) eqn:E; cbn; now rewrite E.
Qed.

(** C8: a genre frame is stored by assignment under the key "TCON",
    whatever was there before and whatever the tag version; looking up
    "genre" then finds its value in a v2.3 and in a v2.4 tag, and raises
    [KeyError] in a v2.2 tag, whose field map names the genre "TCO". *)
Theorem C8_genre_key (V : Type) (value_append : V -> item V -> result V)
    (id : string) (value : V) :
  (forall frames,
     exists frames',
       fold_frame V value_append frames (GenreFrame V id value) = Ok frames'
       /\ dict_get frames' "TCON" = Some (Assigned V value))
  /\ rbind (tags_of_trace V value_append v23 [GenreFrame V id value])
           (fun t => Tags_getitem V t "genre") = Ok (Assigned V value)
  /\ rbind (tags_of_trace V value_append v24 [GenreFrame V id value])
           (fun t => Tags_getitem V t "genre") = Ok (Assigned V value)
  /\ rbind (tags_of_trace V value_append v22 [GenreFrame V id value])
           (fun t => Tags_getitem V t "genre") = Raise KeyError
  /\ rbind (tags_of_trace V value_append v22 [GenreFrame V id value])
           (fun t => Tags_getitem V t "TCON") = Ok (Assigned V value).
Proof.
  split; [|repeat split; reflexivity].
  intros frames. eexists. split; [reflexivity|]. apply dict_get_set_same.
Qed.

(** ** Reading from a known position *)

Lemma pos_read_nonneg (n : Z) (s : reader) :
  0 <= pos s -> 0 <= pos (snd (read n s)).
Proof. cbn. lia. Qed.

Lemma remaining_read (n : Z) (s : reader) :
  0 <= pos s -> 0 <= n ->
  remaining (snd (read n s)) = skipn (Z.to_nat n) (remaining s).
Proof.
  intros Hpos Hn. unfold read, remaining, take_bytes. cbn [snd raw pos].
  destruct (Z.ltb_spec n 0) as [|_]; [lia|].
  rewrite length_firstn, skipn_skipn, Z2Nat.inj_add, Nat2Z.id by lia.
  destruct (Nat.le_gt_cases (Z.to_nat n)
              (List.length (skipn (Z.to_nat (pos s)) (raw s)))) as [Hle|Hgt].
  - rewrite Nat.min_l by assumption. f_equal. lia.
  - rewrite Nat.min_r by lia. rewrite length_skipn in *.
    rewrite skipn_all2 by lia. symmetry. apply skipn_all2. lia.
Qed.

Import MP3.

Section ReplayGain.

Variable T : Tables.

Lemma unpack_gain_word (b0 b1 : Z) :
  let w := be_uint [b0; b1] in
  bitstruct_unpack [FU 3; FU 3; FB 1; FU 9] [b0; b1]
  = Ok [bits_at w 13 3; bits_at w 10 3;
        (if bits_at w 9 1 =? 0 then 0 else 1); bits_at w 0 9].
Proof. reflexivity. Qed.

Lemma gain_load_spec (s s' : reader) (b0 b1 : Z) (rest : bytes)
    (g : Z * Z * Q) :
  0 <= pos s -> remaining s = b0 :: b1 :: rest ->
  gain_load T s = (Ok g, s') ->
  (snd g == gain_of_word (be_uint [b0; b1]))%Q
  /\ 0 <= pos s' /\ remaining s' = rest.
Proof.
  intros Hpos Hrem H. unfold gain_load in H.
  inv_step H. inv_step H. rewrite Hrem in Hrun.
  change (take_bytes 2 (b0 :: b1 :: rest)) with [b0; b1] in Hrun.
  rewrite unpack_gain_word in Hrun. injection Hrun as <-.
  do 3 inv_step H. cbn [snd].
  split; [|split].
  - unfold gain_of_word. rewrite Zbool_flag by lia.
    rewrite bits_at_div_mod by lia. rewrite Z.pow_0_r, Z.div_1_r.
    destruct (Z.testbit _ 9); [|reflexivity]. ring.
  - now apply pos_read_nonneg.
  - rewrite remaining_read, Hrem by lia. reflexivity.
Qed.

(** C4 (amended): the decoded peak is absent when the raw 32-bit peak
    field is 0 and is the raw value divided by 2^23 otherwise; for each of
    track and album the adjustment is the 9-bit magnitude divided by 10,
    negated exactly when the sign bit (bit 9 of the field) is set. *)
Theorem C4_replay_gain (s s' : reader) (rg : LAMEReplayGain)
    (p0 p1 p2 p3 t0 t1 a0 a1 : Z) (rest : bytes) :
  0 <= pos s ->
  remaining s = p0 :: p1 :: p2 :: p3 :: t0 :: t1 :: a0 :: a1 :: rest ->
  LAMEReplayGain_load T s = (Ok rg, s') ->
  let peak_data := be_uint [p0; p1; p2; p3] in
  (peak_data = 0 -> peak rg = None)
  /\ (peak_data <> 0 ->
      peak rg = Some (inject_Z peak_data / inject_Z (2 ^ 23))%Q)
  /\ (track_adjustment rg == gain_of_word (be_uint [t0; t1]))%Q
  /\ (album_adjustment rg == gain_of_word (be_uint [a0; a1]))%Q.
Proof.
  intros Hpos Hrem H peak_data. unfold LAMEReplayGain_load in H.
  inv_step H. inv_step H. rewrite Hrem in Hrun.
  change (take_bytes 4 _) with [p0; p1; p2; p3] in Hrun.
  injection Hrun as <-. fold peak_data in H.
  inv_step H. rename a into track, Hrun into Htrack.
  inv_step H. rename a into album, Hrun into Halbum.
  apply gain_load_spec with (b0 := t0) (b1 := t1) (rest := a0 :: a1 :: rest)
    in Htrack as (Htrack & Hpos1 & Hrem1);
    [|now apply pos_read_nonneg|now rewrite remaining_read, Hrem by lia].
  apply gain_load_spec with (b0 := a0) (b1 := a1) (rest := rest)
    in Halbum as (Halbum & _ & _); [|assumption..].
  destruct track as [[? ?] ?], album as [[? ?] ?]. inv_step H.
  cbn [peak track_adjustment album_adjustment snd] in *.
  repeat split; try assumption.
  - intros ->. reflexivity.
  - intros Hne. apply Z.eqb_neq in Hne. now rewrite Hne.
Qed.

End ReplayGain.

(** ** Rejected frame headers *)

Lemma bind_read {B} (n : Z) (k : bytes -> M B) (s : reader) :
  bind (read n) k s = k (take_bytes n (remaining s)) (snd (read n s)).
Proof. reflexivity. Qed.

Lemma bind_tell {B} (k : Z -> M B) (s : reader) :
  bind tell k s = k (pos s) s.
Proof. reflexivity. Qed.

Lemma bind_lift_Ok {A B} (a : A) (k : A -> M B) (s : reader) :
  bind (lift (Ok a)) k s = k a s.
Proof. reflexivity. Qed.

Lemma unpack_frame_head (b0 b1 : Z) :
  let h := be_uint [b0; b1] in
  bitstruct_unpack [FU 11; FU 2; FU 2; FB 1] [b0; b1]
  = Ok [bits_at h 5 11; bits_at h 3 2; bits_at h 1 2;
        (if bits_at h 0 1 =? 0 then 0 else 1)].
Proof. reflexivity. Qed.

Lemma unpack_frame_rates (b2 : Z) :
  let r := be_uint [b2] in
  bitstruct_unpack [FU 4; FU 2; FU 1] [b2]
  = Ok [bits_at r 4 4; bits_at r 2 2; bits_at r 1 1].
Proof. reflexivity. Qed.

Lemma land_3 (x : Z) : Z.land x 3 = x mod 4.
Proof. exact (Z.land_ones x 2 ltac:(lia)). Qed.

Lemma land_15 (x : Z) : Z.land x 15 = x mod 16.
Proof. exact (Z.land_ones x 4 ltac:(lia)). Qed.

(** The fields of the 32-bit header word, as the decoder reads them from
    its first two bytes and from its third byte. *)
Lemma header_word_fields (b0 b1 b2 b3 : Z) :
  is_byte b0 -> is_byte b1 -> is_byte b2 -> is_byte b3 ->
  let w := be_uint [b0; b1; b2; b3] in
  bits_at (be_uint [b0; b1]) 5 11 = Z.shiftr w 21
  /\ bits_at (be_uint [b0; b1]) 3 2 = Z.land (Z.shiftr w 19) 3
  /\ bits_at (be_uint [b0; b1]) 1 2 = Z.land (Z.shiftr w 17) 3
  /\ bits_at (be_uint [b2]) 4 4 = Z.land (Z.shiftr w 12) 15
  /\ bits_at (be_uint [b2]) 2 2 = Z.land (Z.shiftr w 10) 3.
Proof.
  unfold is_byte. intros H0 H1 H2 H3. cbv zeta.
  rewrite !bits_at_div_mod by lia.
  rewrite !land_3, land_15.
  rewrite !Z.shiftr_div_pow2 by lia.
  cbv [be_uint fold_left].
  change (2 ^ 21) with 2097152. change (2 ^ 19) with 524288.
  change (2 ^ 17) with 131072. change (2 ^ 12) with 4096.
  change (2 ^ 11) with 2048. change (2 ^ 10) with 1024.
  change (2 ^ 5) with 32. change (2 ^ 4) with 16. change (2 ^ 3) with 8.
  change (2 ^ 2) with 4. change (2 ^ 1) with 2.
  repeat split; Z.div_mod_to_equations; lia.
Qed.

(** C5: a four-byte header whose top 11 bits are not all ones, or whose
    version id is 1 (reserved), whose layer id is 0, whose bitrate index
    is 0 or 15, or whose sample-rate index is 3, is refused with
    [InvalidFrame], an exception that the frame scan catches; no frame
    header is returned. *)
Theorem C5_frame_header_rejection (T : Tables) (s : reader)
    (b0 b1 b2 b3 : Z) (rest : bytes) :
  0 <= pos s ->
  remaining s = b0 :: b1 :: b2 :: b3 :: rest ->
  is_byte b0 -> is_byte b1 -> is_byte b2 -> is_byte b3 ->
  let w := be_uint [b0; b1; b2; b3] in
  Z.shiftr w 21 <> 2047
  \/ Z.land (Z.shiftr w 19) 3 = 1
  \/ Z.land (Z.shiftr w 17) 3 = 0
  \/ Z.land (Z.shiftr w 12) 15 = 0
  \/ Z.land (Z.shiftr w 12) 15 = 15
  \/ Z.land (Z.shiftr w 10) 3 = 3 ->
  fst (MPEGFrameHeader_load T s) = Raise InvalidFrame
  /\ caught InvalidFrame = true.
Proof.
  intros Hpos Hrem H0 H1 H2 H3 w Hbad. split; [|reflexivity].
  destruct (header_word_fields b0 b1 b2 b3 H0 H1 H2 H3)
    as (Esync & Eversion & Elayer & Ebitrate & Erate).
  fold w in Esync, Eversion, Elayer, Ebitrate, Erate.
  unfold MPEGFrameHeader_load.
  rewrite bind_tell, bind_read, Hrem.
  change (take_bytes 2 _) with [b0; b1].
  rewrite unpack_frame_head. cbv zeta. rewrite bind_lift_Ok. cbv iota beta.
  rewrite Esync, Eversion, Elayer.
  destruct (Z.eqb_spec (Z.shiftr w 21) 2047) as [Hsync|Hsync];
    [|reflexivity].
  cbn [negb]. rewrite bind_read, remaining_read, Hrem by lia.
  change (take_bytes 1 _) with [b2].
  rewrite unpack_frame_rates. cbv zeta. rewrite bind_lift_Ok. cbv iota beta.
  rewrite Ebitrate, Erate.
  destruct Hbad as [Hbad|[Hbad|[Hbad|[Hbad|[Hbad|Hbad]]]]];
    [contradiction|rewrite Hbad..];
    rewrite ?orb_true_r; reflexivity.
Qed.

(** ** The reader never moves back across the start of a frame *)

Lemma stays_bind (lo : Z) {A B} (c : M A) (k : A -> M B) :
  stays_above lo c -> (forall a, stays_above lo (k a)) ->
  stays_above lo (bind c k).
Proof.
  intros Hc Hk s r s' H Hlo. unfold bind in H.
  destruct (c s) as [[a|e] s1] eqn:E.
  - destruct (Hc _ _ _ E Hlo) as [Hraw Hpos].
    destruct (Hk a _ _ _ H Hpos) as [Hraw' Hpos']. split; congruence.
  - injection H as <- <-. exact (Hc _ _ _ E Hlo).
Qed.

Lemma stays_ret (lo : Z) {A} (a : A) : stays_above lo (ret a).
Proof. intros s r s' [= <- <-] Hlo. now split. Qed.

Lemma stays_raise (lo : Z) {A} (e : exn) : stays_above lo (@raise A e).
Proof. intros s r s' [= <- <-] Hlo. now split. Qed.

Lemma stays_lift (lo : Z) {A} (x : result A) : stays_above lo (lift x).
Proof. intros s r s' [= <- <-] Hlo. now split. Qed.

Lemma stays_peek (lo n : Z) : stays_above lo (peek n).
Proof. intros s r s' [= <- <-] Hlo. now split. Qed.

Lemma stays_tell (lo : Z) : stays_above lo tell.
Proof. intros s r s' [= <- <-] Hlo. now split. Qed.

Lemma stays_read (lo n : Z) : stays_above lo (read n).
Proof. intros s r s' [= <- <-] Hlo. cbn. split; [reflexivity|lia]. Qed.

Lemma stays_seek_set (lo q : Z) : lo <= q -> stays_above lo (seek_set q).
Proof.
  intros Hq s r s' H Hlo. unfold seek_set, seek_to in H.
  destruct (q <? 0); injection H as <- <-; cbn; split; (reflexivity || lia).
Qed.

Lemma stays_seek_cur (lo d : Z) : 0 <= d -> stays_above lo (seek_cur d).
Proof.
  intros Hd s r s' H Hlo. unfold seek_cur, seek_to in H.
  destruct (pos s + d <? 0); injection H as <- <-; cbn; split;
    (reflexivity || lia).
Qed.

Create HintDb stays.

#[local] Hint Resolve stays_ret stays_raise stays_lift stays_peek stays_tell
  stays_read : stays.

(** Walk through monadic code, one construct at a time. *)
Ltac stays_step :=
  lazymatch goal with
  | |- stays_above _ (bind _ _) => apply stays_bind; [|intros]
  | |- stays_above _ (if ?b then _ else _) => destruct b
  | |- stays_above _ (match ?x with _ => _ end) => destruct x
  | |- stays_above _ _ => solve [auto with stays]
  end.

Lemma stays_gated (lo flags mask : Z) {A} (c : M A) :
  stays_above lo c -> stays_above lo (gated flags mask c).
Proof. intros Hc. unfold gated. repeat stays_step. Qed.

Lemma stays_read_uint16 (lo : Z) : stays_above lo read_uint16.
Proof. unfold read_uint16. repeat stays_step. Qed.

Lemma stays_read_uint32 (lo : Z) : stays_above lo read_uint32.
Proof. unfold read_uint32. repeat stays_step. Qed.

#[local] Hint Resolve stays_read_uint16 stays_read_uint32 : stays.

Lemma stays_vbri_toc_load (lo : Z) (count : nat) (entry_size : Z) :
  stays_above lo (vbri_toc_load count entry_size).
Proof. induction count; cbn [vbri_toc_load]; repeat stays_step. Qed.

#[local] Hint Resolve stays_vbri_toc_load : stays.

Lemma stays_VBRIHeader_load (lo : Z) : stays_above lo VBRIHeader_load.
Proof. unfold VBRIHeader_load. repeat stays_step. Qed.

#[local] Hint Resolve stays_VBRIHeader_load : stays.

Lemma stays_vbr_headers_load (T : Tables) (lo frame_start frame_size : Z)
    (v : mpeg_version) (channel_mode : Z) :
  lo <= frame_start + 13 ->
  stays_above lo (vbr_headers_load T frame_start frame_size v channel_mode).
Proof.
  intros Hlo. unfold vbr_headers_load.
  destruct (mpeg_version_eqb v V1), (negb (channel_mode =? 3)); cbv zeta.
  all: assert (Hseek : forall d, 13 <= d -> stays_above lo (seek_set (frame_start + d)))
    by (intros d Hd; apply stays_seek_set; lia).
  all: repeat stays_step; apply Hseek; lia.
Qed.

Lemma stays_MPEGFrameHeader_load (T : Tables) (s s' : reader)
    (r : result MPEGFrameHeader) :
  MPEGFrameHeader_load T s = (r, s') ->
  raw s' = raw s /\ pos s <= pos s'.
Proof.
  unfold MPEGFrameHeader_load. rewrite bind_tell. intros H.
  eapply (_ : stays_above (pos s) _); [exact H|lia].
  Unshelve.
  repeat stays_step. apply stays_vbr_headers_load. lia.
Qed.

(** ** A decoded frame *)

Lemma bitstruct_unpack_Ok_inv (fmt : list bitfield) (b : bytes) (fs : list Z) :
  bitstruct_unpack fmt b = Ok fs ->
  format_width fmt <= 8 * Z.of_nat (List.length b)
  /\ fs = unpack_fields fmt (8 * Z.of_nat (List.length b)) (be_uint b).
Proof.
  unfold bitstruct_unpack.
  destruct (Z.ltb_spec (8 * Z.of_nat (List.length b)) (format_width fmt));
    [discriminate|].
  intros [= <-]. now split.
Qed.

Lemma index_Ok_In {A} (l : list A) (i : Z) (a : A) :
  index l i = Ok a -> In a l.
Proof.
  unfold index. destruct (nth_error l (Z.to_nat i)) eqn:E; [|discriminate].
  intros [= <-]. eapply nth_error_In, E.
Qed.

Lemma lookup_Ok_inv {A} (o : option A) (a : A) : lookup o = Ok a -> o = Some a.
Proof. destruct o; [now intros [= ->]|discriminate]. Qed.

Lemma floordiv_Ok_nonneg (a b q : Z) :
  floordiv a b = Ok q -> 0 <= a -> 0 <= b -> 0 <= q.
Proof.
  unfold floordiv. destruct (Z.eqb_spec b 0); [discriminate|].
  intros [= <-] Ha Hb. apply Z.div_pos; lia.
Qed.

Lemma bits_at_nonneg (w below width : Z) :
  0 <= width -> 0 <= bits_at w below width.
Proof.
  intros Hw. unfold bits_at. apply Z.land_nonneg. right.
  rewrite Z.ones_equiv. pose proof (Z.pow_pos_nonneg 2 width). lia.
Qed.

Lemma take_bytes_length (n : Z) (b : bytes) :
  0 <= n -> Z.of_nat (List.length (take_bytes n b)) <= n.
Proof.
  intros Hn. unfold take_bytes. destruct (Z.ltb_spec n 0); [lia|].
  rewrite length_firstn. lia.
Qed.

Lemma pos_read (n : Z) (s : reader) :
  pos (snd (read n s))
  = pos s + Z.of_nat (List.length (take_bytes n (remaining s))).
Proof. reflexivity. Qed.

Lemma MPEGFrameHeader_load_Ok (T : Tables) (s s' : reader)
    (frame : MPEGFrameHeader) :
  tables_ok T -> 0 <= pos s ->
  MPEGFrameHeader_load T s = (Ok frame, s') ->
  _start frame = pos s /\ 0 <= _size frame /\ pos s < pos s'.
Proof.
  intros (Hrates & Hsamples & Hspf) Hpos H. unfold MPEGFrameHeader_load in H.
  inv_step H. inv_step H. inv_step H.
  apply bitstruct_unpack_Ok_inv in Hrun as [Hlen ->].
  cbv [unpack_fields] in H. cbv iota beta in H.
  destruct (negb _); [discriminate H|].
  inv_step H. inv_step H.
  apply bitstruct_unpack_Ok_inv in Hrun as [_ ->].
  cbv [unpack_fields] in H. cbv iota beta in H.
  destruct (_ || _); [discriminate H|].
  inv_step H. inv_step H. inv_step H. inv_step H.
  inv_step H. rename a2 into v. clear Hrun2.
  inv_step H. rename a2 into rates, Hrun2 into Hlrates.
  inv_step H. rename a2 into rate, Hrun2 into Hrate.
  inv_step H. rename a2 into sample_rates, Hrun2 into Hlsamples.
  inv_step H. rename a2 into sample_rate, Hrun2 into Hsample_rate.
  inv_step H. rename Hrun2 into Hlspf.
  destruct a2 as [samples_per_frame slot_size].
  inv_step H. rename a2 into slots, Hrun2 into Hslots.
  inv_step H. rename a2 into headers, Hrun2 into Hheaders.
  inv_step H. cbn [_start _size].
  apply lookup_Ok_inv in Hlrates, Hlsamples, Hlspf.
  apply index_Ok_In in Hrate, Hsample_rate.
  apply Hrates in Hlrates. apply Hsamples in Hlsamples.
  apply Hspf in Hlspf as [Hspf0 Hslot0].
  rewrite Forall_forall in Hlrates, Hlsamples.
  apply Hlrates in Hrate. apply Hlsamples in Hsample_rate.
  apply floordiv_Ok_nonneg in Hslots;
    [|apply Z.mul_nonneg_nonneg; [apply Z.div_pos|]; lia|assumption].
  split; [reflexivity|]. split.
  - apply Z.mul_nonneg_nonneg; [|assumption].
    pose proof (bits_at_nonneg
      (be_uint (take_bytes 1 (remaining (snd (read 2 s)))))
      (8 * Z.of_nat (List.length (take_bytes 1 (remaining (snd (read 2 s)))))
       - 4 - 2 - 1) 1). lia.
  - change (format_width _) with 16 in Hlen.
    assert (Hafter : pos s + 1 <= pos (snd (read 1 (snd (read 1 (snd (read 2 s)))))))
      by (rewrite !pos_read; lia).
    destruct (_ =? 3).
    + apply (stays_vbr_headers_load T (pos s + 1)) in Hheaders; lia.
    + inv_step Hheaders. lia.
Qed.

(** ** Progress of the frame scan *)

Lemma seek_to_nonneg (p : Z) (s : reader) :
  0 <= p -> seek_to p s = (Ok tt, mkReader (raw s) p).
Proof. intros Hp. unfold seek_to. now destruct (Z.ltb_spec p 0); [lia|]. Qed.

Lemma find_byte_from_range (x : Z) (l : bytes) (i : Z) :
  find_byte_from x l i = -1 \/ i <= find_byte_from x l i.
Proof.
  revert i. induction l as [|y l IH]; intros i; cbn; [now left|].
  destruct (y =? x); [right; lia|].
  destruct (IH (i + 1)) as [E|E]; [now left|right; lia].
Qed.

Lemma load_run_progress (T : Tables) (n : nat) :
  tables_ok T ->
  forall (frames frames' : list MPEGFrameHeader) (s s' : reader),
    0 <= pos s ->
    load_run T n frames s = (Ok frames', s') ->
    raw s' = raw s /\ pos s <= pos s'
    /\ (pos s < pos s'
        \/ List.length frames' = (List.length frames + n)%nat).
Proof.
  intros HT. induction n as [|n IH]; intros frames frames' s s' Hpos H.
  - injection H as <- <-. repeat split; lia || reflexivity.
  - cbn [load_run] in H.
    destruct (MPEGFrameHeader_load T s) as [[frame|e] s1] eqn:E.
    + destruct (MPEGFrameHeader_load_Ok T _ _ _ HT Hpos E)
        as (Hstart & Hsize & Hlt).
      destruct (stays_MPEGFrameHeader_load T _ _ _ E) as [Hraw _].
      destruct (truthy (_xing frame)).
      * injection H as <- <-. repeat split; lia || assumption.
      * unfold seek_set in H. rewrite seek_to_nonneg in H by lia.
        apply IH in H as (Hraw' & Hle & Hstep); [|cbn; lia].
        cbn [raw pos] in *. rewrite length_app in Hstep. cbn in Hstep.
        repeat split; [congruence|lia|].
        destruct Hstep; [left|right]; lia.
    + destruct (stays_MPEGFrameHeader_load T _ _ _ E) as [Hraw Hle].
      destruct (caught e); [|discriminate H].
      unfold bind, seek_cur in H. rewrite seek_to_nonneg in H by lia.
      injection H as <- <-. cbn [raw pos]. repeat split; lia || assumption.
Qed.

Lemma decode_run_progress (T : Tables) (sync_start : Z)
    (frames : list MPEGFrameHeader) (s s' : reader) :
  tables_ok T -> 0 <= pos s -> 0 <= sync_start ->
  decode_run T sync_start s = (Ok frames, s') ->
  raw s' = raw s /\ pos s <= pos s'
  /\ (pos s < pos s' \/ List.length frames = 4%nat).
Proof.
  intros HT Hpos Hsync H. unfold decode_run in H.
  inv_step H. unfold seek_cur in Hrun. rewrite seek_to_nonneg in Hrun by lia.
  injection Hrun as _ <-.
  inv_step H. inv_step H. inv_step H.
  destruct (a1 =? 2047).
  - apply load_run_progress in H as (Hraw & Hle & Hstep);
      [|assumption|cbn; lia].
    cbn [raw pos] in *. repeat split; [assumption|lia|].
    destruct Hstep; [left; lia|now right].
  - inv_step H. unfold seek_cur in Hrun1.
    rewrite seek_to_nonneg in Hrun1 by (cbn; lia).
    injection Hrun1 as _ <-. inv_step H. cbn. repeat split; lia || reflexivity.
Qed.

Lemma accepted_four (frames : list MPEGFrameHeader) :
  List.length frames = 4%nat -> accepted frames = true.
Proof.
  destruct frames as [|frame0 frames]; [discriminate|].
  intros E. unfold accepted. rewrite E. reflexivity.
Qed.

Lemma take_bytes_short (n : Z) (b : bytes) :
  n <= Z.of_nat (List.length (take_bytes n b)) ->
  n <= Z.of_nat (List.length b).
Proof.
  unfold take_bytes. destruct (Z.ltb_spec n 0); [lia|].
  rewrite length_firstn. lia.
Qed.


(** What a round of the scan returns. *)
Lemma scan_round_inv (T : Tables)
    (cached_frames : option (list MPEGFrameHeader)) (s s' : reader)
    (out : round) :
  scan_round T cached_frames s = (Ok out, s') ->
  match out with
  | Exhausted => s' = s
  | Accepted frames => accepted frames = true
  | Again cached_frames' =>
      buffer_size <= Z.of_nat (List.length (remaining s))
      /\ (cached_frames' = cached_frames
          \/ exists frames,
               accepted frames = false
               /\ cached_frames' = cache cached_frames frames)
  end.
Proof.
  unfold scan_round. intros H. inv_step H.
  destruct (Z.ltb_spec
              (Z.of_nat (List.length (take_bytes buffer_size (remaining s))))
              buffer_size) as [|Hlen].
  { inv_step H. reflexivity. }
  apply take_bytes_short in Hlen.
  cbv zeta in H. destruct (_ =? -1).
  - inv_step H. inv_step H. split; [assumption|now left].
  - inv_step H. destruct (accepted a) eqn:Ea; inv_step H; [assumption|].
    split; [assumption|]. right. now exists a.
Qed.

Lemma scan_round_progress (T : Tables)
    (cached_frames cached_frames' : option (list MPEGFrameHeader))
    (s s' : reader) :
  tables_ok T -> 0 <= pos s ->
  scan_round T cached_frames s = (Ok (Again cached_frames'), s') ->
  raw s' = raw s /\ pos s < pos s'.
Proof.
  intros HT Hpos H. unfold scan_round in H. inv_step H.
  destruct (_ <? buffer_size); [discriminate H|]. cbv zeta in H.
  destruct (Z.eqb_spec (find_byte (take_bytes buffer_size (remaining s)) 255)
              (-1)) as [|Hfound].
  - inv_step H. unfold seek_cur in Hrun.
    rewrite seek_to_nonneg in Hrun by (unfold buffer_size; lia).
    injection Hrun as _ <-. injection H as _ <-.
    cbn. unfold buffer_size. split; [reflexivity|lia].
  - inv_step H. rename a into frames.
    apply decode_run_progress in Hrun as (Hraw & _ & Hstep);
      [|assumption..|].
    + destruct (accepted frames) eqn:Ea; [discriminate H|].
      injection H as _ <-. split; [assumption|].
      destruct Hstep as [|Hfour]; [assumption|].
      apply accepted_four in Hfour. congruence.
    + unfold find_byte in *.
      destruct (find_byte_from_range 255
                  (take_bytes buffer_size (remaining s)) 0); lia.
Qed.


(** ** The outcome of the frame scan *)








Lemma std_tables_ok : tables_ok std_tables.
Proof.
  unfold tables_ok, std_tables. cbn [MP3Bitrates MP3SampleRates MP3SamplesPerFrame].
  split; [|split].
  - intros v l rates H. rewrite Forall_forall. intros x Hx.
    destruct v; destruct l as [|p|p]; try discriminate H;
      repeat (destruct p as [p|p|]; try discriminate H);
      injection H as <-; cbn in Hx; intuition lia.
  - intros v rates H. rewrite Forall_forall. intros x Hx.
    destruct v; injection H as <-; cbn in Hx; intuition lia.
  - intros v l spf slot H.
    destruct v; destruct l as [|p|p]; try discriminate H;
      repeat (destruct p as [p|p|]; try discriminate H);
      injection H as <- <-; lia.
Qed.


(** The scan of [four_frames] accepts the four frames at offsets 0, 24, 48
    and 72. *)
Example four_frames_found :
  exists frames s',
    find_mp3_frames std_tables 200 four_frames = Some (Ok frames, s')
    /\ map _start frames = [0; 24; 48; 72]
    /\ map _size frames = [24; 24; 24; 24]
    /\ map bitrate frames = [8000; 8000; 8000; 8000].
Proof. eexists. eexists. split; [vm_compute; reflexivity|]. now cbn. Qed.

(** A run of two frames is cached and returned when the stream is
    exhausted; a stream without a frame is refused. *)
Example two_frames_cached :
  exists frames s',
    find_mp3_frames std_tables 300 two_frames = Some (Ok frames, s')
    /\ map _start frames = [0; 24]
    /\ exists s1,
         scan_loop std_tables 300 None two_frames
         = Some (Ok ([], Some frames), s1).
Proof.
  eexists. eexists. split; [vm_compute; reflexivity|].
  split; [reflexivity|]. eexists. vm_compute. reflexivity.
Qed.

Example silence_refused :
  exists s', find_mp3_frames std_tables 300 silence
             = Some (Raise InvalidFormat, s').
Proof. eexists. vm_compute. reflexivity. Qed.

Example lame_version_example :
  lame_version_of (bytes_of_string "LAME3.99r") = Some (3, 99).
Proof. reflexivity. Qed.

(** ** Sample count and bitrate mode *)

(** C7: with a Xing header that has a frame count and an embedded LAME
    header, delay plus padding is subtracted from samples-per-frame times
    frame count exactly when the difference is positive; otherwise the
    count is left as it is. *)
Theorem C7_lame_delay_padding (samples_per_frame n : Z)
    (xing_header : XingHeader) (lame : LAMEHeader) :
  num_frames xing_header = Some n ->
  _lame xing_header = Some lame ->
  let total := samples_per_frame * n in
  let lame_padding := delay lame + padding lame in
  xing_num_samples samples_per_frame xing_header
  = Ok (if 0 <? total - lame_padding then total - lame_padding else total)
  /\ forall frames frame0 audio_size,
       _xing frame0 = Some xing_header ->
       exists mode,
         samples_and_mode frames frame0 samples_per_frame audio_size
         = Ok (inject_Z (if 0 <? total - lame_padding
                         then total - lame_padding else total), mode).
Proof.
  intros Hn Hlame total lame_padding.
  assert (E : xing_num_samples samples_per_frame xing_header
              = Ok (if 0 <? total - lame_padding
                    then total - lame_padding else total)).
  { unfold xing_num_samples, lame_padding_of. rewrite Hn, Hlame.
    fold total lame_padding.
    destruct (Z.ltb_spec lame_padding total),
             (Z.ltb_spec 0 (total - lame_padding)); (reflexivity || lia). }
  split; [exact E|].
  intros frames frame0 audio_size Hx. unfold samples_and_mode.
  rewrite Hx, E. cbn [rbind]. eauto.
Qed.

Lemma C7_witness :
  xing_num_samples 1152
    (mkXing (Some (sample_lame 576 1000 3)) (Some 10) None [] None)
  = Ok (if 0 <? 1152 * 10 - (576 + 1000) then 1152 * 10 - (576 + 1000)
        else 1152 * 10)
  /\ forall frames frame0 audio_size,
       _xing frame0
       = Some (mkXing (Some (sample_lame 576 1000 3)) (Some 10) None [] None) ->
       exists mode,
         samples_and_mode frames frame0 1152 audio_size
         = Ok (inject_Z (if 0 <? 1152 * 10 - (576 + 1000)
                         then 1152 * 10 - (576 + 1000) else 1152 * 10), mode).
Proof.
  exact (C7_lame_delay_padding 1152 10
           (mkXing (Some (sample_lame 576 1000 3)) (Some 10) None [] None)
           (sample_lame 576 1000 3) eq_refl eq_refl).
Defined.

Lemma all_equal_spec (l : list Z) :
  all_equal l = true <-> forall x y, In x l -> In y l -> x = y.
Proof.
  destruct l as [|a l]; cbn [all_equal].
  - split; [intros _ x y []|reflexivity].
  - rewrite forallb_forall. split.
    + intros H x y Hx Hy.
      assert (Ha : forall z, In z (a :: l) -> a = z).
      { intros z [->|Hz]; [reflexivity|]. now apply Z.eqb_eq, H. }
      now rewrite <- (Ha x Hx), <- (Ha y Hy).
    + intros H x Hx. apply Z.eqb_eq. apply H; [now left|now right].
Qed.

(** A successful run of [stream_info_of]: the sample count and the mode
    come from [samples_and_mode], the bitrate from [bitrate_of], and the
    audio region ends at the end of the source less the end-tag offset. *)
Lemma stream_info_of_Ok (T : Tables) (frames : list MPEGFrameHeader)
    (s s' : reader) (info : MP3StreamInfo) :
  stream_info_of T frames s = (Ok info, s') ->
  exists frame0 rest spf end_pos end_buffer s1 num_samples,
    frames = frame0 :: rest
    /\ MP3SamplesPerFrame T (version frame0) (layer frame0) = Some spf
    /\ read_end_buffer s = (Ok (end_pos, end_buffer), s1)
    /\ si_start info = _start frame0
    /\ si_end info = end_pos - end_tag_offset_of end_buffer
    /\ si_size info = si_end info - si_start info
    /\ samples_and_mode frames frame0 (fst spf) (si_size info)
       = Ok (num_samples, si_bitrate_mode info)
    /\ bitrate_of frame0 (si_bitrate_mode info) (si_size info) num_samples
       = Ok (si_bitrate info).
Proof.
  unfold stream_info_of. intros H.
  inv_step H. rename a into frame0.
  destruct frames as [|f rest]; [discriminate Hrun|].
  injection Hrun as ->.
  inv_step H. apply lookup_Ok_inv in Hrun. rename a into spf.
  apply bind_Ok_inv in H as ([end_pos end_buffer] & s1 & Hends & H).
  inv_step H. destruct a as [num_samples bitrate_mode].
  inv_step H. inv_step H. inv_step H.
  cbn [si_start si_end si_size si_bitrate si_bitrate_mode].
  exists frame0, rest, spf, end_pos, end_buffer, s1, num_samples.
  repeat split; assumption || reflexivity.
Qed.

(** C2: without a Xing and without a VBRI header on the first frame, the
    bitrate mode is CBR exactly when all frames of the run report the same
    bitrate; with a Xing header on the first frame whose LAME header has
    bitrate-mode code 3 the mode is VBR; and a CBR stream reports the
    bitrate of its first frame. *)
Theorem C2_bitrate_mode (T : Tables) (frames rest : list MPEGFrameHeader)
    (frame0 : MPEGFrameHeader) (s s' : reader) (info : MP3StreamInfo) :
  frames = frame0 :: rest ->
  stream_info_of T frames s = (Ok info, s') ->
  (_xing frame0 = None -> _vbri frame0 = None ->
   (si_bitrate_mode info = CBR
    <-> forall f g, In f frames -> In g frames -> bitrate f = bitrate g))
  /\ (forall xing_header lame,
        _xing frame0 = Some xing_header ->
        _lame xing_header = Some lame ->
        lame_bitrate_mode lame = 3 ->
        si_bitrate_mode info = VBR)
  /\ (si_bitrate_mode info = CBR ->
      si_bitrate info = inject_Z (bitrate frame0)).
Proof.
  intros Hframes H.
  apply stream_info_of_Ok in H
    as (f0 & r0 & spf & end_pos & end_buffer & s1 & num_samples & E & _ & _
        & _ & _ & _ & Hmode & Hrate).
  rewrite Hframes in E. injection E as <- <-.
  split; [|split].
  - intros Hx Hv. unfold samples_and_mode in Hmode. rewrite Hx, Hv in Hmode.
    apply rbind_Ok_inv in Hmode as (n & _ & Hmode).
    injection Hmode as _ Hmode. rewrite <- Hmode.
    destruct (all_equal (map bitrate frames)) eqn:Ea.
    + split; [intros _|reflexivity]. intros f g Hf Hg.
      apply (proj1 (all_equal_spec _) Ea); now apply in_map.
    + split; [discriminate|]. intros Hall.
      assert (all_equal (map bitrate frames) = true); [|congruence].
      apply all_equal_spec. intros x y Hx' Hy'.
      apply in_map_iff in Hx' as (f & <- & Hf).
      apply in_map_iff in Hy' as (g & <- & Hg). now apply Hall.
  - intros xing_header lame Hx Hlame Hcode.
    unfold samples_and_mode in Hmode. rewrite Hx in Hmode.
    apply rbind_Ok_inv in Hmode as (n & _ & Hmode).
    injection Hmode as _ Hmode. rewrite <- Hmode.
    unfold xing_bitrate_mode. rewrite Hlame, Hcode. reflexivity.
  - intros Hcbr. rewrite Hcbr in Hrate. cbn in Hrate. congruence.
Qed.

Lemma C2_witness :
  match four_frames_run,
        stream_info_of std_tables four_frames_run four_frames with
  | frame0 :: rest, (Ok info, _) =>
      (_xing frame0 = None -> _vbri frame0 = None ->
       (si_bitrate_mode info = CBR
        <-> forall f g, In f (frame0 :: rest) -> In g (frame0 :: rest) ->
                        bitrate f = bitrate g))
      /\ (forall xing_header lame,
            _xing frame0 = Some xing_header ->
            _lame xing_header = Some lame ->
            lame_bitrate_mode lame = 3 ->
            si_bitrate_mode info = VBR)
      /\ (si_bitrate_mode info = CBR ->
          si_bitrate info = inject_Z (bitrate frame0))
  | _, _ => False
  end.
Proof.
  destruct four_frames_run as [|frame0 rest] eqn:Ef;
    [vm_compute in Ef; discriminate Ef|].
  destruct (stream_info_of std_tables (frame0 :: rest) four_frames)
    as [[info|e] s'] eqn:E.
  - exact (C2_bitrate_mode std_tables _ _ _ _ _ _ eq_refl E).
  - rewrite <- Ef in E. vm_compute in E. discriminate E.
Defined.

Example four_frames_info :
  exists info s',
    stream_info_of std_tables four_frames_run four_frames = (Ok info, s')
    /\ si_bitrate_mode info = CBR
    /\ si_bitrate info = inject_Z 8000
    /\ si_start info = 0 /\ si_end info = 136.
Proof. eexists. eexists. split; [vm_compute; reflexivity|]. now cbn. Qed.

(** ** The end of the file *)

Lemma read_end_buffer_eq (s : reader) :
  fst (read_end_buffer s)
  = Ok (Z.of_nat (List.length (raw s)), end_window (raw s)).
Proof.
  unfold read_end_buffer, bind, seek_end, tell, read_all, ret.
  rewrite seek_to_nonneg by lia. cbn [pos raw]. rewrite Z.add_0_r.
  unfold end_window, chunk_size.
  destruct (Z.ltb_spec (64 * 1024) (Z.of_nat (List.length (raw s)))).
  - cbn [raw pos]. rewrite seek_to_nonneg by lia. cbn.
    unfold remaining. cbn [raw pos]. repeat f_equal.
  - unfold seek_set. rewrite seek_to_nonneg by lia. reflexivity.
Qed.

(** ** A Xing header without a frame count *)

Lemma flags_bit0_clear (u : Z) :
  Z.testbit u 0 = false ->
  Z.land (if u <? 2 ^ 31 then u else u - 2 ^ 32) 1 = 0.
Proof.
  intros Hbit.
  assert (E : forall z, Z.land z 1 = Z.b2z (Z.testbit z 0)).
  { intros z. change 1 with (Z.ones 1) at 1.
    rewrite Z.land_ones by lia. now rewrite Z.bit0_mod. }
  rewrite E. destruct (u <? 2 ^ 31); [now rewrite Hbit|].
  rewrite Z.bit0_odd in *. rewrite Z.odd_sub, Hbit. reflexivity.
Qed.

(** C10: a Xing header whose flags word has bit 0 clear decodes without a
    frame count; when the first frame of the run carries such a header the
    stream-info computation takes the Xing branch and raises [TypeError]
    on the product with the absent count; and with a Xing or a VBRI header
    on the first frame the sample count and the mode do not depend on the
    size of the audio region or on the other frames, so the estimate from
    the frame length is not the fallback. *)
Theorem C10_xing_without_frame_count (T : Tables) :
  (forall (s s' : reader) (xing_header : XingHeader)
          (m0 m1 m2 m3 f0 f1 f2 f3 : Z) (rest : bytes),
     0 <= pos s ->
     remaining s = m0 :: m1 :: m2 :: m3 :: f0 :: f1 :: f2 :: f3 :: rest ->
     Z.testbit (be_uint [f0; f1; f2; f3]) 0 = false ->
     XingHeader_load T s = (Ok xing_header, s') ->
     num_frames xing_header = None)
  /\ (forall (fuel : nat) (s s1 : reader) (frames rest : list MPEGFrameHeader)
             (frame0 : MPEGFrameHeader) (xing_header : XingHeader)
             (spf : Z * Z),
        find_mp3_frames T fuel s = Some (Ok frames, s1) ->
        frames = frame0 :: rest ->
        _xing frame0 = Some xing_header ->
        num_frames xing_header = None ->
        MP3SamplesPerFrame T (version frame0) (layer frame0) = Some spf ->
        fst (stream_info_of T frames s1) = Raise TypeError
        /\ exists s',
             MP3StreamInfo_load T fuel s = Some (Raise TypeError, s'))
  /\ (forall (frames frames' : list MPEGFrameHeader)
             (frame0 : MPEGFrameHeader)
             (samples_per_frame audio_size audio_size' : Z),
        truthy (_xing frame0) || truthy (_vbri frame0) = true ->
        samples_and_mode frames frame0 samples_per_frame audio_size
        = samples_and_mode frames' frame0 samples_per_frame audio_size').
Proof.
  split; [|split].
  - intros s s' xing_header m0 m1 m2 m3 f0 f1 f2 f3 rest Hpos Hrem Hbit H.
    unfold XingHeader_load in H. inv_step H.
    destruct (negb _); [discriminate H|].
    inv_step H. inv_step H.
    rewrite remaining_read, Hrem in Hrun by lia.
    change (take_bytes 4 _) with [f0; f1; f2; f3] in Hrun.
    injection Hrun as <-.
    apply bind_Ok_inv in H as (frame_count & s2 & Hcount & H).
    unfold gated in Hcount. rewrite flags_bit0_clear in Hcount by assumption.
    injection Hcount as <- _.
    repeat inv_step H. reflexivity.
  - intros fuel s s1 frames rest frame0 xing_header spf Hfind -> Hx Hn Hspf.
    assert (E : stream_info_of T (frame0 :: rest) s1
                = (Raise TypeError, snd (stream_info_of T (frame0 :: rest) s1))).
    { unfold stream_info_of, bind, lift, ret. cbn [index nth_error Z.to_nat].
      rewrite Hspf. cbn [lookup].
      pose proof (read_end_buffer_eq s1) as Hend.
      destruct (read_end_buffer s1) as [ends s2]. cbn [fst] in Hend.
      rewrite Hend.
      unfold samples_and_mode, xing_num_samples. rewrite Hx, Hn. reflexivity. }
    split; [now rewrite E|].
    unfold MP3StreamInfo_load. rewrite Hfind, E. eauto.
  - intros frames frames' frame0 spf a a' H. unfold samples_and_mode.
    destruct (_xing frame0); [reflexivity|].
    destruct (_vbri frame0); [reflexivity|discriminate H].
Qed.

Lemma C10_witness :
  match XingHeader_load std_tables (mkReader bare_xing 0) with
  | (Ok xing_header, _) => num_frames xing_header = None
  | (Raise _, _) => False
  end
  /\ (exists s',
        MP3StreamInfo_load std_tables 300 bare_xing_stream
        = Some (Raise TypeError, s'))
  /\ samples_and_mode []
       (mkFrame 0 417 None (Some (mkXing None None None [] None))
          V1 3 true 0 128000 0 2 44100) 1152 1000
     = samples_and_mode []
         (mkFrame 0 417 None (Some (mkXing None None None [] None))
            V1 3 true 0 128000 0 2 44100) 1152 2000.
Proof.
  destruct (C10_xing_without_frame_count std_tables)
    as (Hload & Hinfo & Hbranch).
  split; [|split].
  - destruct (XingHeader_load std_tables (mkReader bare_xing 0))
      as [[xing_header|e] s'] eqn:E.
    + eapply (Hload (mkReader bare_xing 0) s' xing_header);
        [cbn; lia|reflexivity|reflexivity|exact E].
    + vm_compute in E. discriminate E.
  - eapply Hinfo; [vm_compute; reflexivity|reflexivity..].
  - apply Hbranch. reflexivity.
Defined.

Example bare_xing_stream_run :
  exists frame0 s',
    find_mp3_frames std_tables 300 bare_xing_stream = Some (Ok [frame0], s')
    /\ _xing frame0 = Some (mkXing None None None [] None)
    /\ _size frame0 = 417.
Proof. eexists. eexists. split; [vm_compute; reflexivity|]. now cbn. Qed.

(** ** Trailing tags *)

Lemma rfind_from_range (sub l : bytes) (i : Z) :
  rfind_from sub l i = -1
  \/ i <= rfind_from sub l i <= i + Z.of_nat (List.length l).
Proof.
  revert i. induction l as [|x l IH]; intros i; cbn [rfind_from].
  - destruct (startswith [] sub); [right; cbn; lia|now left].
  - destruct (IH (i + 1)) as [E|E].
    + rewrite E. change (0 <=? -1) with false. cbv iota.
      destruct (startswith (x :: l) sub);
        [right; cbn [List.length]; lia|now left].
    + destruct (Z.leb_spec 0 (rfind_from sub l (i + 1))).
      * right. cbn [List.length]. lia.
      * destruct (startswith (x :: l) sub);
          [right; cbn [List.length]; lia|now left].
Qed.

(** Searching from another index shifts the result. *)
Lemma rfind_from_shift (sub l : bytes) :
  forall i j, 0 <= i -> 0 <= j ->
    (rfind_from sub l i = -1 /\ rfind_from sub l j = -1)
    \/ (i <= rfind_from sub l i
        /\ rfind_from sub l j = rfind_from sub l i + (j - i)).
Proof.
  induction l as [|x l IH]; intros i j Hi Hj; cbn [rfind_from].
  - destruct (startswith [] sub); [right; lia|now left].
  - destruct (IH (i + 1) (j + 1)) as [[Ei Ej]|[Ei Ej]]; try lia.
    + rewrite Ei, Ej. change (0 <=? -1) with false. cbv iota.
      destruct (startswith (x :: l) sub); [right; lia|now left].
    + rewrite Ej.
      destruct (Z.leb_spec 0 (rfind_from sub l (i + 1))); [|lia].
      destruct (Z.leb_spec 0 (rfind_from sub l (i + 1) + (j + 1 - (i + 1))));
        [|lia].
      right. lia.
Qed.

Lemma rfind_from_absent (sub l : bytes) (j : Z) :
  0 <= j -> rfind l sub = -1 -> rfind_from sub l j = -1.
Proof.
  unfold rfind. intros Hj H.
  destruct (rfind_from_shift sub l 0 j) as [[_ E]|[E _]]; lia.
Qed.

(** An occurrence in the tail of the buffer hides the ones before it. *)
Lemma rfind_from_app (sub l1 l2 : bytes) :
  forall i,
    0 <= rfind_from sub l2 (i + Z.of_nat (List.length l1)) ->
    rfind_from sub (l1 ++ l2) i
    = rfind_from sub l2 (i + Z.of_nat (List.length l1)).
Proof.
  induction l1 as [|x l1 IH]; intros i H.
  - cbn in *. now rewrite Z.add_0_r in *.
  - cbn [app rfind_from].
    replace (i + Z.of_nat (List.length (x :: l1)))
      with (i + 1 + Z.of_nat (List.length l1)) in * by (cbn [List.length]; lia).
    rewrite IH by assumption.
    now destruct (Z.leb_spec 0 (rfind_from sub l2
                                  (i + 1 + Z.of_nat (List.length l1)))); [|lia].
Qed.

Lemma rfind_appended_tag (pre filler : bytes) :
  rfind filler TAG = -1 ->
  rfind (pre ++ TAG ++ filler) TAG = Z.of_nat (List.length pre).
Proof.
  intros Hfiller. unfold rfind.
  assert (E : forall j, 0 <= j -> rfind_from TAG (TAG ++ filler) j = j).
  { intros j Hj. unfold TAG at 2. cbn [bytes_of_string app rfind_from].
    rewrite (rfind_from_absent TAG filler (j + 1 + 1 + 1)) by (lia || assumption).
    clear Hfiller. destruct filler; cbv -[Z.add]; reflexivity. }
  rewrite rfind_from_app; rewrite E; lia.
Qed.

Lemma end_tag_offset_step (buffer marker : bytes) (acc : Z) :
  0 <= acc -> rfind buffer marker <> 0 ->
  (if 0 <? rfind buffer marker then
     if acc <? Z.of_nat (List.length buffer) - rfind buffer marker
     then Z.of_nat (List.length buffer) - rfind buffer marker
     else acc
   else acc)
  = Z.max acc (match_offset buffer marker).
Proof.
  intros Hacc Hne. unfold match_offset.
  destruct (rfind_from_range marker buffer 0) as [E|E]; fold (rfind buffer marker) in E.
  - rewrite E. cbn. lia.
  - destruct (Z.ltb_spec 0 (rfind buffer marker)); [|lia].
    destruct (Z.eqb_spec (rfind buffer marker) (-1)); [lia|].
    destruct (Z.ltb_spec acc (Z.of_nat (List.length buffer) - rfind buffer marker)); lia.
Qed.

Lemma end_window_appended (data tail : bytes) :
  data <> [] -> Z.of_nat (List.length tail) < 65536 ->
  exists pre, pre <> [] /\ end_window (data ++ tail) = pre ++ tail.
Proof.
  intros Hdata Htail. unfold end_window, chunk_size.
  destruct (Z.ltb_spec (64 * 1024) (Z.of_nat (List.length (data ++ tail)))).
  - rewrite length_app in *.
    exists (skipn (Z.to_nat (Z.of_nat (List.length data + List.length tail)
                             - 64 * 1024)) data).
    split.
    + intros E. apply (f_equal (@List.length Z)) in E.
      rewrite length_skipn in E. cbn [List.length] in E. lia.
    + rewrite skipn_app.
      replace (_ - List.length data)%nat with 0%nat by lia. reflexivity.
  - now exists data.
Qed.

(** C6 (amended): the search covers the last 64 KiB of the file, or the
    whole file when it is shorter, and the audio region ends at the end of
    the file less the end-tag offset.  When no marker has its last
    occurrence at the very start of the searched bytes, that offset is the
    largest, over the three markers, of the distance from the end of the
    file to the marker's last occurrence, and 0 when none occurs.  When
    "TAG" and 125 filler bytes are appended to a non-empty file, the
    filler does not contain "TAG", and the searched bytes contain neither
    "APETAGEX" nor "LYRICSBEGIN", exactly the last 128 bytes are
    excluded. *)
Theorem C6_trailing_tags :
  (forall (T : Tables) (frames : list MPEGFrameHeader) (s s' : reader)
          (info : MP3StreamInfo),
     stream_info_of T frames s = (Ok info, s') ->
     si_end info
     = Z.of_nat (List.length (raw s)) - end_tag_offset_of (end_window (raw s)))
  /\ (forall data : bytes,
        Z.of_nat (List.length (end_window data))
        = Z.min (Z.of_nat (List.length data)) chunk_size
        /\ exists pre, data = pre ++ end_window data)
  /\ (forall buffer : bytes,
        (forall marker, In marker end_tag_types -> rfind buffer marker <> 0) ->
        end_tag_offset_of buffer = largest_offset buffer)
  /\ (forall data filler : bytes,
        data <> [] ->
        List.length filler = 125%nat ->
        rfind filler TAG = -1 ->
        let file := data ++ TAG ++ filler in
        rfind (end_window file) APETAGEX = -1 ->
        rfind (end_window file) LYRICSBEGIN = -1 ->
        end_tag_offset_of (end_window file) = 128
        /\ Z.of_nat (List.length file) - end_tag_offset_of (end_window file)
           = Z.of_nat (List.length data)).
Proof.
  split; [|split; [|split]].
  - intros T frames s s' info H.
    apply stream_info_of_Ok in H
      as (f0 & r0 & spf & end_pos & end_buffer & s1 & n & _ & _ & Hends
          & _ & Hend & _).
    pose proof (read_end_buffer_eq s) as E. rewrite Hends in E.
    injection E as -> ->. exact Hend.
  - intros data. unfold end_window, chunk_size.
    destruct (Z.ltb_spec (64 * 1024) (Z.of_nat (List.length data))).
    + split; [rewrite length_skipn; lia|].
      eexists. symmetry. apply firstn_skipn.
    + split; [lia|]. now exists [].
  - intros buffer Hne. unfold end_tag_offset_of, largest_offset.
    cbn [end_tag_types fold_left map fold_right]. cbv zeta.
    assert (Hpos : forall marker, 0 <= match_offset buffer marker).
    { intros marker. unfold match_offset.
      destruct (rfind_from_range marker buffer 0) as [E|E];
        fold (rfind buffer marker) in E.
      - now rewrite E.
      - destruct (_ =? -1); lia. }
    pose proof (Hpos (bytes_of_string "APETAGEX")).
    pose proof (Hpos (bytes_of_string "LYRICSBEGIN")).
    pose proof (Hpos (bytes_of_string "TAG")).
    rewrite (end_tag_offset_step buffer (bytes_of_string "APETAGEX") 0)
      by (lia || (apply Hne; cbn; tauto)).
    rewrite (end_tag_offset_step buffer (bytes_of_string "LYRICSBEGIN"))
      by (lia || (apply Hne; cbn; tauto)).
    rewrite (end_tag_offset_step buffer (bytes_of_string "TAG"))
      by (lia || (apply Hne; cbn; tauto)).
    lia.
  - intros data filler Hdata Hlen Hfiller file Hape Hlyr.
    destruct (end_window_appended data (TAG ++ filler) Hdata)
      as (pre & Hpre & Ewin).
    { rewrite length_app, Hlen. cbn. lia. }
    fold file in Ewin.
    assert (Hoffset : end_tag_offset_of (end_window file) = 128).
    { unfold end_tag_offset_of. cbn [end_tag_types fold_left].
      unfold APETAGEX in Hape. unfold LYRICSBEGIN in Hlyr.
      rewrite Hape, Hlyr. change (0 <? -1) with false. cbv iota.
      change (bytes_of_string "TAG") with TAG.
      rewrite Ewin, rfind_appended_tag by assumption.
      assert (0 < Z.of_nat (List.length pre))
        by (destruct pre; [contradiction|cbn [List.length]; lia]).
      rewrite !length_app, Hlen. change (List.length TAG) with 3%nat.
      destruct (Z.ltb_spec 0 (Z.of_nat (List.length pre))); [|lia].
      cbv zeta.
      replace (Z.of_nat (List.length pre + (3 + 125)) - Z.of_nat (List.length pre))
        with 128 by lia.
      reflexivity. }
    split; [exact Hoffset|]. rewrite Hoffset. unfold file.
    rewrite !length_app, Hlen. change (List.length TAG) with 3%nat. lia.
Qed.

Lemma C6_witness :
  match stream_info_of std_tables four_frames_run tagged_stream with
  | (Ok info, _) =>
      si_end info
      = Z.of_nat (List.length (raw tagged_stream))
        - end_tag_offset_of (end_window (raw tagged_stream))
  | (Raise _, _) => False
  end
  /\ end_tag_offset_of (raw tagged_stream)
     = largest_offset (raw tagged_stream)
  /\ (end_tag_offset_of (end_window (raw four_frames ++ TAG ++ plain_filler))
      = 128
      /\ Z.of_nat (List.length (raw four_frames ++ TAG ++ plain_filler))
         - end_tag_offset_of
             (end_window (raw four_frames ++ TAG ++ plain_filler))
         = Z.of_nat (List.length (raw four_frames))).
Proof.
  destruct C6_trailing_tags as (Hend & _ & Hlargest & Happended).
  split; [|split].
  - destruct (stream_info_of std_tables four_frames_run tagged_stream)
      as [[info|e] s'] eqn:E.
    + exact (Hend std_tables _ _ _ _ E).
    + vm_compute in E. discriminate E.
  - apply Hlargest. intros marker [<-|[<-|[<-|[]]]]; vm_compute; discriminate.
  - apply (Happended (raw four_frames) plain_filler);
      [discriminate|reflexivity|reflexivity|reflexivity|reflexivity].
Defined.

(** With "TAG" inside the 125 filler bytes the audio region ends 123
    bytes before the end of the file, not 128. *)
Lemma C6_counterexample :
  List.length tag_in_filler = 125%nat
  /\ exists info s',
       MP3StreamInfo_load std_tables 400 doubly_tagged_stream
       = Some (Ok info, s')
       /\ si_end info = Z.of_nat (List.length (raw doubly_tagged_stream)) - 123
       /\ si_end info <> Z.of_nat (List.length (raw doubly_tagged_stream)) - 128.
Proof.
  split; [reflexivity|].
  eexists. eexists. split; [vm_compute; reflexivity|].
  split; [reflexivity|discriminate].
Qed.

Example tagged_stream_info :
  exists info s',
    MP3StreamInfo_load std_tables 400 tagged_stream = Some (Ok info, s')
    /\ si_start info = 0 /\ si_end info = 136 /\ si_size info = 136.
Proof. eexists. eexists. split; [vm_compute; reflexivity|]. now cbn. Qed.

(** ** Examples for the replay gain and the frame header *)

Lemma C4_witness :
  match LAMEReplayGain_load std_tables (mkReader (gain_bytes 0 128 0 0) 0) with
  | (Ok rg, _) =>
      let peak_data := be_uint [0; 128; 0; 0] in
      (peak_data = 0 -> peak rg = None)
      /\ (peak_data <> 0 ->
          peak rg = Some (inject_Z peak_data / inject_Z (2 ^ 23))%Q)
      /\ Qeq (track_adjustment rg) (gain_of_word (be_uint [0x2E; 0x3C]))
      /\ Qeq (album_adjustment rg) (gain_of_word (be_uint [0x4C; 0x0A]))
  | (Raise _, _) => False
  end.
Proof.
  destruct (LAMEReplayGain_load std_tables (mkReader (gain_bytes 0 128 0 0) 0))
    as [[rg|e] s'] eqn:E.
  - apply (C4_replay_gain std_tables (mkReader (gain_bytes 0 128 0 0) 0) s' rg
             0 128 0 0 0x2E 0x3C 0x4C 0x0A []);
      [cbn; lia|reflexivity|exact E].
  - vm_compute in E. discriminate E.
Defined.

Example gain_example :
  exists rg s',
    LAMEReplayGain_load std_tables (mkReader (gain_bytes 0 128 0 0) 0)
    = (Ok rg, s')
    /\ (track_adjustment rg == - (6 # 1))%Q
    /\ (album_adjustment rg == 1 # 1)%Q
    /\ exists q, peak rg = Some q /\ (q == 1 # 1)%Q.
Proof.
  eexists. eexists. split; [vm_compute; reflexivity|].
  cbn. repeat split. eexists. split; reflexivity.
Qed.

(** With a raw peak of 0 the decoded peak is absent: it is not the
    number 0. *)
Lemma C4_counterexample :
  be_uint [0; 0; 0; 0] = 0
  /\ exists rg s',
       LAMEReplayGain_load std_tables (mkReader (gain_bytes 0 0 0 0) 0)
       = (Ok rg, s')
       /\ peak rg = None
       /\ ~ (exists q, peak rg = Some q /\ (q == 0)%Q).
Proof.
  split; [reflexivity|].
  eexists. eexists. split; [vm_compute; reflexivity|].
  split; [reflexivity|]. intros (q & Hq & _). discriminate Hq.
Qed.

Lemma C5_witness :
  fst (MPEGFrameHeader_load std_tables (mkReader [255; 251; 0; 0] 0))
  = Raise InvalidFrame
  /\ caught InvalidFrame = true.
Proof.
  apply (C5_frame_header_rejection std_tables (mkReader [255; 251; 0; 0] 0)
           255 251 0 0 []);
    [cbn; lia|reflexivity|unfold is_byte; lia..|].
  right. right. right. left. reflexivity.
Defined.

(* ================================================================== *)
(** * Further properties *)

(** ** Dictionaries *)

Lemma dict_get_In {A} (d : dict A) (k : string) (v : A) :
  dict_get d k = Some v -> In (k, v) d.
Proof.
  induction d as [|[k' v'] d IH]; cbn; [discriminate|].
  destruct (String.eqb_spec k' k) as [->|Hne].
  - intros [= ->]. now left.
  - intros H. right. now apply IH.
Qed.

Lemma dict_get_None_keys {A} (d : dict A) (k : string) :
  dict_get d k = None <-> ~ In k (map fst d).
Proof.
  induction d as [|[k' v'] d IH]; cbn; [tauto|].
  destruct (String.eqb_spec k' k) as [->|Hne].
  - split; [discriminate|]. intros H. exfalso. apply H. now left.
  - rewrite IH. tauto.
Qed.

Lemma dict_get_set_other {A} (d : dict A) (k k' : string) (v : A) :
  k' <> k -> dict_get (dict_set d k v) k' = dict_get d k'.
Proof.
  intros Hne. induction d as [|[k0 v0] d IH]; cbn.
  - destruct (String.eqb_spec k k'); [congruence|reflexivity].
  - destruct (String.eqb_spec k0 k) as [->|Hk]; cbn.
    + destruct (String.eqb_spec k k'); [congruence|reflexivity].
    + destruct (String.eqb_spec k0 k'); [reflexivity|exact IH].
Qed.

Lemma dict_set_keys {A} (d : dict A) (k : string) (v : A) :
  map fst (dict_set d k v)
  = match dict_get d k with
    | Some _ => map fst d
    | None => map fst d ++ [k]
    end.
Proof.
  induction d as [|[k0 v0] d IH]; cbn; [reflexivity|].
  destruct (String.eqb_spec k0 k) as [->|Hk]; cbn; [reflexivity|].
  rewrite IH. now destruct (dict_get d k).
Qed.

Lemma dict_set_wf {A} (d : dict A) (k : string) (v : A) :
  dict_wf d -> dict_wf (dict_set d k v).
Proof.
  unfold dict_wf. intros Hwf. rewrite dict_set_keys.
  destruct (dict_get d k) eqn:E; [assumption|].
  apply dict_get_None_keys in E.
  apply NoDup_app; [assumption|repeat constructor; intros []|].
  intros x Hx [<-|[]]. contradiction.
Qed.

Lemma dict_del_keys_incl {A} (d : dict A) (k x : string) :
  In x (map fst (dict_del d k)) -> In x (map fst d).
Proof.
  induction d as [|[k0 v0] d IH]; cbn; [tauto|].
  destruct (String.eqb k0 k); cbn; tauto.
Qed.

Lemma dict_del_wf {A} (d : dict A) (k : string) :
  dict_wf d -> dict_wf (dict_del d k).
Proof.
  unfold dict_wf. induction d as [|[k0 v0] d IH]; cbn; [trivial|].
  intros Hwf. inversion Hwf as [|? ? Hnotin Hrest]; subst.
  destruct (String.eqb k0 k); cbn; [assumption|].
  constructor; [|now apply IH].
  intros Hin. apply Hnotin. eapply dict_del_keys_incl, Hin.
Qed.

Lemma dict_get_del_same {A} (d : dict A) (k : string) :
  dict_wf d -> dict_get (dict_del d k) k = None.
Proof.
  unfold dict_wf. induction d as [|[k0 v0] d IH]; cbn; [reflexivity|].
  intros Hwf. inversion Hwf as [|? ? Hnotin Hrest]; subst.
  destruct (String.eqb_spec k0 k) as [->|Hk]; cbn.
  - now apply dict_get_None_keys.
  - destruct (String.eqb_spec k0 k); [contradiction|]. now apply IH.
Qed.

Lemma dict_get_del_other {A} (d : dict A) (k k' : string) :
  k' <> k -> dict_get (dict_del d k) k' = dict_get d k'.
Proof.
  intros Hne. induction d as [|[k0 v0] d IH]; cbn; [reflexivity|].
  destruct (String.eqb_spec k0 k) as [->|Hk]; cbn.
  - destruct (String.eqb_spec k k'); [congruence|reflexivity].
  - destruct (String.eqb_spec k0 k'); [reflexivity|exact IH].
Qed.

(** ** The tag mapping *)

Section TagMapping.

Variable V : Type.

Lemma Tags_set_get_same (t : Tags V) (key key' : string) (value : tagval V) :
  field_map_get (FIELD_MAP V t) key' = field_map_get (FIELD_MAP V t) key ->
  Tags_getitem V (Tags_setitem V t key value) key' = Ok value.
Proof.
  intros E. unfold Tags_getitem, Tags_setitem. cbn [FIELD_MAP entries].
  now rewrite E, dict_get_set_same.
Qed.

Lemma Tags_set_get_other (t : Tags V) (key key' : string) (value : tagval V) :
  field_map_get (FIELD_MAP V t) key' <> field_map_get (FIELD_MAP V t) key ->
  Tags_getitem V (Tags_setitem V t key value) key' = Tags_getitem V t key'.
Proof.
  intros Hne. unfold Tags_getitem, Tags_setitem. cbn [FIELD_MAP entries].
  now rewrite dict_get_set_other by assumption.
Qed.

(** X1: a value stored in a tag mapping is found again under the same key
    and under every key that the field map resolves to the same raw id;
    the entries under all other raw ids are left as they were. *)
Theorem X1_tags_setitem_getitem (t : Tags V) (key : string) (value : tagval V) :
  Tags_getitem V (Tags_setitem V t key value) key = Ok value
  /\ (forall key',
        field_map_get (FIELD_MAP V t) key' = field_map_get (FIELD_MAP V t) key ->
        Tags_getitem V (Tags_setitem V t key value) key' = Ok value)
  /\ (forall key',
        field_map_get (FIELD_MAP V t) key' <> field_map_get (FIELD_MAP V t) key ->
        Tags_getitem V (Tags_setitem V t key value) key'
        = Tags_getitem V t key').
Proof.
  split; [now apply Tags_set_get_same|].
  split; intros key' H; [now apply Tags_set_get_same|now apply Tags_set_get_other].
Qed.

(** X2: deleting a key that the mapping does not hold raises [KeyError],
    and [pop] then returns its default and the mapping as it was; deleting
    a key that it holds removes the entry, so that a later lookup raises
    [KeyError], and leaves the entries under other raw ids alone. *)
Theorem X2_tags_delitem_pop (t : Tags V) (key : string) :
  (forall e default,
     Tags_getitem V t key = Raise e ->
     Tags_delitem V t key = Raise KeyError
     /\ Tags_pop V t key default = Ok (default, t))
  /\ (forall value default,
        dict_wf (entries V t) ->
        Tags_getitem V t key = Ok value ->
        exists t',
          Tags_delitem V t key = Ok t'
          /\ Tags_pop V t key default = Ok (value, t')
          /\ Tags_getitem V t' key = Raise KeyError
          /\ dict_wf (entries V t')
          /\ forall key',
               field_map_get (FIELD_MAP V t) key'
               <> field_map_get (FIELD_MAP V t) key ->
               Tags_getitem V t' key' = Tags_getitem V t key').
Proof.
  unfold Tags_pop, Tags_getitem, Tags_delitem. split.
  - intros e default H.
    destruct (dict_get (entries V t) (field_map_get (FIELD_MAP V t) key));
      [discriminate H|]. now split.
  - intros value default Hwf H.
    destruct (dict_get (entries V t) (field_map_get (FIELD_MAP V t) key))
      as [v|] eqn:E; [|discriminate H].
    injection H as ->. eexists. split; [reflexivity|].
    cbn [rbind FIELD_MAP entries]. split; [reflexivity|].
    rewrite dict_get_del_same by assumption.
    split; [reflexivity|]. split; [now apply dict_del_wf|].
    intros key' Hne. now rewrite dict_get_del_other by assumption.
Qed.

Lemma Tags_of_fold (fm : dict string) (frames : dict (tagval V)) (t : Tags V) :
  FIELD_MAP V t = fm -> dict_wf (entries V t) ->
  let t' := fold_left (fun t kv => Tags_setitem V t (fst kv) (snd kv)) frames t in
  FIELD_MAP V t' = fm /\ dict_wf (entries V t').
Proof.
  revert t. induction frames as [|[k v] frames IH]; intros t Hfm Hwf;
    cbn [fold_left]; [now split|].
  apply IH; cbn [Tags_setitem FIELD_MAP entries fst snd];
    [assumption|now apply dict_set_wf].
Qed.

Lemma Tags_of_wf (fm : dict string) (frames : dict (tagval V)) :
  FIELD_MAP V (Tags_of V fm frames) = fm
  /\ dict_wf (entries V (Tags_of V fm frames)).
Proof. apply Tags_of_fold; [reflexivity|constructor]. Qed.

End TagMapping.

Lemma X1_witness :
  Tags_getitem unit
    (Tags_setitem unit (mkTags unit _v23_FIELD_MAP []) "artist" (Appended unit []))
    "TPE1" = Ok (Appended unit [])
  /\ Tags_getitem unit
       (Tags_setitem unit (mkTags unit _v23_FIELD_MAP []) "artist"
          (Appended unit []))
       "title"
     = Tags_getitem unit (mkTags unit _v23_FIELD_MAP []) "title".
Proof.
  destruct (X1_tags_setitem_getitem unit (mkTags unit _v23_FIELD_MAP [])
              "artist" (Appended unit [])) as (_ & Hsame & Hother).
  split; [apply Hsame; reflexivity|apply Hother; discriminate].
Defined.

Lemma X2_witness :
  (Tags_delitem unit (mkTags unit _v23_FIELD_MAP []) "artist" = Raise KeyError
   /\ Tags_pop unit (mkTags unit _v23_FIELD_MAP []) "artist" (Appended unit [])
      = Ok (Appended unit [], mkTags unit _v23_FIELD_MAP []))
  /\ exists t',
       Tags_delitem unit
         (mkTags unit _v23_FIELD_MAP [("TPE1"%string, Assigned unit tt)])
         "artist" = Ok t'
       /\ Tags_pop unit
            (mkTags unit _v23_FIELD_MAP [("TPE1"%string, Assigned unit tt)])
            "artist" (Appended unit []) = Ok (Assigned unit tt, t')
       /\ Tags_getitem unit t' "artist" = Raise KeyError
       /\ dict_wf (entries unit t')
       /\ forall key',
            field_map_get _v23_FIELD_MAP key'
            <> field_map_get _v23_FIELD_MAP "artist" ->
            Tags_getitem unit t' key'
            = Tags_getitem unit
                (mkTags unit _v23_FIELD_MAP [("TPE1"%string, Assigned unit tt)])
                key'.
Proof.
  split.
  - apply (proj1 (X2_tags_delitem_pop unit (mkTags unit _v23_FIELD_MAP [])
                    "artist") KeyError). reflexivity.
  - apply (proj2 (X2_tags_delitem_pop unit
                    (mkTags unit _v23_FIELD_MAP
                       [("TPE1"%string, Assigned unit tt)]) "artist")).
    + repeat constructor. intros [].
    + reflexivity.
Defined.

(** ** The three field maps *)

Lemma field_maps_checked (id3_version : ID3Version) :
  ids_apart (field_map_of id3_version) = true
  /\ inv_round_trip (field_map_of id3_version) = true
  /\ dict_wf (field_map_of id3_version).
Proof.
  destruct id3_version; (split; [|split]); try (vm_compute; reflexivity);
    unfold dict_wf; cbn;
    repeat (constructor; [cbn; intuition discriminate|]); constructor.
Qed.

Lemma field_map_get_idempotent (fm : dict string) (key : string) :
  ids_apart fm = true ->
  field_map_get fm (field_map_get fm key) = field_map_get fm key.
Proof.
  unfold ids_apart. rewrite forallb_forall. intros Hfm.
  unfold field_map_get at 2 3. destruct (dict_get fm key) as [raw_id|] eqn:E.
  - apply dict_get_In, Hfm in E. cbn [snd] in E. unfold field_map_get.
    now destruct (dict_get fm raw_id).
  - unfold field_map_get. now rewrite E.
Qed.

Lemma field_map_inv_get_get (fm : dict string) (key raw_id : string) :
  inv_round_trip fm = true ->
  dict_get fm key = Some raw_id ->
  field_map_inv_get fm raw_id = key
  /\ String.prefix "_" raw_id = false
  /\ String.eqb raw_id "FIELD_MAP" = false.
Proof.
  unfold inv_round_trip. rewrite forallb_forall. intros Hfm E.
  apply dict_get_In, Hfm in E. cbn [fst snd] in E.
  apply andb_true_iff in E as [E Hfield]. apply andb_true_iff in E as [E Hpriv].
  apply String.eqb_eq in E. apply negb_true_iff in Hfield, Hpriv. now repeat split.
Qed.

(** X3: in each of the three ID3v2 versions the field map is a bijection
    between canonical names and raw frame ids, and no raw id is itself a
    canonical name.  So a value stored under a canonical name is found
    again under its raw frame id, and iterating over the mapping lists it
    under the canonical name. *)
Theorem X3_field_map_aliases (V : Type) (id3_version : ID3Version)
    (t : Tags V) (key raw_id : string) (value : tagval V) :
  FIELD_MAP V t = field_map_of id3_version ->
  dict_get (field_map_of id3_version) key = Some raw_id ->
  field_map_inv_get (field_map_of id3_version) raw_id = key
  /\ Tags_getitem V (Tags_setitem V t key value) raw_id = Ok value
  /\ Tags_getitem V (Tags_setitem V t raw_id value) key = Ok value
  /\ In key (Tags_iter V (Tags_setitem V t key value)).
Proof.
  intros Hfm Hkey.
  destruct (field_maps_checked id3_version) as (Hapart & Hinv & _).
  destruct (field_map_inv_get_get _ _ _ Hinv Hkey) as (Eback & Hpriv & Hfield).
  assert (Eget : field_map_get (FIELD_MAP V t) key = raw_id)
    by (unfold field_map_get; now rewrite Hfm, Hkey).
  assert (Eraw : field_map_get (FIELD_MAP V t) raw_id = raw_id).
  { rewrite <- Eget at 1. rewrite Hfm in *.
    rewrite field_map_get_idempotent by assumption. exact Eget. }
  split; [exact Eback|]. split; [|split].
  - apply Tags_set_get_same. congruence.
  - apply Tags_set_get_same. congruence.
  - unfold Tags_iter, Tags_setitem. cbn [FIELD_MAP entries].
    rewrite Eget, Hfm, <- Eback. apply in_map, filter_In. split.
    + rewrite dict_set_keys.
      destruct (dict_get (entries V t) raw_id) eqn:E.
      * apply dict_get_In in E. now apply (in_map fst) in E.
      * apply in_or_app. right. now left.
    + now rewrite Hpriv, Hfield.
Qed.

Lemma X3_witness :
  field_map_inv_get (field_map_of v22) "TCO" = "genre"%string
  /\ Tags_getitem unit
       (Tags_setitem unit (mkTags unit _v22_FIELD_MAP []) "genre"
          (Assigned unit tt)) "TCO" = Ok (Assigned unit tt)
  /\ Tags_getitem unit
       (Tags_setitem unit (mkTags unit _v22_FIELD_MAP []) "TCO"
          (Assigned unit tt)) "genre" = Ok (Assigned unit tt)
  /\ In "genre"%string
        (Tags_iter unit
           (Tags_setitem unit (mkTags unit _v22_FIELD_MAP []) "genre"
              (Assigned unit tt))).
Proof.
  apply (X3_field_map_aliases unit v22 (mkTags unit _v22_FIELD_MAP [])
           "genre" "TCO" (Assigned unit tt)); reflexivity.
Defined.

(** ** Refused ID3v2 headers *)

Lemma on_bytes_read {A} (n : Z) (k : bytes -> M A) (data : bytes) :
  on_bytes (bind (read n) k) data
  = fst (k (take_bytes n data)
           (mkReader data (Z.of_nat (List.length (take_bytes n data))))).
Proof. reflexivity. Qed.

Lemma header_load_no_magic (data : bytes) :
  firstn 3 data <> bytes_of_string "ID3" ->
  on_bytes ID3v2Header_load data = Raise InvalidHeader.
Proof.
  intros Hmagic. unfold ID3v2Header_load. rewrite on_bytes_read.
  change (take_bytes 3 data) with (firstn 3 data).
  destruct (bytes_eqb (firstn 3 data) (bytes_of_string "ID3")) eqn:E;
    [now apply bytes_eqb_eq in E|reflexivity].
Qed.

Lemma header_load_short (data : bytes) :
  firstn 3 data = bytes_of_string "ID3" ->
  (List.length data < 10)%nat ->
  on_bytes ID3v2Header_load data = Raise StructError.
Proof.
  intros Hmagic Hlen. unfold ID3v2Header_load. rewrite on_bytes_read.
  change (take_bytes 3 data) with (firstn 3 data).
  rewrite Hmagic. cbn [bytes_eqb bytes_of_string negb].
  destruct data as [|b0 [|b1 [|b2 rest]]]; try discriminate Hmagic.
  cbn in Hlen. unfold bind, read, remaining, take_bytes. cbn.
  destruct rest as [|? [|? [|? [|? [|? [|? [|? rest]]]]]]];
    cbn in Hlen; try lia; reflexivity.
Qed.

Lemma ID3v2Header_load_more (major revision flags_ s0 s1 s2 s3 : Z)
    (more : bytes) :
  on_bytes ID3v2Header_load
    (header_bytes major revision flags_ s0 s1 s2 s3 ++ more)
  = rbind (ID3Version_of major) (fun version =>
    rbind (unpack_flags [flags_]) (fun flags =>
    rbind (decode_synchsafe_int [s0; s1; s2; s3] 7) (fun size =>
    Ok (mkHeader size version flags)))).
Proof.
  cbv -[ID3Version_of unpack_flags decode_synchsafe_int].
  destruct (ID3Version_of major); [|reflexivity].
  destruct (unpack_flags [flags_]); [|reflexivity].
  destruct (decode_synchsafe_int [s0; s1; s2; s3] 7); reflexivity.
Qed.

(** A buffer that decodes starts with a complete header. *)
Lemma header_load_Ok_shape (data : bytes) (h : ID3v2Header) :
  on_bytes ID3v2Header_load data = Ok h ->
  exists major revision flags_ s0 s1 s2 s3 more,
    data = header_bytes major revision flags_ s0 s1 s2 s3 ++ more.
Proof.
  intros H.
  destruct (list_eq_dec Z.eq_dec (firstn 3 data) (bytes_of_string "ID3"))
    as [Hmagic|Hmagic];
    [|rewrite header_load_no_magic in H by assumption; discriminate H].
  destruct (Nat.lt_ge_cases (List.length data) 10) as [Hlen|Hlen];
    [rewrite header_load_short in H by assumption; discriminate H|].
  destruct data as [|b0 [|b1 [|b2 [|major [|revision [|flags_ [|s0 [|s1 [|s2
    [|s3 more]]]]]]]]]]; cbn in Hlen; try lia.
  injection Hmagic as -> -> ->.
  now exists major, revision, flags_, s0, s1, s2, s3, more.
Qed.

(** X4: [ID3v2Header.load] raises [InvalidHeader] when the buffer does not
    start with "ID3", [struct.error] when it starts with "ID3" and has
    fewer than ten bytes, and [ValueError] when the major version byte is
    not 2, 3 or 4, whatever the other bytes are. *)
Theorem X4_header_errors (data : bytes) :
  (firstn 3 data <> bytes_of_string "ID3" ->
   on_bytes ID3v2Header_load data = Raise InvalidHeader)
  /\ (firstn 3 data = bytes_of_string "ID3" ->
      (List.length data < 10)%nat ->
      on_bytes ID3v2Header_load data = Raise StructError)
  /\ (forall major revision flags_ s0 s1 s2 s3 more,
        data = header_bytes major revision flags_ s0 s1 s2 s3 ++ more ->
        major <> 2 -> major <> 3 -> major <> 4 ->
        on_bytes ID3v2Header_load data = Raise ValueError).
Proof.
  split; [apply header_load_no_magic|]. split; [apply header_load_short|].
  intros major revision flags_ s0 s1 s2 s3 more -> H2 H3 H4.
  rewrite ID3v2Header_load_more. unfold ID3Version_of.
  destruct (Z.eqb_spec major 2); [contradiction|].
  destruct (Z.eqb_spec major 3); [contradiction|].
  destruct (Z.eqb_spec major 4); [contradiction|reflexivity].
Qed.

Lemma X4_witness :
  on_bytes ID3v2Header_load (bytes_of_string "RIFF") = Raise InvalidHeader
  /\ on_bytes ID3v2Header_load (bytes_of_string "ID3" ++ [3; 0; 0])
     = Raise StructError
  /\ on_bytes ID3v2Header_load (header_bytes 5 0 0 0 0 0 0 ++ [])
     = Raise ValueError.
Proof.
  split; [|split].
  - apply (proj1 (X4_header_errors (bytes_of_string "RIFF"))). discriminate.
  - apply (proj1 (proj2 (X4_header_errors (bytes_of_string "ID3" ++ [3; 0; 0]))));
      [reflexivity|cbn; lia].
  - apply (proj2 (proj2 (X4_header_errors (header_bytes 5 0 0 0 0 0 0 ++ [])))
             5 0 0 0 0 0 0 []); [reflexivity|lia..].
Defined.

(** ** Where an ID3v2 tag ends *)

Lemma Forall_take_bytes {A} (P : A -> Prop) (n : Z) (l : list A) :
  Forall P l -> Forall P (if n <? 0 then l else firstn (Z.to_nat n) l).
Proof.
  intros H. destruct (n <? 0); [assumption|].
  rewrite <- (firstn_skipn (Z.to_nat n) l) in H. now apply Forall_app in H.
Qed.

Lemma Forall_remaining (P : Z -> Prop) (s : reader) :
  Forall P (raw s) -> Forall P (remaining s).
Proof.
  intros H. unfold remaining.
  rewrite <- (firstn_skipn (Z.to_nat (pos s)) (raw s)) in H.
  now apply Forall_app in H.
Qed.

Lemma decode_synchsafe_nonneg (data : bytes) (n : Z) :
  Forall is_byte data -> decode_synchsafe_int data 7 = Ok n -> 0 <= n.
Proof.
  unfold decode_synchsafe_int. intros Hdata.
  destruct (existsb _ data); [discriminate|]. intros [= <-].
  assert (H : forall acc, 0 <= acc ->
            0 <= fold_left (fun value element => Z.shiftl value 7 + element)
                   data acc); [|now apply H].
  induction Hdata as [|b data Hb _ IH]; intros acc Hacc; cbn [fold_left];
    [assumption|].
  apply IH. unfold is_byte in Hb.
  pose proof (proj2 (Z.shiftl_nonneg acc 7) Hacc). lia.
Qed.

Lemma read_pos (n : Z) (s : reader) :
  0 <= n ->
  pos (snd (read n s))
  = pos s + Z.min n (Z.of_nat (List.length (remaining s))).
Proof.
  intros Hn. rewrite pos_read. unfold take_bytes.
  destruct (Z.ltb_spec n 0); [lia|]. rewrite length_firstn. lia.
Qed.

Lemma read_remaining_length (n : Z) (s : reader) :
  0 <= pos s -> 0 <= n ->
  Z.of_nat (List.length (remaining (snd (read n s))))
  = Z.of_nat (List.length (remaining s))
    - Z.min n (Z.of_nat (List.length (remaining s))).
Proof.
  intros Hpos Hn. rewrite remaining_read, length_skipn by assumption. lia.
Qed.

Lemma header_load_Ok_facts (data : bytes) (h : ID3v2Header) :
  Forall is_byte data ->
  on_bytes ID3v2Header_load data = Ok h ->
  (10 <= List.length data)%nat /\ 0 <= hdr_size h.
Proof.
  intros Hdata H.
  destruct (header_load_Ok_shape data h H)
    as (major & revision & flags_ & s0 & s1 & s2 & s3 & more & ->).
  split; [rewrite length_app; cbn; lia|].
  rewrite ID3v2Header_load_more in H.
  apply rbind_Ok_inv in H as (version & _ & H).
  apply rbind_Ok_inv in H as (flags & _ & H).
  apply rbind_Ok_inv in H as (size & Hsize & H). injection H as <-.
  cbn [hdr_size]. apply decode_synchsafe_nonneg in Hsize; [assumption|].
  unfold header_bytes in Hdata. cbn in Hdata.
  repeat match goal with
         | H : Forall _ (_ :: _) |- _ => inversion H; clear H; subst
         end.
  repeat (constructor; [assumption|]). constructor.
Qed.

Lemma read_facts (n : Z) (s : reader) :
  0 <= pos s -> 0 <= n ->
  let s' := snd (read n s) in
  let len := Z.of_nat (List.length (remaining s)) in
  raw s' = raw s
  /\ pos s' = pos s + Z.min n len
  /\ Z.of_nat (List.length (remaining s')) = len - Z.min n len.
Proof.
  intros Hpos Hn. cbv zeta. split; [reflexivity|].
  split; [now apply read_pos|now apply read_remaining_length].
Qed.

Lemma struct_unpack_uint_length (n : nat) (b : bytes) (v : Z) :
  struct_unpack_uint n b = Ok v -> List.length b = n.
Proof.
  unfold struct_unpack_uint.
  destruct (Nat.eqb_spec (List.length b) n); [trivial|discriminate].
Qed.

Section TagExtent.

Variable V : Type.
Variable value_append : V -> item V -> result V.
Variable frame_trace : string -> Z -> Z -> bytes -> result (list (frame_obj V)).

(** X5: on a stream that does not start with "ID3", [ID3v2.load] raises
    [InvalidHeader] and leaves the reader where it was.  After a
    successful parse the reader has advanced by at least 10 bytes and by
    at most the recorded size, plus 4 when there is an extended header
    (the four bytes of its size field are read but not counted); it has
    advanced by exactly that much when the stream holds that many
    bytes. *)
Theorem X5_tag_extent (s : reader) :
  (take_bytes 3 (remaining s) <> bytes_of_string "ID3" ->
   ID3v2_load V value_append frame_trace s = (Raise InvalidHeader, s))
  /\ (forall (t : ID3v2 V) (s' : reader),
        0 <= pos s -> Forall is_byte (raw s) ->
        ID3v2_load V value_append frame_trace s = (Ok t, s') ->
        let extent :=
          ID3._size V t
          + (if extended (hdr_flags (_header V t)) then 4 else 0) in
        raw s' = raw s
        /\ pos s + 10 <= pos s' <= pos s + extent
        /\ (extent <= Z.of_nat (List.length (remaining s)) ->
            pos s' = pos s + extent)).
Proof.
  split.
  - intros Hmagic. unfold ID3v2_load, bind, peek.
    destruct (bytes_eqb (take_bytes 3 (remaining s)) (bytes_of_string "ID3"))
      eqn:E; [now apply bytes_eqb_eq in E|reflexivity].
  - intros t s' Hpos Hbytes H. unfold ID3v2_load in H.
    inv_step H. destruct (negb _); [discriminate H|].
    inv_step H. inv_step H. rename a into header, Hrun into Hheader.
    inv_step H. rename a into size1, Hrun into Hext, s0 into s2.
    inv_step H. rename a into size2, Hrun into Hfoot, s0 into s3.
    inv_step H. inv_step H. inv_step H. inv_step H.
    cbn [_header ID3._size].
    apply header_load_Ok_facts in Hheader as [Hlen Hsize];
      [|apply Forall_take_bytes, Forall_remaining, Hbytes].
    set (s1 := snd (read 10 s)) in *.
    assert (Hrem : 10 <= Z.of_nat (List.length (remaining s))).
    { apply take_bytes_short. lia. }
    assert (Hpos1 : pos s1 = pos s + 10) by (unfold s1; rewrite read_pos; lia).
    assert (Hrem1 : Z.of_nat (List.length (remaining s1))
                    = Z.of_nat (List.length (remaining s)) - 10)
      by (unfold s1; rewrite read_remaining_length; lia).
    assert (Hraw1 : raw s1 = raw s) by reflexivity.
    clearbody s1.
    assert (Hext' : exists ext_size,
              0 <= ext_size
              /\ size1 = 10 + hdr_size header + ext_size
              /\ raw s2 = raw s
              /\ pos s1 <= pos s2
              /\ pos s2 - pos s1
                 <= ext_size + (if extended (hdr_flags header) then 4 else 0)
              /\ Z.of_nat (List.length (remaining s2))
                 = Z.of_nat (List.length (remaining s1)) - (pos s2 - pos s1)
              /\ (ext_size + (if extended (hdr_flags header) then 4 else 0)
                  <= Z.of_nat (List.length (remaining s1)) ->
                  pos s2 - pos s1
                  = ext_size + (if extended (hdr_flags header) then 4 else 0))).
    { destruct (extended (hdr_flags header)).
      - do 5 inv_step Hext. rename a2 into ext_size.
        apply struct_unpack_uint_length in Hrun1.
        apply decode_synchsafe_nonneg in Hrun2;
          [|apply Forall_take_bytes, Forall_remaining; now rewrite Hraw1].
        destruct (read_facts 4 s1) as (Ra & Pa & La); [lia..|].
        destruct (read_facts ext_size (snd (read 4 s1))) as (Rb & Pb & Lb);
          [lia..|].
        assert (4 <= Z.of_nat (List.length (remaining s1)))
          by (apply take_bytes_short; lia).
        exists ext_size. repeat split; try lia. congruence.
      - inv_step Hext. exists 0. repeat split; lia || assumption. }
    destruct Hext' as (ext_size & Hext0 & -> & Hraw2 & Hle2 & Hup2 & Hrem2 & Heq2).
    assert (Hpos2 : 0 <= pos s2) by lia.
    assert (Hfoot' : size2 = 10 + hdr_size header + ext_size
                             + (if footer (hdr_flags header) then 10 else 0)
              /\ raw s3 = raw s
              /\ pos s2 <= pos s3
              /\ pos s3 - pos s2 <= (if footer (hdr_flags header) then 10 else 0)
              /\ Z.of_nat (List.length (remaining s3))
                 = Z.of_nat (List.length (remaining s2)) - (pos s3 - pos s2)
              /\ ((if footer (hdr_flags header) then 10 else 0)
                  <= Z.of_nat (List.length (remaining s2)) ->
                  pos s3 - pos s2
                  = (if footer (hdr_flags header) then 10 else 0))).
    { destruct (footer (hdr_flags header)).
      - do 2 inv_step Hfoot.
        destruct (read_facts 10 s2) as (Ra & Pa & La); [lia..|].
        repeat split; try lia. congruence.
      - inv_step Hfoot. repeat split; lia || assumption. }
    destruct Hfoot' as (-> & Hraw3 & Hle3 & Hup3 & Hrem3 & Heq3).
    destruct (read_facts (hdr_size header) s3) as (Rc & Pc & Lc); [lia..|].
    split; [congruence|]. split; [lia|].
    intros Hfull.
    destruct (extended (hdr_flags header)), (footer (hdr_flags header)); lia.
Qed.

End TagExtent.

Lemma X5_witness :
  ID3v2_load unit (no_append unit) (no_frames unit)
    (mkReader (bytes_of_string "RIFF") 0)
  = (Raise InvalidHeader, mkReader (bytes_of_string "RIFF") 0)
  /\ match ID3v2_load unit (no_append unit) (no_frames unit) extended_tag with
     | (Ok t, s') =>
         let extent :=
           ID3._size unit t
           + (if extended (hdr_flags (_header unit t)) then 4 else 0) in
         raw s' = raw extended_tag
         /\ pos extended_tag + 10 <= pos s' <= pos extended_tag + extent
         /\ (extent <= Z.of_nat (List.length (remaining extended_tag)) ->
             pos s' = pos extended_tag + extent)
     | (Raise _, _) => False
     end.
Proof.
  split.
  - apply (proj1 (X5_tag_extent unit (no_append unit) (no_frames unit)
                    (mkReader (bytes_of_string "RIFF") 0))).
    discriminate.
  - destruct (ID3v2_load unit (no_append unit) (no_frames unit) extended_tag)
      as [[t|e] s'] eqn:E.
    + apply (proj2 (X5_tag_extent unit (no_append unit) (no_frames unit)
                      extended_tag) t s'); [cbn; lia| |exact E].
      unfold is_byte. cbn. repeat (constructor; [lia|]). constructor.
    + vm_compute in E. discriminate E.
Defined.

Example extended_tag_extent :
  exists t s',
    ID3v2_load unit (no_append unit) (no_frames unit) extended_tag = (Ok t, s')
    /\ ID3._size unit t = 26 /\ pos s' = 30.
Proof. eexists. eexists. split; [vm_compute; reflexivity|]. now cbn. Qed.

(** ** The frame aggregator *)

Lemma dict_set_set {A} (d : dict A) (k : string) (v v' : A) :
  dict_set (dict_set d k v) k v' = dict_set d k v'.
Proof.
  induction d as [|[k0 v0] d IH]; cbn.
  - now rewrite String.eqb_refl.
  - destruct (String.eqb k0 k) eqn:E; cbn; rewrite E; [reflexivity|].
    now rewrite IH.
Qed.

Section Aggregator.

Variable V : Type.
Variable value_append : V -> item V -> result V.

Lemma fold_frames_app (t1 t2 : list (frame_obj V)) (frames : dict (tagval V)) :
  fold_frames V value_append (t1 ++ t2) frames
  = rbind (fold_frames V value_append t1 frames)
          (fold_frames V value_append t2).
Proof.
  revert frames. induction t1 as [|f t1 IH]; intros frames; cbn; [reflexivity|].
  destruct (fold_frame V value_append frames f); cbn; [apply IH|reflexivity].
Qed.

Lemma fold_frames_others (id : string) (values : list V) :
  forall (frames : dict (tagval V)) (l0 : list (item V)),
    (dict_get frames id = None /\ l0 = []
     \/ dict_get frames id = Some (Appended V l0)) ->
    values <> [] ->
    fold_frames V value_append (map (OtherFrame V id) values) frames
    = Ok (dict_set frames id (Appended V (l0 ++ map (Plain V) values))).
Proof.
  induction values as [|v values IH]; intros frames l0 Hl0 Hne;
    [contradiction|].
  cbn [map fold_frames fold_frame]. unfold append_to.
  assert (E : match dict_get frames id with
              | None => Ok (dict_set frames id (Appended V [Plain V v]))
              | Some (Appended _ l) =>
                  Ok (dict_set frames id (Appended V (l ++ [Plain V v])))
              | Some (Assigned _ v0) =>
                  rbind (value_append v0 (Plain V v))
                    (fun v' => Ok (dict_set frames id (Assigned V v')))
              end
              = Ok (dict_set frames id (Appended V (l0 ++ [Plain V v])))).
  { destruct Hl0 as [[-> ->]| ->]; reflexivity. }
  rewrite E. cbn [rbind].
  destruct values as [|v' values]; [reflexivity|].
  rewrite (IH _ (l0 ++ [Plain V v]));
    [|right; apply dict_get_set_same|discriminate].
  rewrite dict_set_set, <- app_assoc. reflexivity.
Qed.

(** X6: the aggregator ignores what is no frame object, wherever it
    stands in the stream; a stream cut in two is folded part after part;
    and the values of frames of the list kind that share an id are
    collected in a list in the order of the stream, after the values that
    the list held already. *)
Theorem X6_aggregator_order (frames : dict (tagval V)) :
  (forall trace,
     fold_frames V value_append (filter is_base_frame trace) frames
     = fold_frames V value_append trace frames)
  /\ (forall t1 t2,
        fold_frames V value_append (t1 ++ t2) frames
        = rbind (fold_frames V value_append t1 frames)
                (fold_frames V value_append t2))
  /\ (forall id values l0,
        (dict_get frames id = None /\ l0 = []
         \/ dict_get frames id = Some (Appended V l0)) ->
        values <> [] ->
        exists frames',
          fold_frames V value_append (map (OtherFrame V id) values) frames
          = Ok frames'
          /\ dict_get frames' id
             = Some (Appended V (l0 ++ map (Plain V) values))
          /\ forall key, key <> id -> dict_get frames' key = dict_get frames key).
Proof.
  split; [|split].
  - intros trace. revert frames.
    induction trace as [|f trace IH]; intros frames; [reflexivity|].
    destruct f; cbn [filter is_base_frame fold_frames fold_frame rbind];
      try apply IH;
      match goal with
      | |- rbind ?x _ = rbind ?x _ => destruct x; cbn [rbind]; [apply IH|reflexivity]
      end.
  - intros t1 t2. apply fold_frames_app.
  - intros id values l0 Hl0 Hne. eexists.
    split; [exact (fold_frames_others id values frames l0 Hl0 Hne)|].
    split; [apply dict_get_set_same|].
    intros key Hkey. now apply dict_get_set_other.
Qed.

End Aggregator.

Lemma X6_witness :
  exists frames',
    fold_frames string (no_append string)
      (map (OtherFrame string "APIC") ["front"; "back"]%string) []
    = Ok frames'
    /\ dict_get frames' "APIC"
       = Some (Appended string ([] ++ map (Plain string) ["front"; "back"]%string))
    /\ forall key, key <> "APIC"%string -> dict_get frames' key = dict_get [] key.
Proof.
  apply (proj2 (proj2 (X6_aggregator_order string (no_append string) []))
           "APIC"%string ["front"; "back"]%string []);
    [left; split; reflexivity|discriminate].
Defined.

(** ** The pictures of a tag *)

Section Pictures.

Variable V : Type.
Variable value_append : V -> item V -> result V.
Variable frame_trace : string -> Z -> Z -> bytes -> result (list (frame_obj V)).

Lemma ID3v2Frames_load_wf (data : bytes) (id3_version : ID3Version)
    (t : Tags V) :
  ID3v2Frames_load V value_append frame_trace data id3_version = Ok t ->
  FIELD_MAP V t = field_map_of id3_version /\ dict_wf (entries V t).
Proof.
  unfold ID3v2Frames_load. intros H.
  destruct id3_version;
    apply rbind_Ok_inv in H as (trace & _ & H);
    apply rbind_Ok_inv in H as (frames & _ & H);
    injection H as <-; apply Tags_of_wf.
Qed.

(** X7: the tags of a parsed ID3v2 tag do not hold the pictures any more:
    looking up "pictures" there raises [KeyError].  The pictures of the
    tag are what the aggregator had stored under the picture id of the
    version, or an empty list, and every other entry of the tags is as the
    aggregator left it.  In particular, if the body holds picture frames
    only, the pictures are their values in the order of the stream and the
    tags are empty. *)
Theorem X7_pictures_popped (s s' : reader) (t : ID3v2 V) :
  ID3v2_load V value_append frame_trace s = (Ok t, s') ->
  Tags_getitem V (tags V t) "pictures" = Raise KeyError
  /\ dict_wf (entries V (tags V t))
  /\ (exists body full,
        ID3v2Frames_load V value_append frame_trace body
          (hdr_version (_header V t)) = Ok full
        /\ pictures V t
           = match Tags_getitem V full "pictures" with
             | Ok value => value
             | Raise _ => Appended V []
             end
        /\ forall key,
             field_map_get (FIELD_MAP V full) key
             <> field_map_get (FIELD_MAP V full) "pictures" ->
             Tags_getitem V (tags V t) key = Tags_getitem V full key)
  /\ (forall values,
        values <> [] ->
        (forall pattern size_len per_byte body,
           frame_trace pattern size_len per_byte body
           = Ok (map (OtherFrame V (picture_id (hdr_version (_header V t))))
                     values)) ->
        pictures V t = Appended V (map (Plain V) values)
        /\ entries V (tags V t) = []).
Proof.
  unfold ID3v2_load. intros H.
  inv_step H. destruct (negb _); [discriminate H|].
  do 7 inv_step H.
  match goal with
  | H1 : on_bytes _ _ = Ok ?x |- _ => rename x into header
  end.
  match goal with
  | H1 : ID3v2Frames_load _ _ _ _ _ = Ok ?x |- _ =>
      rename x into full, H1 into Hfull
  end.
  match goal with
  | H1 : Tags_pop _ _ _ _ = Ok ?x |- _ => rename x into popped, H1 into Hpop
  end.
  inv_step H. cbn [tags pictures _header].
  destruct (ID3v2Frames_load_wf _ _ _ Hfull) as [Hfm Hwf].
  unfold Tags_pop in Hpop.
  assert (Hcases :
    (Tags_getitem V full "pictures" = Raise KeyError /\ popped = (Appended V [], full))
    \/ (exists value,
          Tags_getitem V full "pictures" = Ok value
          /\ popped
             = (value,
                mkTags V (FIELD_MAP V full)
                  (dict_del (entries V full)
                     (field_map_get (FIELD_MAP V full) "pictures"))))).
  { unfold Tags_getitem, Tags_delitem in *.
    destruct (dict_get (entries V full)
                (field_map_get (FIELD_MAP V full) "pictures")) as [value|];
      cbn [rbind] in Hpop; injection Hpop as <-; [right; eauto|now left]. }
  split; [|split; [|split]].
  - destruct Hcases as [[E ->]|(value & E & ->)]; cbn [snd]; [exact E|].
    unfold Tags_getitem. cbn [FIELD_MAP entries].
    now rewrite dict_get_del_same.
  - destruct Hcases as [[E ->]|(value & E & ->)]; cbn [snd entries];
      [assumption|now apply dict_del_wf].
  - eexists. exists full. split; [exact Hfull|].
    destruct Hcases as [[E ->]|(value & E & ->)]; rewrite E; cbn [fst snd].
    + now split.
    + split; [reflexivity|]. intros key Hkey.
      unfold Tags_getitem. cbn [FIELD_MAP entries].
      now rewrite dict_get_del_other.
  - intros values Hne Htrace.
    assert (Efull : full
              = mkTags V (field_map_of (hdr_version header))
                  [(picture_id (hdr_version header),
                    Appended V (map (Plain V) values))]).
    { unfold ID3v2Frames_load in Hfull.
      destruct (hdr_version header); rewrite Htrace in Hfull; cbn [rbind] in Hfull;
        rewrite (fold_frames_others V value_append _ values [] [])
          in Hfull by (assumption || (left; now split));
        injection Hfull as <-; reflexivity. }
    rewrite Efull in Hcases.
    destruct Hcases as [[E _]|(value & E & ->)];
      [destruct (hdr_version header); discriminate E|].
    destruct (hdr_version header); injection E as <-; now split.
Qed.

End Pictures.

Lemma X7_witness :
  match ID3v2_load string (no_append string) two_pictures picture_tag with
  | (Ok t, _) =>
      pictures string t = Appended string (map (Plain string) ["front"; "back"]%string)
      /\ entries string (tags string t) = []
  | (Raise _, _) => False
  end.
Proof.
  destruct (ID3v2_load string (no_append string) two_pictures picture_tag)
    as [[t|e] s'] eqn:E.
  - apply (proj2 (proj2 (proj2
             (X7_pictures_popped string (no_append string) two_pictures
                picture_tag s' t E)))); [discriminate|].
    intros pattern size_len per_byte body.
    vm_compute in E. injection E as <- _. reflexivity.
  - vm_compute in E. discriminate E.
Defined.

(** ** Every decoded frame header *)

Lemma bits_at_range (w below width : Z) :
  0 <= width -> 0 <= bits_at w below width < 2 ^ width.
Proof.
  intros Hw. unfold bits_at. rewrite Z.land_ones by assumption.
  apply Z.mod_pos_bound. now apply Z.pow_pos_nonneg.
Qed.

(** X8: a frame header that decodes starts where the reader stood and
    moves the reader forward; its layer is 1, 2 or 3; its channel mode is
    0 to 3 and it has one channel exactly when the mode is 3 and two
    otherwise; its padding is 0 or 1; its bitrate is 1000 times an entry
    of the bitrate table of its version and layer; its size is
    ((samples-per-frame // 8 * bitrate) // sample-rate + padding) * slot
    size for the entry of the samples-per-frame table; and only a layer-3
    frame carries a Xing or a VBRI header. *)
Theorem X8_frame_invariants (T : Tables) (s s' : reader)
    (frame : MPEGFrameHeader) :
  MPEGFrameHeader_load T s = (Ok frame, s') ->
  _start frame = pos s
  /\ pos s < pos s'
  /\ raw s' = raw s
  /\ 1 <= layer frame <= 3
  /\ 0 <= channel_mode frame <= 3
  /\ MP3ChannelMode T (channel_mode frame) = true
  /\ channels frame = (if channel_mode frame =? 3 then 1 else 2)
  /\ 0 <= padded frame <= 1
  /\ (exists rates rate,
        MP3Bitrates T (version frame) (layer frame) = Some rates
        /\ In rate rates /\ bitrate frame = rate * 1000)
  /\ (exists sample_rates,
        MP3SampleRates T (version frame) = Some sample_rates
        /\ In (sample_rate frame) sample_rates
        /\ sample_rate frame <> 0)
  /\ (exists samples_per_frame slot_size,
        MP3SamplesPerFrame T (version frame) (layer frame)
        = Some (samples_per_frame, slot_size)
        /\ _size frame
           = ((samples_per_frame / 8 * bitrate frame) / sample_rate frame
              + padded frame) * slot_size)
  /\ (layer frame <> 3 -> _xing frame = None /\ _vbri frame = None).
Proof.
  intros H.
  destruct (stays_MPEGFrameHeader_load T _ _ _ H) as [Hraw _].
  unfold MPEGFrameHeader_load in H.
  inv_step H. inv_step H. inv_step H.
  apply bitstruct_unpack_Ok_inv in Hrun as [Hlen ->].
  cbv [unpack_fields] in H. cbv iota beta in H.
  destruct (negb _); [discriminate H|].
  inv_step H. inv_step H.
  apply bitstruct_unpack_Ok_inv in Hrun as [_ ->].
  cbv [unpack_fields] in H. cbv iota beta in H.
  match type of H with
  | context [Z.eqb (bits_at ?w ?b 2) 0] =>
      pose proof (bits_at_range w b 2 ltac:(lia)) as Hlayer;
      set (layer_index := bits_at w b 2) in *
  end.
  match type of H with
  | context [bits_at ?w ?b 1] =>
      pose proof (bits_at_range w b 1 ltac:(lia)) as Hpadded;
      set (padding_bit := bits_at w b 1) in *
  end.
  destruct (Z.eqb_spec layer_index 0) as [|Hlayer0];
    [rewrite orb_true_r in H; discriminate H|].
  destruct (_ || _); [discriminate H|].
  inv_step H. inv_step H.
  apply bitstruct_unpack_Ok_inv in Hrun as [_ ->].
  inv_step H. rename Hrun into Hindex.
  cbv [unpack_fields] in Hindex.
  match type of Hindex with
  | context [bits_at ?w ?b 2] =>
      pose proof (bits_at_range w b 2 ltac:(lia)) as Hmode;
      set (mode_bits := bits_at w b 2) in *
  end.
  cbn in Hindex. injection Hindex as <-.
  inv_step H. rename Hrun into Henum.
  unfold enum in Henum.
  destruct (MP3ChannelMode T mode_bits) eqn:Hmember; [|discriminate Henum].
  injection Henum as <-.
  do 6 inv_step H.
  match goal with
  | H1 : lookup (MP3SamplesPerFrame _ _ _) = Ok ?p |- _ =>
      destruct p as [samples_per_frame slot_size]; rename H1 into Hlspf
  end.
  do 2 inv_step H.
  match goal with
  | H1 : lookup (MP3Bitrates _ _ _) = Ok ?x |- _ =>
      rename x into rates, H1 into Hlrates
  end.
  match goal with
  | H1 : index rates _ = Ok ?x |- _ => rename x into rate, H1 into Hrate
  end.
  match goal with
  | H1 : lookup (MP3SampleRates _ _) = Ok ?x |- _ =>
      rename x into sample_rates, H1 into Hlsamples
  end.
  match goal with
  | H1 : index sample_rates _ = Ok ?x |- _ =>
      rename x into sample_rate_, H1 into Hsample_rate
  end.
  match goal with
  | H1 : floordiv _ _ = Ok ?x |- _ => rename x into slots, H1 into Hslots
  end.
  match goal with
  | H1 : _ _ = (Ok ?x, _) |- _ =>
      lazymatch type of x with
      | (option VBRIHeader * option XingHeader)%type =>
          rename x into headers, H1 into Hheaders
      end
  end.
  inv_step H.
  cbn [_start _size _xing _vbri layer channel_mode channels padded bitrate
       sample_rate version].
  apply lookup_Ok_inv in Hlrates, Hlsamples, Hlspf.
  apply index_Ok_In in Hrate, Hsample_rate.
  unfold floordiv in Hslots.
  destruct (Z.eqb_spec sample_rate_ 0) as [|Hnonzero]; [discriminate Hslots|].
  injection Hslots as <-.
  change (format_width _) with 16 in Hlen.
  assert (Hafter : pos s + 1
                   <= pos (snd (read 1 (snd (read 1 (snd (read 2 s)))))))
    by (rewrite !pos_read; lia).
  split; [reflexivity|]. split.
  { destruct (_ =? 3).
    - apply (stays_vbr_headers_load T (pos s + 1)) in Hheaders; lia.
    - inv_step Hheaders. lia. }
  split; [assumption|]. split; [lia|]. split; [lia|].
  split; [assumption|]. split; [reflexivity|]. split; [lia|].
  split; [exists rates, rate; now repeat split|].
  split; [exists sample_rates; now repeat split|].
  split; [exists samples_per_frame, slot_size; now split|].
  intros Hnot3. destruct (Z.eqb_spec (4 - layer_index) 3); [contradiction|].
  inv_step Hheaders. now split.
Qed.

Lemma X8_witness :
  match MPEGFrameHeader_load std_tables four_frames with
  | (Ok frame, s') =>
      _start frame = pos four_frames
      /\ pos four_frames < pos s'
      /\ raw s' = raw four_frames
      /\ 1 <= layer frame <= 3
      /\ 0 <= channel_mode frame <= 3
      /\ MP3ChannelMode std_tables (channel_mode frame) = true
      /\ channels frame = (if channel_mode frame =? 3 then 1 else 2)
      /\ 0 <= padded frame <= 1
      /\ (exists rates rate,
            MP3Bitrates std_tables (version frame) (layer frame) = Some rates
            /\ In rate rates /\ bitrate frame = rate * 1000)
      /\ (exists sample_rates,
            MP3SampleRates std_tables (version frame) = Some sample_rates
            /\ In (sample_rate frame) sample_rates
            /\ sample_rate frame <> 0)
      /\ (exists samples_per_frame slot_size,
            MP3SamplesPerFrame std_tables (version frame) (layer frame)
            = Some (samples_per_frame, slot_size)
            /\ _size frame
               = ((samples_per_frame / 8 * bitrate frame) / sample_rate frame
                  + padded frame) * slot_size)
      /\ (layer frame <> 3 -> _xing frame = None /\ _vbri frame = None)
  | (Raise _, _) => False
  end.
Proof.
  destruct (MPEGFrameHeader_load std_tables four_frames)
    as [[frame|e] s'] eqn:E.
  - exact (X8_frame_invariants std_tables _ _ _ E).
  - vm_compute in E. discriminate E.
Defined.

(** ** The LAME header *)

Lemma read_full_or_end (n : Z) (s : reader) :
  0 <= pos s -> 0 <= n ->
  Z.of_nat (List.length (take_bytes n (remaining s))) = n
  \/ remaining (snd (read n s)) = [].
Proof.
  intros Hpos Hn. rewrite remaining_read by assumption.
  unfold take_bytes. destruct (Z.ltb_spec n 0); [lia|].
  rewrite length_firstn.
  destruct (Nat.le_gt_cases (Z.to_nat n) (List.length (remaining s))).
  - left. lia.
  - right. apply skipn_all2. lia.
Qed.

Lemma bitstruct_read_length (fmt : list bitfield) (n : Z) (r : bytes)
    (fs : list Z) :
  0 <= n -> 8 * (n - 1) < format_width fmt ->
  bitstruct_unpack fmt (take_bytes n r) = Ok fs ->
  Z.of_nat (List.length (take_bytes n r)) = n.
Proof.
  intros Hn Hw H. apply bitstruct_unpack_Ok_inv in H as [H _].
  pose proof (take_bytes_length n r Hn). lia.
Qed.

Lemma read_exact (n : Z) (s : reader) :
  Z.of_nat (List.length (take_bytes n (remaining s))) = n ->
  raw (snd (read n s)) = raw s /\ pos (snd (read n s)) = pos s + n.
Proof. intros H. rewrite pos_read. split; [reflexivity|lia]. Qed.

Lemma be_uint_range (b : bytes) :
  Forall is_byte b -> 0 <= be_uint b < 256 ^ Z.of_nat (List.length b).
Proof.
  unfold be_uint. intros Hb.
  assert (H : forall acc k, 0 <= acc < 256 ^ Z.of_nat k ->
            0 <= fold_left (fun acc b => acc * 256 + b) b acc
            < 256 ^ Z.of_nat (k + List.length b)).
  { induction Hb as [|x b Hx _ IH]; intros acc k Hacc; cbn [fold_left].
    - now rewrite Nat.add_0_r.
    - change (List.length (x :: b)) with (S (List.length b)).
      replace (k + S (List.length b))%nat with (S k + List.length b)%nat by lia.
      apply IH. rewrite Nat2Z.inj_succ, Z.pow_succ_r by lia.
      unfold is_byte in Hx. nia. }
  apply (H 0 0%nat). cbn. lia.
Qed.

Lemma Forall_read (P : Z -> Prop) (n : Z) (s : reader) :
  Forall P (raw s) -> Forall P (take_bytes n (remaining s)).
Proof.
  intros H. apply Forall_take_bytes. now apply Forall_remaining.
Qed.

(** A successful [gain_load] has read two bytes. *)
Lemma gain_load_Ok (T : Tables) (s s' : reader) (g : Z * Z * Q) :
  gain_load T s = (Ok g, s') ->
  raw s' = raw s /\ pos s' = pos s + 2
  /\ LAMEReplayGainType T (fst (fst g)) = true
  /\ LAMEReplayGainOrigin T (snd (fst g)) = true.
Proof.
  unfold gain_load. intros H. inv_step H. inv_step H.
  apply bitstruct_read_length in Hrun as Hlen; [|lia|cbn; lia].
  apply read_exact in Hlen as [Hraw Hpos].
  destruct a as [|t [|o [|sg [|adj [|]]]]]; try discriminate H.
  clear Hrun.
  inv_step H. rename Hrun into Htype. inv_step H. rename Hrun into Horigin.
  inv_step H. cbn [fst snd].
  unfold enum in Htype, Horigin.
  destruct (LAMEReplayGainType T t) eqn:Et; [|discriminate Htype].
  destruct (LAMEReplayGainOrigin T o) eqn:Eo; [|discriminate Horigin].
  injection Htype as <-. injection Horigin as <-. auto.
Qed.

Lemma LAMEReplayGain_load_Ok (T : Tables) (s s' : reader) (rg : LAMEReplayGain) :
  LAMEReplayGain_load T s = (Ok rg, s') ->
  raw s' = raw s /\ pos s' = pos s + 8
  /\ LAMEReplayGainType T (track_type rg) = true
  /\ LAMEReplayGainOrigin T (track_origin rg) = true
  /\ LAMEReplayGainType T (album_type rg) = true
  /\ LAMEReplayGainOrigin T (album_origin rg) = true.
Proof.
  unfold LAMEReplayGain_load. intros H. inv_step H. inv_step H.
  apply struct_unpack_uint_length in Hrun.
  assert (Hlen : Z.of_nat (List.length (take_bytes 4 (remaining s))) = 4)
    by (rewrite Hrun; reflexivity).
  apply read_exact in Hlen as [Hraw Hpos].
  apply bind_Ok_inv in H as ([[tt' to'] ta] & s2 & Htrack & H).
  apply bind_Ok_inv in H as ([[at' ao'] aa] & s3 & Halbum & H).
  inv_step H.
  apply gain_load_Ok in Htrack as (Hr2 & Hp2 & Ht1 & Ht2).
  apply gain_load_Ok in Halbum as (Hr3 & Hp3 & Ha1 & Ha2).
  cbn [fst snd track_type track_origin album_type album_origin] in *.
  repeat split; try assumption; try congruence; lia.
Qed.

Lemma struct_unpack_uint_Ok (n : nat) (b : bytes) (v : Z) :
  struct_unpack_uint n b = Ok v -> List.length b = n /\ v = be_uint b.
Proof.
  unfold struct_unpack_uint.
  destruct (Nat.eqb_spec (List.length b) n); [|discriminate].
  now intros [= <-].
Qed.

Lemma signed_range (u n : Z) :
  0 < n -> 0 <= u < 2 ^ n ->
  - 2 ^ (n - 1) <= (if u <? 2 ^ (n - 1) then u else u - 2 ^ n) < 2 ^ (n - 1).
Proof.
  intros Hn Hu.
  assert (E : 2 ^ n = 2 * 2 ^ (n - 1)).
  { replace n with (Z.succ (n - 1)) at 1 by lia. apply Z.pow_succ_r. lia. }
  destruct (Z.ltb_spec u (2 ^ (n - 1))); lia.
Qed.

Lemma enum_Ok_inv (member : Z -> bool) (v w : Z) :
  enum member v = Ok w -> w = v /\ member v = true.
Proof.
  unfold enum. destruct (member v); [now intros [= <-]|discriminate].
Qed.

(** The reader after a read whose length is known. *)
Ltac next_state Hlen sN Hr Hp :=
  match type of Hlen with
  | Z.of_nat (List.length (take_bytes ?n (remaining ?s0))) = _ =>
      pose proof (read_exact n s0 Hlen) as [Hr Hp];
      set (sN := snd (read n s0)) in *
  end.

(** A [bitstruct] read that succeeded: its length and its fields. *)
Ltac pin_bits H Hlen :=
  apply bitstruct_read_length in H as Hlen; [|lia|cbn; lia];
  apply bitstruct_unpack_Ok_inv in H as [_ H];
  rewrite Hlen in H; cbn [unpack_fields] in H.

(** The source is the same after a chain of reads. *)
Ltac same_raw :=
  repeat match goal with
         | H : raw ?a = raw _ |- raw ?a = _ => rewrite H
         end;
  reflexivity.

(** A [struct] read of one unsigned field that succeeded. *)
Ltac pin_uint H Hlen :=
  apply struct_unpack_uint_Ok in H as [Hlen H];
  apply (f_equal Z.of_nat) in Hlen; cbn [Z.of_nat Pos.of_succ_nat Pos.succ] in Hlen.

(** X10: a LAME header that decodes from a stream of bytes has consumed
    exactly 36 bytes, the first four of them [LAME]; its revision and ATH
    type are 4-bit values, its delay and padding 12-bit values, its MP3
    gain a signed byte, its source sample rate and noise shaping 2-bit
    values and its unwise-settings flag one bit; its bitrate is 1000 times
    a byte and its lowpass filter 100 times a byte; its audio size is a
    32-bit value and its two checksums have two bytes each; its bitrate
    mode, channel mode, surround info and preset are members of their
    enumerations, as are the types and origins of its replay gain. *)
Theorem X10_lame_header (T : Tables) (xing_quality : option Z) (s s' : reader)
    (lame : LAMEHeader) :
  0 <= pos s -> Forall is_byte (raw s) ->
  LAMEHeader_load T xing_quality s = (Ok lame, s') ->
  raw s' = raw s /\ pos s' = pos s + 36
  /\ startswith (take_bytes 9 (remaining s)) (bytes_of_string "LAME") = true
  /\ lame_version lame = lame_version_of (take_bytes 9 (remaining s))
  /\ 0 <= revision lame < 16 /\ 0 <= ath_type lame < 16
  /\ 0 <= delay lame < 4096 /\ 0 <= padding lame < 4096
  /\ -128 <= mp3_gain lame < 128
  /\ 0 <= source_sample_rate lame < 4
  /\ 0 <= unwise_settings_used lame < 2
  /\ 0 <= noise_shaping lame < 4
  /\ (exists rate, 0 <= rate < 256 /\ lame_bitrate lame = rate * 1000)
  /\ (exists lowpass, 0 <= lowpass < 256 /\ lowpass_filter lame = lowpass * 100)
  /\ 0 <= lame_audio_size lame < 2 ^ 32
  /\ List.length (audio_crc lame) = 2%nat /\ List.length (_crc lame) = 2%nat
  /\ LAMEBitrateMode T (lame_bitrate_mode lame) = true
  /\ LAMEChannelMode T (lame_channel_mode lame) = true
  /\ LAMESurroundInfo T (surround_info lame) = true
  /\ LAMEPreset T (preset lame) = true
  /\ LAMEReplayGainType T (track_type (replay_gain lame)) = true
  /\ LAMEReplayGainOrigin T (track_origin (replay_gain lame)) = true
  /\ LAMEReplayGainType T (album_type (replay_gain lame)) = true
  /\ LAMEReplayGainOrigin T (album_origin (replay_gain lame)) = true.
Proof.
  intros Hpos Hbytes H. unfold LAMEHeader_load in H.
  inv_step H.
  destruct (startswith _ _) eqn:Hmagic; [|discriminate H]. cbn [negb] in H.
  assert (Hlen0 : Z.of_nat (List.length (take_bytes 9 (remaining s))) = 9
                  \/ remaining (snd (read 9 s)) = [])
    by (apply read_full_or_end; lia).
  inv_step H. inv_step H. rename Hrun into Hrev.
  pin_bits Hrev Hlen1.
  destruct Hlen0 as [Hlen0|Hend]; [|rewrite Hend in Hlen1; discriminate Hlen1].
  next_state Hlen0 s1 Hr1 Hp1. next_state Hlen1 s2 Hr2 Hp2.
  subst a. cbv iota in H.
  inv_step H. rename Hrun into Hmode. apply enum_Ok_inv in Hmode as [-> Hmode].
  inv_step H. inv_step H. rename Hrun into Hlow, a into lowpass.
  pin_uint Hlow Hlen3. next_state Hlen3 s3 Hr3 Hp3.
  apply bind_Ok_inv in H as (rg & s4 & Hgain & H).
  apply LAMEReplayGain_load_Ok in Hgain as (Hr4 & Hp4 & Hg1 & Hg2 & Hg3 & Hg4).
  inv_step H. inv_step H. rename Hrun into Hflags.
  pin_bits Hflags Hlen5. next_state Hlen5 s5 Hr5 Hp5.
  subst a. cbv iota in H.
  inv_step H. inv_step H. rename Hrun into Hrate, a into rate.
  pin_uint Hrate Hlen6. next_state Hlen6 s6 Hr6 Hp6.
  inv_step H. inv_step H. rename Hrun into Hdelay.
  pin_bits Hdelay Hlen7. next_state Hlen7 s7 Hr7 Hp7.
  subst a. cbv iota in H.
  inv_step H. inv_step H. rename Hrun into Hmisc.
  pin_bits Hmisc Hlen8. next_state Hlen8 s8 Hr8 Hp8.
  subst a. cbv iota in H.
  inv_step H. rename Hrun into Hchannel.
  apply enum_Ok_inv in Hchannel as [-> Hchannel].
  inv_step H. inv_step H. rename Hrun into Hgainb.
  pin_bits Hgainb Hlen9. next_state Hlen9 s9 Hr9 Hp9.
  subst a. inv_step H. rename Hrun into Hindex, a into gain.
  injection Hindex as Hindex.
  inv_step H. inv_step H. rename Hrun into Hsurround.
  pin_bits Hsurround Hlen10. next_state Hlen10 s10 Hr10 Hp10.
  subst a. cbv iota in H.
  inv_step H. rename Hrun into Hsur. apply enum_Ok_inv in Hsur as [-> Hsur].
  inv_step H. rename Hrun into Hpreset.
  apply enum_Ok_inv in Hpreset as [-> Hpreset].
  inv_step H.
  destruct (Nat.eqb_spec (List.length (take_bytes 8 (remaining s10))) 8)
    as [Hlen11|]; [|discriminate H].
  cbn [negb] in H. inv_step H.
  assert (Hlen11' : Z.of_nat (List.length (take_bytes 8 (remaining s10))) = 8)
    by (rewrite Hlen11; reflexivity).
  next_state Hlen11' s11 Hr11 Hp11.
  assert (HB : forall n t, raw t = raw s ->
                 Forall is_byte (take_bytes n (remaining t))).
  { intros n t E. apply Forall_read. now rewrite E. }
  assert (Hbits : forall w below width bound,
            0 <= width -> bound = 2 ^ width ->
            0 <= bits_at w below width < bound).
  { intros w below width bound Hw ->. now apply bits_at_range. }
  assert (Hbyte : forall t, raw t = raw s ->
            Z.of_nat (List.length (take_bytes 1 (remaining t))) = 1 ->
            0 <= be_uint (take_bytes 1 (remaining t)) < 256).
  { intros t E Hlen. pose proof (be_uint_range _ (HB 1 t E)) as Hrange.
    rewrite Hlen in Hrange. exact Hrange. }
  cbn [revision ath_type delay padding mp3_gain source_sample_rate
       unwise_settings_used noise_shaping lame_bitrate lowpass_filter
       lame_audio_size audio_crc _crc lame_bitrate_mode lame_channel_mode
       surround_info preset replay_gain lame_version].
  repeat lazymatch goal with
         | |- _ <= _ < _ => fail
         | |- _ /\ _ => split
         end;
    try assumption; try reflexivity; try (apply Hbits; [lia|reflexivity]).
  - lia.
  - subst gain. change (Z.pow_pos 2 7) with 128. change (Z.pow_pos 2 8) with 256.
    assert (0 <= bits_at (be_uint (take_bytes 1 (remaining s8))) 0 8 < 256)
      by (apply Hbits; [lia|reflexivity]).
    destruct (Z.ltb_spec (bits_at (be_uint (take_bytes 1 (remaining s8))) 0 8)
                128); lia.
  - exists rate. split; [|reflexivity]. subst rate. apply Hbyte; [same_raw|assumption].
  - exists lowpass. split; [|reflexivity]. subst lowpass.
    apply Hbyte; [same_raw|assumption].
  - assert (Hf : Forall is_byte (firstn 4 (take_bytes 8 (remaining s10)))).
    { apply (Forall_take_bytes is_byte 4). apply HB. same_raw. }
    apply be_uint_range in Hf. rewrite length_firstn, Hlen11 in Hf.
    exact Hf.
  - rewrite length_firstn, length_skipn, Hlen11. reflexivity.
  - rewrite length_skipn, Hlen11. reflexivity.
Qed.

Lemma X10_witness :
  match LAMEHeader_load std_tables None (mkReader lame_tag 0) with
  | (Ok lame, s') =>
      pos s' = 36 /\ delay lame = 576 /\ padding lame = 1404
      /\ lame_version lame = Some (3, 99)
  | _ => False
  end.
Proof.
  destruct (LAMEHeader_load std_tables None (mkReader lame_tag 0))
    as [[lame|e] s'] eqn:E.
  - assert (HX : pos s' = pos (mkReader lame_tag 0) + 36).
    { apply (X10_lame_header std_tables None (mkReader lame_tag 0) s' lame);
        [cbn; lia| |exact E].
      repeat constructor; cbv; intuition discriminate. }
    split; [exact HX|].
    vm_compute in E. injection E as <- _. repeat split.
  - vm_compute in E. discriminate E.
Defined.

(** ** The Xing header *)

Ltac subst_fields H :=
  match type of H with ?fs = _ => subst fs end.

(** The extent of a LAME header, for any source. *)
Lemma LAMEHeader_load_extent (T : Tables) (xing_quality : option Z)
    (s s' : reader) (lame : LAMEHeader) :
  0 <= pos s ->
  LAMEHeader_load T xing_quality s = (Ok lame, s') ->
  raw s' = raw s /\ pos s' = pos s + 36.
Proof.
  intros Hpos H. unfold LAMEHeader_load in H.
  inv_step H.
  destruct (startswith _ _) eqn:Hmagic; [|discriminate H]. cbn [negb] in H.
  assert (Hlen0 : Z.of_nat (List.length (take_bytes 9 (remaining s))) = 9
                  \/ remaining (snd (read 9 s)) = [])
    by (apply read_full_or_end; lia).
  inv_step H. inv_step H. rename Hrun into Hx.
  pin_bits Hx Hlen1.
  destruct Hlen0 as [Hlen0|Hend]; [|rewrite Hend in Hlen1; discriminate Hlen1].
  next_state Hlen0 s1 Hr1 Hp1. next_state Hlen1 s2 Hr2 Hp2.
  subst_fields Hx. cbv iota in H.
  inv_step H. clear Hrun.
  inv_step H. inv_step H. rename Hrun into Hlow.
  pin_uint Hlow Hlen3. next_state Hlen3 s3 Hr3 Hp3.
  apply bind_Ok_inv in H as (rg & s4 & Hgain & H).
  apply LAMEReplayGain_load_Ok in Hgain as (Hr4 & Hp4 & _).
  inv_step H. inv_step H. rename Hrun into Hx.
  pin_bits Hx Hlen5. next_state Hlen5 s5 Hr5 Hp5.
  subst_fields Hx. cbv iota in H.
  inv_step H. inv_step H. rename Hrun into Hrate.
  pin_uint Hrate Hlen6. next_state Hlen6 s6 Hr6 Hp6.
  inv_step H. inv_step H. rename Hrun into Hx.
  pin_bits Hx Hlen7. next_state Hlen7 s7 Hr7 Hp7.
  subst_fields Hx. cbv iota in H.
  inv_step H. inv_step H. rename Hrun into Hx.
  pin_bits Hx Hlen8. next_state Hlen8 s8 Hr8 Hp8.
  subst_fields Hx. cbv iota in H.
  inv_step H. clear Hrun.
  inv_step H. inv_step H. rename Hrun into Hx.
  pin_bits Hx Hlen9. next_state Hlen9 s9 Hr9 Hp9.
  subst_fields Hx. inv_step H. clear Hrun.
  inv_step H. inv_step H. rename Hrun into Hx.
  pin_bits Hx Hlen10. next_state Hlen10 s10 Hr10 Hp10.
  subst_fields Hx. cbv iota in H.
  inv_step H. clear Hrun. inv_step H. clear Hrun.
  inv_step H.
  destruct (Nat.eqb_spec (List.length (take_bytes 8 (remaining s10))) 8)
    as [Hlen11|]; [|discriminate H].
  cbn [negb] in H. inv_step H.
  assert (Hlen11' : Z.of_nat (List.length (take_bytes 8 (remaining s10))) = 8)
    by (rewrite Hlen11; reflexivity).
  next_state Hlen11' s11 Hr11 Hp11.
  split; [assumption|lia].
Qed.

Lemma land_bit (flags k : Z) :
  0 <= k -> (Z.land flags (2 ^ k) =? 0) = negb (Z.testbit flags k).
Proof.
  intros Hk.
  destruct (Z.testbit flags k) eqn:Hbit; cbn [negb].
  - apply Z.eqb_neq. intros E.
    apply (f_equal (fun z => Z.testbit z k)) in E.
    rewrite Z.land_spec, Hbit, Z.pow2_bits_true, Z.bits_0 in E by lia.
    discriminate E.
  - apply Z.eqb_eq. apply Z.bits_inj'. intros n Hn.
    rewrite Z.land_spec, Z.bits_0.
    destruct (Z.eq_dec n k) as [->|Hne]; [now rewrite Hbit|].
    rewrite Z.pow2_bits_false by lia. apply andb_false_r.
Qed.

(** The bits of a 32-bit word read as a signed integer. *)
Lemma signed_word_testbit (u k : Z) :
  0 <= k < 32 ->
  Z.testbit (if u <? 2 ^ 31 then u else u - 2 ^ 32) k = Z.testbit u k.
Proof.
  intros Hk. destruct (u <? 2 ^ 31); [reflexivity|].
  replace (u - 2 ^ 32) with (u + (-1) * 2 ^ 32) by lia.
  rewrite <- (Z.mod_pow2_bits_low (u + -1 * 2 ^ 32) 32 k) by lia.
  rewrite Z.mod_add by lia.
  now rewrite Z.mod_pow2_bits_low by lia.
Qed.

Lemma gated_Ok (flags k : Z) {A} (c : M A) (s s' : reader) (o : option A) :
  0 <= k ->
  gated flags (2 ^ k) c s = (Ok o, s') ->
  truthy o = Z.testbit flags k
  /\ match o with
     | None => s' = s
     | Some a => c s = (Ok a, s')
     end.
Proof.
  intros Hk. unfold gated. rewrite land_bit by assumption.
  destruct (Z.testbit flags k); cbn [negb].
  - intros H. inv_step H. inv_step H. now split.
  - intros [= <- <-]. now split.
Qed.

Lemma read_uint32_Ok (s s' : reader) (v : Z) :
  read_uint32 s = (Ok v, s') ->
  raw s' = raw s /\ pos s' = pos s + 4
  /\ v = be_uint (take_bytes 4 (remaining s))
  /\ List.length (take_bytes 4 (remaining s)) = 4%nat.
Proof.
  unfold read_uint32. intros H. inv_step H. inv_step H.
  apply struct_unpack_uint_Ok in H as [Hlen ->].
  rewrite pos_read, Hlen. repeat split.
Qed.

Lemma read_uint16_Ok (s s' : reader) (v : Z) :
  read_uint16 s = (Ok v, s') ->
  raw s' = raw s /\ pos s' = pos s + 2
  /\ v = be_uint (take_bytes 2 (remaining s))
  /\ List.length (take_bytes 2 (remaining s)) = 2%nat.
Proof.
  unfold read_uint16. intros H. inv_step H. inv_step H.
  apply struct_unpack_uint_Ok in H as [Hlen ->].
  rewrite pos_read, Hlen. repeat split.
Qed.

(** The bytes of a source from a position on. *)
Lemma remaining_at (s t : reader) (n : Z) :
  0 <= pos s -> 0 <= n -> raw t = raw s -> pos t = pos s + n ->
  remaining t = skipn (Z.to_nat n) (remaining s).
Proof.
  intros Hpos Hn Hraw Hp. unfold remaining.
  rewrite Hraw, Hp, skipn_skipn. f_equal. lia.
Qed.

(** X9: in a Xing header that decodes, the first four bytes are [Xing] or
    [Info]; the frame count, the byte count and the quality are present
    exactly when bits 0, 1 and 3 of the flags word are set, and the frame
    count is the big-endian value of the four bytes after the flags word;
    the table of contents is always a list: the at most 100 bytes read
    after the two counts when bit 2 is set, and the empty list when it is
    clear; a LAME header is present exactly when the four bytes after the
    last field are [LAME]; and the reader has advanced by the eight bytes
    of marker and flags, the bytes of the fields read, and the 36 bytes
    of the LAME header if there is one. *)
Theorem X9_xing_fields (T : Tables) (s s' : reader)
    (xing_header : XingHeader) (m0 m1 m2 m3 f0 f1 f2 f3 : Z) (rest : bytes) :
  0 <= pos s ->
  remaining s = m0 :: m1 :: m2 :: m3 :: f0 :: f1 :: f2 :: f3 :: rest ->
  XingHeader_load T s = (Ok xing_header, s') ->
  let flags := be_uint [f0; f1; f2; f3] in
  let bit k := Z.b2z (Z.testbit flags k) in
  let toc_size := Z.of_nat (List.length (toc xing_header)) in
  let fields := 4 * bit 0 + 4 * bit 1 + toc_size + 4 * bit 3 in
  is_xing_marker [m0; m1; m2; m3] = true
  /\ truthy (num_frames xing_header) = Z.testbit flags 0
  /\ truthy (num_bytes xing_header) = Z.testbit flags 1
  /\ toc xing_header
     = (if Z.testbit flags 2
        then take_bytes 100 (skipn (Z.to_nat (4 * bit 0 + 4 * bit 1)) rest)
        else [])
  /\ truthy (quality xing_header) = Z.testbit flags 3
  /\ (Z.testbit flags 0 = true ->
      num_frames xing_header = Some (be_uint (firstn 4 rest)))
  /\ toc_size <= 100
  /\ truthy (_lame xing_header)
     = bytes_eqb (take_bytes 4 (skipn (Z.to_nat fields) rest))
                 (bytes_of_string "LAME")
  /\ raw s' = raw s
  /\ pos s' = pos s + 8 + fields
              + (if truthy (_lame xing_header) then 36 else 0).
Proof.
  intros Hpos Hrem H flags bit toc_size fields.
  unfold XingHeader_load in H. inv_step H.
  assert (Hmagic : take_bytes 4 (remaining s) = [m0; m1; m2; m3])
    by (rewrite Hrem; reflexivity).
  rewrite Hmagic in H.
  destruct (is_xing_marker [m0; m1; m2; m3]) eqn:Hmarker; [|discriminate H].
  cbn [negb] in H.
  inv_step H. inv_step H. rename Hrun into Hflags.
  rewrite remaining_read, Hrem in Hflags by lia.
  change (take_bytes 4 _) with [f0; f1; f2; f3] in Hflags.
  injection Hflags as <-. fold flags in H.
  set (signed := if flags <? 2 ^ 31 then flags else flags - 2 ^ 32) in *.
  assert (Hsigned : forall k, 0 <= k < 32 ->
            Z.testbit signed k = Z.testbit flags k)
    by (intros k Hk; now apply signed_word_testbit).
  set (s2 := snd (read 4 (snd (read 4 s)))) in *.
  assert (Hr2 : raw s2 = raw s) by reflexivity.
  assert (Hp2 : pos s2 = pos s + 8).
  { unfold s2. rewrite !pos_read, remaining_read, Hrem by lia.
    change (pos s + 4 + 4 = pos s + 8). lia. }
  apply bind_Ok_inv in H as (frame_count & s3 & Hcount & H).
  apply bind_Ok_inv in H as (byte_count & s4 & Hbytes & H).
  apply bind_Ok_inv in H as (table & s5 & Htoc & H).
  apply bind_Ok_inv in H as (qual & s6 & Hqual & H).
  inv_step H.
  apply bind_Ok_inv in H as (lame_header & s7 & Hlame & H).
  inv_step H.
  cbn [num_frames num_bytes toc quality _lame] in *.
  apply (gated_Ok signed 0) in Hcount as [E0 Hcount]; [|lia].
  apply (gated_Ok signed 1) in Hbytes as [E1 Hbytes]; [|lia].
  apply (gated_Ok signed 2) in Htoc as [E2 Htoc]; [|lia].
  apply (gated_Ok signed 3) in Hqual as [E3 Hqual]; [|lia].
  rewrite Hsigned in E0, E1, E2, E3 by lia.
  assert (H3 : raw s3 = raw s /\ pos s3 = pos s + 8 + 4 * bit 0
               /\ (Z.testbit flags 0 = true ->
                   frame_count = Some (be_uint (firstn 4 rest)))).
  { unfold bit. rewrite <- E0. destruct frame_count as [n|]; cbn [truthy Z.b2z].
    - apply read_uint32_Ok in Hcount as (Hr & Hp & Hv & _).
      rewrite (remaining_at s s2 8) in Hv by (assumption || lia).
      rewrite Hrem in Hv. change (skipn (Z.to_nat 8) _) with rest in Hv.
      split; [congruence|split; [lia|]]. intros _. now rewrite Hv.
    - subst s3. split; [assumption|split; [lia|discriminate]]. }
  destruct H3 as (Hr3 & Hp3 & Hframes).
  assert (H4 : raw s4 = raw s /\ pos s4 = pos s + 8 + 4 * bit 0 + 4 * bit 1).
  { unfold bit at 2. rewrite <- E1.
    destruct byte_count as [n|]; cbn [truthy Z.b2z].
    - apply read_uint32_Ok in Hbytes as (Hr & Hp & _). split; [congruence|lia].
    - subst s4. split; [assumption|lia]. }
  destruct H4 as (Hr4 & Hp4).
  assert (Hbits : 0 <= 4 * bit 0 + 4 * bit 1).
  { unfold bit. destruct (Z.testbit flags 0), (Z.testbit flags 1);
      cbn [Z.b2z]; lia. }
  assert (Hrem4 : remaining s4
                  = skipn (Z.to_nat (4 * bit 0 + 4 * bit 1)) rest).
  { rewrite (remaining_at s s4 (8 + (4 * bit 0 + 4 * bit 1)))
      by (assumption || lia).
    rewrite Hrem, Z2Nat.inj_add, Nat.add_comm by lia.
    rewrite <- skipn_skipn. reflexivity. }
  assert (H5 : raw s5 = raw s
               /\ pos s5 = pos s + 8 + 4 * bit 0 + 4 * bit 1 + toc_size
               /\ 0 <= toc_size <= 100
               /\ XingToC table
                  = (if Z.testbit flags 2
                     then take_bytes 100
                            (skipn (Z.to_nat (4 * bit 0 + 4 * bit 1)) rest)
                     else [])).
  { unfold toc_size. rewrite <- E2.
    destruct table as [entries|]; cbn [XingToC truthy List.length].
    - inv_step Htoc. rewrite pos_read.
      pose proof (take_bytes_length 100 (remaining s4) ltac:(lia)).
      split; [assumption|]. split; [lia|]. split; [lia|].
      now rewrite Hrem4.
    - subst s5. split; [assumption|]. split; [lia|]. split; [lia|reflexivity]. }
  destruct H5 as (Hr5 & Hp5 & Htoc_size & Htable).
  assert (H6 : raw s6 = raw s /\ pos s6 = pos s + 8 + fields).
  { unfold fields, bit at 3. rewrite <- E3.
    destruct qual as [n|]; cbn [truthy Z.b2z].
    - apply read_uint32_Ok in Hqual as (Hr & Hp & _). split; [congruence|lia].
    - subst s6. split; [assumption|lia]. }
  destruct H6 as (Hr6 & Hp6).
  assert (Hfields : 0 <= fields).
  { unfold fields, bit. destruct (Z.testbit flags 0), (Z.testbit flags 1),
      (Z.testbit flags 3); cbn [Z.b2z]; lia. }
  assert (Hnext : remaining s6 = skipn (Z.to_nat fields) rest).
  { rewrite (remaining_at s s6 (8 + fields)) by (assumption || lia).
    rewrite Hrem, Z2Nat.inj_add, Nat.add_comm by lia.
    rewrite <- skipn_skipn. reflexivity. }
  rewrite Hnext in Hlame.
  assert (H7 : truthy lame_header
               = bytes_eqb (take_bytes 4 (skipn (Z.to_nat fields) rest))
                   (bytes_of_string "LAME")
               /\ raw s7 = raw s
               /\ pos s7 = pos s + 8 + fields
                           + (if truthy lame_header then 36 else 0)).
  { destruct (bytes_eqb _ (bytes_of_string "LAME")).
    - inv_step Hlame. inv_step Hlame.
      apply LAMEHeader_load_extent in Hrun as [Hr Hp]; [|lia].
      cbn [truthy]. split; [reflexivity|split; [congruence|lia]].
    - inv_step Hlame. cbn [truthy]. split; [reflexivity|split; [assumption|lia]]. }
  destruct H7 as (Hl & Hr7 & Hp7).
  repeat lazymatch goal with
         | |- _ <= _ < _ => fail
         | |- _ /\ _ => split
         end; try assumption; try reflexivity; lia.
Qed.

Lemma X9_witness :
  match XingHeader_load std_tables (mkReader xing_lame 0) with
  | (Ok xing_header, s') =>
      num_frames xing_header = Some 100 /\ toc xing_header = []
  | _ => False
  end.
Proof.
  destruct (XingHeader_load std_tables (mkReader xing_lame 0))
    as [[xing_header|e] s'] eqn:E.
  - assert (Hrem : remaining (mkReader xing_lame 0)
                   = 73 :: 110 :: 102 :: 111 :: 0 :: 0 :: 0 :: 11
                     :: skipn 8 xing_lame) by reflexivity.
    destruct (X9_xing_fields std_tables (mkReader xing_lame 0) s' xing_header
                73 110 102 111 0 0 0 11 (skipn 8 xing_lame)
                ltac:(cbn; lia) Hrem E)
      as (_ & _ & _ & Htoc & _ & Hframes & _).
    split; [exact (Hframes eq_refl)|exact Htoc].
  - vm_compute in E. discriminate E.
Defined.

(** A table of contents cut short by the end of the stream, and one that
    the flags do not announce. *)
Example xing_toc_truncated :
  exists xing_header s',
    XingHeader_load std_tables
      (mkReader (bytes_of_string "Xing" ++ [0; 0; 0; 4] ++ [1; 2; 3]) 0)
    = (Ok xing_header, s')
    /\ toc xing_header = [1; 2; 3] /\ pos s' = 11.
Proof. eexists. eexists. split; [vm_compute; reflexivity|]. now cbn. Qed.

Example xing_toc_absent :
  exists xing_header s',
    XingHeader_load std_tables (mkReader bare_xing 0) = (Ok xing_header, s')
    /\ toc xing_header = [] /\ pos s' = 8.
Proof. eexists. eexists. split; [vm_compute; reflexivity|]. now cbn. Qed.

Example xing_lame_header :
  exists xing_header lame s',
    XingHeader_load std_tables (mkReader xing_lame 0) = (Ok xing_header, s')
    /\ num_bytes xing_header = Some 16384 /\ quality xing_header = Some 80
    /\ _lame xing_header = Some lame /\ delay lame = 576 /\ pos s' = 56.
Proof.
  eexists. eexists. eexists. split; [vm_compute; reflexivity|]. now cbn.
Qed.

(** ** The VBRI header *)

Lemma vbri_toc_load_Ok (count : nat) (entry_size : Z) :
  0 <= entry_size ->
  forall (s s' : reader) (entries : list Z),
    vbri_toc_load count entry_size s = (Ok entries, s') ->
    raw s' = raw s
    /\ pos s' = pos s + Z.of_nat count * entry_size
    /\ List.length entries = count
    /\ (Forall is_byte (raw s) ->
        Forall (fun e => 0 <= e < 256 ^ entry_size) entries).
Proof.
  intros He. induction count as [|count IH]; intros s s' entries H;
    cbn [vbri_toc_load] in H.
  - inv_step H. repeat split; [lia|constructor].
  - inv_step H. inv_step H. rename Hrun into Hentry.
    apply struct_unpack_uint_Ok in Hentry as [Hlen ->].
    apply bind_Ok_inv in H as (es & s2 & Hrest & H). inv_step H.
    apply IH in Hrest as (Hr & Hp & Hl & Hall).
    rewrite pos_read, Hlen in Hp. cbn [raw snd read] in Hr.
    split; [assumption|]. split; [lia|]. split; [cbn; lia|].
    intros Hbytes. constructor; [|now apply Hall].
    pose proof (be_uint_range _ (Forall_read is_byte entry_size s Hbytes))
      as Hrange.
    rewrite Hlen, Z2Nat.id in Hrange by assumption. exact Hrange.
Qed.

(** X11: a VBRI header that decodes from a stream of bytes starts with
    [VBRI]; the size of its table entries is 2 or 4; its table has as
    many entries as the header announces, each below 256 to the power of
    the entry size; its frame count is the big-endian value of the four
    bytes at offset 14; and the reader has advanced by the 26 bytes of the
    fixed part and the bytes of the table. *)
Theorem X11_vbri_header (s s' : reader) (vbri_header : VBRIHeader) :
  0 <= pos s -> Forall is_byte (raw s) ->
  VBRIHeader_load s = (Ok vbri_header, s') ->
  take_bytes 4 (remaining s) = bytes_of_string "VBRI"
  /\ (toc_entry_num_bytes vbri_header = 2 \/ toc_entry_num_bytes vbri_header = 4)
  /\ 0 <= num_toc_entries vbri_header < 65536
  /\ Z.of_nat (List.length (vbri_toc vbri_header)) = num_toc_entries vbri_header
  /\ Forall (fun e => 0 <= e < 256 ^ toc_entry_num_bytes vbri_header)
            (vbri_toc vbri_header)
  /\ vbri_num_frames vbri_header
     = be_uint (take_bytes 4 (skipn 14 (remaining s)))
  /\ raw s' = raw s
  /\ pos s' = pos s + 26
              + num_toc_entries vbri_header * toc_entry_num_bytes vbri_header.
Proof.
  intros Hpos Hbytes H. unfold VBRIHeader_load in H.
  inv_step H.
  destruct (bytes_eqb _ _) eqn:Hmagic; [|discriminate H].
  apply bytes_eqb_eq in Hmagic. cbn [negb] in H.
  assert (Hlen0 : Z.of_nat (List.length (take_bytes 4 (remaining s))) = 4)
    by (rewrite Hmagic; reflexivity).
  next_state Hlen0 s1 Hr1 Hp1.
  apply bind_Ok_inv in H as (version & s2 & H2 & H).
  apply read_uint16_Ok in H2 as (Hr2 & Hp2 & _).
  apply bind_Ok_inv in H as (delay & s3 & H3 & H).
  apply read_uint16_Ok in H3 as (Hr3 & Hp3 & _).
  apply bind_Ok_inv in H as (quality & s4 & H4 & H).
  apply read_uint16_Ok in H4 as (Hr4 & Hp4 & _).
  apply bind_Ok_inv in H as (byte_count & s5 & H5 & H).
  apply read_uint32_Ok in H5 as (Hr5 & Hp5 & _).
  apply bind_Ok_inv in H as (frame_count & s6 & H6 & H).
  apply read_uint32_Ok in H6 as (Hr6 & Hp6 & Hframes & _).
  apply bind_Ok_inv in H as (entry_count & s7 & H7 & H).
  apply read_uint16_Ok in H7 as (Hr7 & Hp7 & Hcount & Hcount_len).
  apply bind_Ok_inv in H as (scale & s8 & H8 & H).
  apply read_uint16_Ok in H8 as (Hr8 & Hp8 & _).
  apply bind_Ok_inv in H as (entry_size & s9 & H9 & H).
  apply read_uint16_Ok in H9 as (Hr9 & Hp9 & _).
  apply bind_Ok_inv in H as (entry_frames & s10 & H10 & H).
  apply read_uint16_Ok in H10 as (Hr10 & Hp10 & _).
  assert (Hsize : entry_size = 2 \/ entry_size = 4).
  { destruct (Z.eqb_spec entry_size 2); [now left|].
    destruct (Z.eqb_spec entry_size 4); [now right|discriminate H]. }
  assert (Hin : (entry_size =? 2) || (entry_size =? 4) = true)
    by (destruct Hsize as [-> | ->]; reflexivity).
  rewrite Hin in H. cbn [negb] in H.
  apply bind_Ok_inv in H as (entries & s11 & Htoc & H). inv_step H.
  rewrite Z.div_mul in Htoc by lia.
  apply vbri_toc_load_Ok in Htoc as (Hr11 & Hp11 & Hl & Hall); [|lia].
  assert (Hrange : 0 <= entry_count < 65536).
  { subst entry_count.
    assert (Hb : Forall is_byte (take_bytes 2 (remaining s6))).
    { apply Forall_read. rewrite Hr6, Hr5, Hr4, Hr3, Hr2. exact Hbytes. }
    apply be_uint_range in Hb. rewrite Hcount_len in Hb. exact Hb. }
  cbn [toc_entry_num_bytes num_toc_entries vbri_toc vbri_num_frames].
  split; [assumption|]. split; [assumption|]. split; [assumption|].
  split; [rewrite Hl; lia|].
  split; [apply Hall; rewrite Hr10, Hr9, Hr8, Hr7, Hr6, Hr5, Hr4, Hr3, Hr2;
          exact Hbytes|].
  split.
  - rewrite Hframes, (remaining_at s s5 14); [reflexivity|assumption|lia| |lia].
    rewrite Hr5, Hr4, Hr3, Hr2. reflexivity.
  - split; [rewrite Hr11, Hr10, Hr9, Hr8, Hr7, Hr6, Hr5, Hr4, Hr3, Hr2;
            reflexivity|].
    rewrite Hp11, Z2Nat.id by lia. lia.
Qed.

Lemma X11_witness :
  match VBRIHeader_load (mkReader (vbri_tag 2) 0) with
  | (Ok vbri_header, s') =>
      vbri_num_frames vbri_header = 100
      /\ Z.of_nat (List.length (vbri_toc vbri_header)) = 2 /\ pos s' = 30
  | _ => False
  end.
Proof.
  destruct (VBRIHeader_load (mkReader (vbri_tag 2) 0))
    as [[vbri_header|e] s'] eqn:E.
  - assert (Hbytes : Forall is_byte (raw (mkReader (vbri_tag 2) 0)))
      by (repeat constructor; cbv; intuition discriminate).
    destruct (X11_vbri_header (mkReader (vbri_tag 2) 0) s' vbri_header
                ltac:(cbn; lia) Hbytes E)
      as (_ & _ & _ & Hlen & _ & Hframes & _ & Hp).
    vm_compute in E. injection E as <- <-.
    split; [exact Hframes|]. split; [exact Hlen|exact Hp].
  - vm_compute in E. discriminate E.
Defined.

Example vbri_entry_size_refused :
  fst (VBRIHeader_load (mkReader (vbri_tag 3) 0)) = Raise InvalidHeader.
Proof. reflexivity. Qed.

(** ** The frames that the scan returns *)

Lemma reader_eta (s : reader) : mkReader (raw s) (pos s) = s.
Proof. now destruct s. Qed.

Lemma load_run_decoded (T : Tables) (n : nat) :
  tables_ok T ->
  forall (frames frames' : list MPEGFrameHeader) (s s' : reader),
    0 <= pos s ->
    load_run T n frames s = (Ok frames', s') ->
    exists new,
      frames' = frames ++ new /\ (List.length new <= n)%nat
      /\ decoded_run T (raw s) (pos s) new.
Proof.
  intros HT. induction n as [|n IH]; intros frames frames' s s' Hpos H.
  - injection H as <- <-. exists []. rewrite app_nil_r. now repeat split.
  - cbn [load_run] in H.
    destruct (MPEGFrameHeader_load T s) as [[frame|e] s1] eqn:E.
    + destruct (MPEGFrameHeader_load_Ok T _ _ _ HT Hpos E)
        as (Hstart & Hsize & Hlt).
      destruct (stays_MPEGFrameHeader_load T _ _ _ E) as [Hraw _].
      assert (Hfirst : fst (MPEGFrameHeader_load T (mkReader (raw s) (pos s)))
                       = Ok frame) by now rewrite reader_eta, E.
      destruct (truthy (_xing frame)) eqn:Hx.
      * injection H as <- <-. exists [frame].
        split; [reflexivity|]. split; [cbn; lia|]. cbn [decoded_run].
        repeat split; [assumption..|]. now intros [].
      * unfold seek_set in H. rewrite seek_to_nonneg in H by lia.
        apply IH in H as (new & -> & Hlen & Hrun); [|cbn; lia].
        cbn [raw pos] in Hrun. rewrite Hraw, Hstart in Hrun.
        exists (frame :: new). rewrite <- app_assoc.
        split; [reflexivity|]. split; [cbn; lia|]. cbn [decoded_run].
        repeat split; [assumption..| |assumption].
        intros _. now destruct (_xing frame).
    + destruct (stays_MPEGFrameHeader_load T _ _ _ E) as [Hraw Hle].
      destruct (caught e); [|discriminate H].
      unfold bind, seek_cur in H. rewrite seek_to_nonneg in H by lia.
      injection H as <- <-. exists []. rewrite app_nil_r.
      split; [reflexivity|]. split; [cbn; lia|exact I].
Qed.

Lemma decode_run_decoded (T : Tables) (sync_start : Z)
    (frames : list MPEGFrameHeader) (s s' : reader) :
  tables_ok T -> 0 <= pos s -> 0 <= sync_start ->
  decode_run T sync_start s = (Ok frames, s') ->
  run_at T (raw s) (pos s) frames.
Proof.
  intros HT Hpos Hsync H. unfold decode_run in H.
  inv_step H. unfold seek_cur in Hrun. rewrite seek_to_nonneg in Hrun by lia.
  injection Hrun as _ <-.
  inv_step H. inv_step H. inv_step H.
  destruct (_ =? 2047).
  - apply load_run_decoded in H as (new & -> & Hlen & Hnew);
      [|assumption|cbn; lia].
    cbn [raw pos app] in *. split; [assumption|].
    exists (pos s + sync_start). split; [lia|assumption].
  - inv_step H. inv_step H. split; [cbn; lia|]. exists (pos s).
    split; [lia|exact I].
Qed.

Lemma run_at_lower (T : Tables) (data : bytes) (lo lo' : Z)
    (frames : list MPEGFrameHeader) :
  lo <= lo' -> run_at T data lo' frames -> run_at T data lo frames.
Proof.
  intros Hlo [Hlen (start & Hstart & Hrun)]. split; [assumption|].
  exists start. split; [lia|assumption].
Qed.

Lemma scan_round_runs (T : Tables)
    (cached_frames : option (list MPEGFrameHeader)) (s s' : reader)
    (out : round) :
  tables_ok T -> 0 <= pos s ->
  scan_round T cached_frames s = (Ok out, s') ->
  match out with
  | Exhausted => True
  | Accepted frames => run_at T (raw s) (pos s) frames
  | Again cached_frames' =>
      cached_frames' = cached_frames
      \/ exists frames,
           run_at T (raw s) (pos s) frames
           /\ cached_frames' = cache cached_frames frames
  end.
Proof.
  intros HT Hpos H. unfold scan_round in H. inv_step H.
  destruct (_ <? buffer_size); [now inv_step H|]. cbv zeta in H.
  destruct (Z.eqb_spec (find_byte (take_bytes buffer_size (remaining s)) 255)
              (-1)) as [|Hfound].
  - inv_step H. inv_step H. now left.
  - inv_step H. rename a into frames.
    apply decode_run_decoded in Hrun; [|assumption..|].
    + destruct (accepted frames); inv_step H; [assumption|].
      right. now exists frames.
    + unfold find_byte in *.
      destruct (find_byte_from_range 255
                  (take_bytes buffer_size (remaining s)) 0); lia.
Qed.

Lemma cache_at (T : Tables) (data : bytes) (lo : Z)
    (cached_frames : option (list MPEGFrameHeader))
    (frames : list MPEGFrameHeader) :
  cached_at T data lo cached_frames -> run_at T data lo frames ->
  cached_at T data lo (cache cached_frames frames).
Proof.
  intros Hc Hrun. unfold cache. destruct cached_frames; [assumption|].
  destruct (Z.leb_spec 2 (Z.of_nat (List.length frames))); [|exact I].
  split; [lia|assumption].
Qed.

Lemma scan_loop_runs (T : Tables) (data : bytes) (lo : Z) (fuel : nat) :
  tables_ok T ->
  forall (cached_frames cached_frames' : option (list MPEGFrameHeader))
         (frames : list MPEGFrameHeader) (s s' : reader),
    raw s = data -> 0 <= pos s -> lo <= pos s ->
    cached_at T data lo cached_frames ->
    scan_loop T fuel cached_frames s = Some (Ok (frames, cached_frames'), s') ->
    (frames = [] \/ run_at T data lo frames)
    /\ cached_at T data lo cached_frames'.
Proof.
  intros HT. induction fuel as [|fuel IH];
    intros c c' frames s s' Hraw Hpos Hlo Hc H; [discriminate|].
  cbn [scan_loop] in H.
  destruct (scan_round T c s) as [[[|run|c1]|e] s1] eqn:E.
  - injection H as <- <- <-. split; [now left|assumption].
  - injection H as <- <- <-. apply scan_round_runs in E; [|assumption..].
    rewrite Hraw in E. split; [right|assumption].
    now apply (run_at_lower T data lo (pos s)).
  - pose proof (scan_round_progress T _ _ _ _ HT Hpos E) as [Hraw1 Hlt].
    apply scan_round_runs in E; [|assumption..]. rewrite Hraw in E.
    apply IH in H; [assumption|congruence|lia|lia|].
    destruct E as [->|(run & Hrun & ->)]; [assumption|].
    apply cache_at; [assumption|].
    now apply (run_at_lower T data lo (pos s)).
  - discriminate H.
Qed.

(** X12: the frames that [find_mp3_frames] returns, whether an accepted
    run or the cached one, are one to four frames of the same stream, at or
    after the position where the scan began; each is what
    [MPEGFrameHeader.load] decodes at its start, each but the first starts
    where the one before it ends, and none but the last carries a Xing
    header. *)
Theorem X12_run_decoded (T : Tables) (fuel : nat) (s s' : reader)
    (frames : list MPEGFrameHeader) :
  tables_ok T -> 0 <= pos s ->
  find_mp3_frames T fuel s = Some (Ok frames, s') ->
  (1 <= List.length frames <= 4)%nat
  /\ exists frame0 rest,
       frames = frame0 :: rest
       /\ pos s <= _start frame0
       /\ decoded_run T (raw s) (_start frame0) frames.
Proof.
  intros HT Hpos H. unfold find_mp3_frames in H.
  destruct (scan_loop T fuel None s) as [[[[run c]|e] s1]|] eqn:E;
    [|discriminate H..].
  injection H as H <-.
  apply (scan_loop_runs T (raw s) (pos s)) in E
    as [Hrun Hc]; [|assumption|reflexivity|assumption|lia|exact I].
  assert (Hout : frames <> [] /\ run_at T (raw s) (pos s) frames).
  { unfold choose_frames in H. destruct run as [|frame0 rest].
    - destruct c as [[|f cached]|]; [discriminate H| |discriminate H].
      injection H as <-. split; [discriminate|]. exact (proj2 Hc).
    - injection H as <-. split; [discriminate|].
      destruct Hrun as [|Hrun]; [discriminate|assumption]. }
  destruct Hout as [Hne [Hlen (start & Hstart & Hrun')]].
  destruct frames as [|frame0 rest]; [contradiction|].
  split; [cbn in *; lia|]. exists frame0, rest. split; [reflexivity|].
  pose proof Hrun' as (_ & E0 & _). rewrite E0.
  split; [assumption|assumption].
Qed.

Lemma X12_witness :
  match find_mp3_frames std_tables 200 four_frames with
  | Some (Ok frames, _) =>
      List.length frames = 4%nat
      /\ decoded_run std_tables (raw four_frames) 0 frames
  | _ => False
  end.
Proof.
  destruct (find_mp3_frames std_tables 200 four_frames)
    as [[[frames|e] s']|] eqn:E.
  - destruct (X12_run_decoded std_tables 200 four_frames s' frames
                std_tables_ok ltac:(cbn; lia) E)
      as (_ & frame0 & rest & Hframes & _ & Hrun).
    vm_compute in E. injection E as <- _.
    injection Hframes as <- _. split; [reflexivity|exact Hrun].
  - vm_compute in E. discriminate E.
  - vm_compute in E. discriminate E.
Defined.

(** ** The stream information *)

Lemma end_tag_offset_range (end_buffer : bytes) :
  0 <= end_tag_offset_of end_buffer <= Z.of_nat (List.length end_buffer).
Proof.
  unfold end_tag_offset_of.
  assert (Hstep : forall markers acc,
            0 <= acc <= Z.of_nat (List.length end_buffer) ->
            0 <= fold_left
                   (fun end_tag_offset tag_type =>
                      let tag_offset := rfind end_buffer tag_type in
                      if 0 <? tag_offset then
                        let tag_offset :=
                          Z.of_nat (List.length end_buffer) - tag_offset in
                        if end_tag_offset <? tag_offset then tag_offset
                        else end_tag_offset
                      else end_tag_offset) markers acc
            <= Z.of_nat (List.length end_buffer)).
  { induction markers as [|tag markers IH]; intros acc Hacc; cbn [fold_left];
      [assumption|].
    apply IH. cbv zeta.
    destruct (rfind_from_range tag end_buffer 0) as [E|E];
      fold (rfind end_buffer tag) in E.
    - rewrite E. exact Hacc.
    - destruct (Z.ltb_spec 0 (rfind end_buffer tag)); [|assumption].
      destruct (Z.ltb_spec acc
                  (Z.of_nat (List.length end_buffer) - rfind end_buffer tag));
        lia. }
  apply Hstep. lia.
Qed.

Lemma end_window_length (data : bytes) :
  Z.of_nat (List.length (end_window data))
  = Z.min (Z.of_nat (List.length data)) chunk_size.
Proof.
  unfold end_window, chunk_size.
  destruct (Z.ltb_spec (64 * 1024) (Z.of_nat (List.length data)));
    [rewrite length_skipn|]; lia.
Qed.

(** After the end buffer is read the reader stands at the end. *)
Lemma read_end_buffer_state (s : reader) :
  raw (snd (read_end_buffer s)) = raw s
  /\ pos (snd (read_end_buffer s)) = Z.of_nat (List.length (raw s)).
Proof.
  unfold read_end_buffer, bind, seek_end, tell, read_all, ret.
  rewrite seek_to_nonneg by lia. cbn [pos raw]. rewrite Z.add_0_r.
  unfold chunk_size.
  destruct (Z.ltb_spec (64 * 1024) (Z.of_nat (List.length (raw s)))).
  - cbn [raw pos]. rewrite seek_to_nonneg by lia.
    cbn [snd read raw pos]. split; [reflexivity|].
    unfold remaining, take_bytes. cbn [raw pos].
    change (-1 <? 0) with true. cbv iota. rewrite length_skipn. lia.
  - unfold seek_set. rewrite seek_to_nonneg by lia.
    cbn [snd read raw pos]. split; [reflexivity|].
    unfold remaining, take_bytes. cbn [raw pos].
    change (-1 <? 0) with true. cbv iota. cbn [Z.to_nat skipn]. lia.
Qed.

Lemma truediv_Ok_inv (a b q : Q) :
  truediv a b = Ok q -> ~ (b == 0)%Q /\ (q * b == a)%Q.
Proof.
  unfold truediv. destruct (Qeq_bool b 0) eqn:E; [discriminate|].
  intros [= <-]. apply Qeq_bool_neq in E. split; [assumption|].
  rewrite Qmult_comm. now apply Qmult_div_r.
Qed.

(** X13: in every stream information that is computed, the audio region
    starts at the first frame and ends within the last 64 KiB of the file;
    its size is the difference of the two; the bitrate is not zero and the
    duration times the bitrate is eight times the size; version, layer,
    protection, channel mode, channels, sample rate and the Xing and VBRI
    headers are those of the first frame; and the reader is left at the
    end of the unchanged file. *)
Theorem X13_stream_info (T : Tables) (frames : list MPEGFrameHeader)
    (s s' : reader) (info : MP3StreamInfo) :
  stream_info_of T frames s = (Ok info, s') ->
  let len := Z.of_nat (List.length (raw s)) in
  (exists frame0 rest,
     frames = frame0 :: rest
     /\ si_start info = _start frame0
     /\ si_version info = version frame0 /\ si_layer info = layer frame0
     /\ si_protected info = protected frame0
     /\ si_channel_mode info = channel_mode frame0
     /\ si_channels info = channels frame0
     /\ si_sample_rate info = sample_rate frame0
     /\ si_xing info = _xing frame0 /\ si_vbri info = _vbri frame0)
  /\ si_size info = si_end info - si_start info
  /\ len - Z.min len chunk_size <= si_end info <= len
  /\ ~ (si_bitrate info == 0)%Q
  /\ (si_duration info * si_bitrate info == inject_Z (si_size info * 8))%Q
  /\ raw s' = raw s /\ pos s' = len.
Proof.
  intros H len. unfold stream_info_of in H.
  inv_step H. rename a into frame0.
  destruct frames as [|f rest]; [discriminate Hrun|].
  injection Hrun as ->.
  inv_step H. clear Hrun.
  apply bind_Ok_inv in H as ([end_pos end_buffer] & s1 & Hends & H).
  pose proof (read_end_buffer_eq s) as Hbuffer.
  pose proof (read_end_buffer_state s) as [Hraw Hpos].
  rewrite Hends in Hbuffer, Hraw, Hpos. cbn [fst snd] in *.
  injection Hbuffer as -> ->.
  inv_step H. destruct a0 as [num_samples bitrate_mode].
  inv_step H. inv_step H. rename Hrun1 into Hduration. inv_step H.
  cbn [si_start si_end si_size si_bitrate si_duration si_version si_layer
       si_protected si_channel_mode si_channels si_sample_rate si_xing
       si_vbri].
  apply truediv_Ok_inv in Hduration as [Hrate Hduration].
  pose proof (end_tag_offset_range (end_window (raw s))) as Hoffset.
  rewrite end_window_length in Hoffset.
  split; [exists frame0, rest; now repeat split|].
  split; [reflexivity|]. split; [fold len in Hoffset |- *; lia|].
  split; [assumption|]. split; [assumption|]. split; assumption.
Qed.

Lemma X13_witness :
  match stream_info_of std_tables four_frames_run four_frames with
  | (Ok info, s') =>
      (si_duration info * si_bitrate info == inject_Z (si_size info * 8))%Q
      /\ pos s' = 136
  | _ => False
  end.
Proof.
  destruct (stream_info_of std_tables four_frames_run four_frames)
    as [[info|e] s'] eqn:E.
  - destruct (X13_stream_info std_tables four_frames_run four_frames s' info E)
      as (_ & _ & _ & _ & Hduration & _ & Hpos).
    split; [exact Hduration|exact Hpos].
  - vm_compute in E. discriminate E.
Defined.

(** The stream information as a function of the first frame, the samples
    per frame and the size of the audio region. *)
Lemma stream_info_of_eq (T : Tables) (frame0 : MPEGFrameHeader)
    (rest : list MPEGFrameHeader) (s : reader) (spf : Z * Z) :
  MP3SamplesPerFrame T (version frame0) (layer frame0) = Some spf ->
  let audio_size := audio_size_of s (_start frame0) in
  fst (stream_info_of T (frame0 :: rest) s)
  = rbind (samples_and_mode (frame0 :: rest) frame0 (fst spf) audio_size)
      (fun sm =>
         rbind (bitrate_of frame0 (snd sm) audio_size (fst sm))
           (fun bitrate =>
              rbind (truediv (inject_Z (audio_size * 8)) bitrate)
                (fun duration =>
                   Ok (mkStreamInfo (_start frame0)
                         (audio_size + _start frame0) audio_size
                         (_vbri frame0) (_xing frame0) (version frame0)
                         (layer frame0) (protected frame0) bitrate (snd sm)
                         (channel_mode frame0) (channels frame0) duration
                         (sample_rate frame0))))).
Proof.
  intros Hspf audio_size.
  unfold stream_info_of, bind, lift, ret. cbn [index nth_error Z.to_nat].
  rewrite Hspf. cbn [lookup].
  pose proof (read_end_buffer_eq s) as Hend.
  destruct (read_end_buffer s) as [ends s1]. cbn [fst] in Hend. rewrite Hend.
  fold (audio_size_of s (_start frame0)). fold audio_size.
  replace (Z.of_nat (List.length (raw s))
           - end_tag_offset_of (end_window (raw s)))
    with (audio_size + _start frame0)
    by (unfold audio_size, audio_size_of; lia).
  destruct (samples_and_mode _ _ _ _) as [[num_samples mode]|e];
    [|reflexivity].
  cbn [rbind fst snd].
  destruct (bitrate_of _ _ _ _) as [bitrate|e]; [|reflexivity].
  cbn [rbind]. destruct (truediv _ bitrate); reflexivity.
Qed.

Lemma truediv_zero (a b : Q) :
  (b == 0)%Q -> truediv a b = Raise ZeroDivisionError.
Proof.
  intros Hb. unfold truediv.
  now rewrite (proj2 (Qeq_bool_iff b 0) Hb).
Qed.

(** X14: the stream information cannot be computed, and
    [ZeroDivisionError] is raised, when the first frame carries a Xing
    header with a frame count of zero and no LAME header; when it carries
    a VBRI header, and no Xing header, with a frame count of zero; when it
    carries a Xing header, the mode is not CBR and the audio region is no
    larger than that frame; and when it carries neither header and its
    size is zero. *)
Theorem X14_zero_division (T : Tables) (frame0 : MPEGFrameHeader)
    (rest : list MPEGFrameHeader) (s : reader) (spf : Z * Z) :
  MP3SamplesPerFrame T (version frame0) (layer frame0) = Some spf ->
  let outcome := fst (stream_info_of T (frame0 :: rest) s) in
  (forall xing_header,
     _xing frame0 = Some xing_header ->
     num_frames xing_header = Some 0 -> _lame xing_header = None ->
     outcome = Raise ZeroDivisionError)
  /\ (forall vbri_header,
        _xing frame0 = None -> _vbri frame0 = Some vbri_header ->
        vbri_num_frames vbri_header = 0 ->
        outcome = Raise ZeroDivisionError)
  /\ (forall xing_header frame_count,
        _xing frame0 = Some xing_header ->
        num_frames xing_header = Some frame_count ->
        xing_bitrate_mode xing_header <> CBR ->
        audio_size_of s (_start frame0) = _size frame0 ->
        outcome = Raise ZeroDivisionError)
  /\ (_xing frame0 = None -> _vbri frame0 = None -> _size frame0 = 0 ->
      outcome = Raise ZeroDivisionError).
Proof.
  intros Hspf outcome. unfold outcome.
  rewrite (stream_info_of_eq T frame0 rest s spf Hspf). cbv zeta.
  split; [|split; [|split]].
  - intros xing_header Hx Hn Hlame.
    unfold samples_and_mode, xing_num_samples, xing_bitrate_mode.
    rewrite Hx, Hn, Hlame. cbn [rbind fst snd].
    unfold bitrate_of. rewrite Hx. cbn [truthy].
    rewrite truediv_zero; [reflexivity|]. now rewrite Z.mul_0_r.
  - intros vbri_header Hx Hv Hn.
    unfold samples_and_mode. rewrite Hx, Hv, Hn. cbn [rbind fst snd].
    unfold bitrate_of. rewrite Hx. cbn [truthy].
    rewrite truediv_zero; [reflexivity|]. now rewrite Z.mul_0_r.
  - intros xing_header frame_count Hx Hn Hmode Hsize.
    unfold samples_and_mode, xing_num_samples. rewrite Hx, Hn.
    set (num_samples :=
           match _lame xing_header with
           | Some lame =>
               if lame_padding_of lame <? fst spf * frame_count
               then fst spf * frame_count - lame_padding_of lame
               else fst spf * frame_count
           | None => fst spf * frame_count
           end).
    assert (E : match _lame xing_header with
                | Some lame =>
                    if lame_padding_of lame <? fst spf * frame_count
                    then Ok (fst spf * frame_count - lame_padding_of lame)
                    else Ok (fst spf * frame_count)
                | None => Ok (fst spf * frame_count)
                end = Ok num_samples).
    { unfold num_samples. destruct (_lame xing_header); [|reflexivity].
      now destruct (_ <? _). }
    rewrite E. cbn [rbind fst snd].
    unfold bitrate_of. rewrite Hx, Hsize, Z.sub_diag. cbn [truthy].
    destruct (xing_bitrate_mode xing_header); [|contradiction| |];
      (destruct (truediv (inject_Z (0 * 8 * sample_rate frame0))
                   (inject_Z num_samples)) as [bitrate|e] eqn:Ebitrate;
       [|unfold truediv in Ebitrate;
         destruct (Qeq_bool (inject_Z num_samples) 0);
         [injection Ebitrate as <-; reflexivity|discriminate Ebitrate]];
       cbn [rbind]; rewrite truediv_zero; [reflexivity|];
       unfold truediv in Ebitrate;
       destruct (Qeq_bool (inject_Z num_samples) 0); [discriminate Ebitrate|];
       injection Ebitrate as <-; unfold Qdiv; apply Qmult_0_l).
  - intros Hx Hv Hsize.
    unfold samples_and_mode. rewrite Hx, Hv, Hsize.
    rewrite truediv_zero; [reflexivity|reflexivity].
Qed.

Lemma X14_witness :
  fst (stream_info_of std_tables
         [sample_frame None (Some (mkXing None (Some 0) None [] None))]
         silence)
  = Raise ZeroDivisionError
  /\ fst (stream_info_of std_tables
            [sample_frame (Some (mkVBRI 1 0 75 0 0 0 1 2 1 [])) None] silence)
     = Raise ZeroDivisionError.
Proof.
  split.
  - apply (proj1 (X14_zero_division std_tables
                    (sample_frame None
                       (Some (mkXing None (Some 0) None [] None)))
                    [] silence (1152, 1) eq_refl)
             (mkXing None (Some 0) None [] None)); reflexivity.
  - apply (proj1 (proj2 (X14_zero_division std_tables
                    (sample_frame (Some (mkVBRI 1 0 75 0 0 0 1 2 1 [])) None)
                    [] silence (1152, 1) eq_refl))
             (mkVBRI 1 0 75 0 0 0 1 2 1 [])); reflexivity.
Defined.

(** ** The container *)

(** A round of the scan that returns leaves the source as it is and does
    not move back. *)
Lemma scan_round_state (T : Tables)
    (cached_frames : option (list MPEGFrameHeader)) (s s' : reader)
    (out : round) :
  tables_ok T -> 0 <= pos s ->
  scan_round T cached_frames s = (Ok out, s') ->
  raw s' = raw s /\ pos s <= pos s'.
Proof.
  intros HT Hpos H. unfold scan_round in H. inv_step H.
  destruct (_ <? buffer_size); [inv_step H; split; [reflexivity|lia]|].
  cbv zeta in H.
  destruct (Z.eqb_spec (find_byte (take_bytes buffer_size (remaining s)) 255)
              (-1)) as [|Hfound].
  - inv_step H. unfold seek_cur in Hrun.
    rewrite seek_to_nonneg in Hrun by (unfold buffer_size; lia).
    injection Hrun as _ <-. inv_step H.
    cbn. unfold buffer_size. split; [reflexivity|lia].
  - inv_step H. rename a into frames.
    apply decode_run_progress in Hrun as (Hraw & Hle & _);
      [|assumption..|].
    + destruct (accepted frames); inv_step H; now split.
    + unfold find_byte in *.
      destruct (find_byte_from_range 255
                  (take_bytes buffer_size (remaining s)) 0); lia.
Qed.

Lemma scan_loop_state (T : Tables) (fuel : nat) :
  tables_ok T ->
  forall (cached_frames : option (list MPEGFrameHeader)) (s s' : reader)
         (out : list MPEGFrameHeader * option (list MPEGFrameHeader)),
    0 <= pos s ->
    scan_loop T fuel cached_frames s = Some (Ok out, s') ->
    raw s' = raw s /\ pos s <= pos s'.
Proof.
  intros HT. induction fuel as [|fuel IH]; intros c s s' out Hpos H;
    [discriminate|].
  cbn [scan_loop] in H.
  destruct (scan_round T c s) as [[[|run|c1]|e] s1] eqn:E;
    [| | |discriminate H];
    apply scan_round_state in E as [Hraw Hle]; try assumption.
  - injection H as _ <-. now split.
  - injection H as _ <-. now split.
  - apply IH in H as [Hraw' Hle']; [|lia]. split; [congruence|lia].
Qed.

(** What a computed stream information says about the file. *)
Lemma MP3StreamInfo_load_Ok (T : Tables) (fuel : nat) (s s' : reader)
    (info : MP3StreamInfo) :
  tables_ok T -> 0 <= pos s ->
  MP3StreamInfo_load T fuel s = Some (Ok info, s') ->
  raw s' = raw s
  /\ pos s' = Z.of_nat (List.length (raw s))
  /\ pos s <= si_start info
  /\ si_start info + si_size info
     = Z.of_nat (List.length (raw s)) - end_tag_offset_of (end_window (raw s)).
Proof.
  intros HT Hpos H. unfold MP3StreamInfo_load in H.
  destruct (find_mp3_frames T fuel s) as [[[frames|e] s1]|] eqn:Efind;
    [|discriminate H..].
  injection H as H.
  assert (Hscan : raw s1 = raw s
                  /\ exists frame0 rest,
                       frames = frame0 :: rest /\ pos s <= _start frame0).
  { unfold find_mp3_frames in Efind.
    destruct (scan_loop T fuel None s) as [[[[run c]|e] s2]|] eqn:E;
      [|discriminate Efind..].
    injection Efind as Hchoose <-.
    pose proof (scan_loop_state T fuel HT _ _ _ _ Hpos E) as [Hraw _].
    split; [assumption|].
    apply (scan_loop_runs T (raw s) (pos s)) in E
      as [Hrun Hc]; [|assumption|reflexivity|assumption|lia|exact I].
    assert (Hout : run_at T (raw s) (pos s) frames /\ frames <> []).
    { unfold choose_frames in Hchoose. destruct run as [|frame0 rest].
      - destruct c as [[|f cached]|]; [discriminate Hchoose|
                                       |discriminate Hchoose].
        injection Hchoose as <-. split; [exact (proj2 Hc)|discriminate].
      - injection Hchoose as <-.
        destruct Hrun as [|Hrun]; [discriminate|]. now split. }
    destruct Hout as [[_ (start & Hstart & Hrun')] Hne].
    destruct frames as [|frame0 rest]; [contradiction|].
    exists frame0, rest. split; [reflexivity|].
    destruct Hrun' as (_ & E0 & _). lia. }
  destruct Hscan as (Hraw1 & frame0 & rest & -> & Hstart).
  pose proof (read_end_buffer_state s1) as [Hraw2 Hpos2].
  apply stream_info_of_Ok in H as H'.
  destruct H' as (f0 & r0 & spf & end_pos & end_buffer & s2 & n & E0 & _
                  & Hends & Hs & He & Hsz & _).
  injection E0 as <- <-.
  pose proof (read_end_buffer_eq s1) as Hbuffer.
  rewrite Hends in Hbuffer, Hraw2, Hpos2. cbn [fst snd] in *.
  injection Hbuffer as -> ->.
  unfold stream_info_of in H. inv_step H. inv_step H.
  apply bind_Ok_inv in H as ([end_pos' end_buffer'] & s3 & Hends' & H).
  rewrite Hends in Hends'. injection Hends' as <- <- <-.
  inv_step H. destruct a1 as [num_samples mode].
  inv_step H. inv_step H. inv_step H.
  rewrite <- Hraw1. split; [assumption|]. split; [assumption|].
  split; [rewrite Hs; exact Hstart|]. rewrite Hsz, He. lia.
Qed.

Section ContainerLoad.

Variable V : Type.
Variable value_append : V -> item V -> result V.
Variable frame_trace : string -> Z -> Z -> bytes -> result (list (frame_obj V)).
Variable T : Tables.
Variable ID3v1 : Type.
Variable ID3v1_load : bytes -> result ID3v1.

Lemma stays_ID3v2_load (lo : Z) :
  stays_above lo (ID3v2_load V value_append frame_trace).
Proof. unfold ID3v2_load. repeat stays_step; auto with stays. Qed.

Lemma ID3v2_load_no_magic (s : reader) :
  take_bytes 3 (remaining s) <> bytes_of_string "ID3" ->
  ID3v2_load V value_append frame_trace s = (Raise InvalidHeader, s).
Proof.
  intros Hmagic. unfold ID3v2_load, bind, peek.
  destruct (bytes_eqb (take_bytes 3 (remaining s)) (bytes_of_string "ID3"))
    eqn:E; [now apply bytes_eqb_eq in E|reflexivity].
Qed.

Lemma find_id3v1_state (info : MP3StreamInfo) (s s' : reader)
    (r : result (option ID3v1)) :
  find_id3v1 ID3v1 ID3v1_load info s = (r, s') -> raw s' = raw s.
Proof.
  unfold find_id3v1, bind, seek_set, seek_to, read_all, lift, ret.
  destruct (_ <? 0); [now intros [= <- <-]|].
  cbn [read]. cbv zeta.
  destruct (negb (find _ (bytes_of_string "TAG") =? -1));
    [destruct (ID3v1_load _)|]; now intros [= <- <-].
Qed.

(** X15: a file whose ID3v2 header names a major version other than 2, 3
    and 4 cannot be loaded: [ValueError] is raised before the audio is
    looked at.  When a file loads, its size is the length of the stream,
    which is left unchanged.  If it holds an ID3v2 tag, the tag was parsed
    at the reader's position, the stream information was computed from
    where the tag parser stopped, and the audio starts at or after that
    point; the ID3v1 decoder is not consulted.  Otherwise the tag parser
    raised [InvalidHeader] or [InvalidFrame] and the stream information
    was computed from offset 0 of the file. *)
Theorem X15_tag_before_audio (fuel : nat) (s : reader) :
  (forall major revision flags_ s0 s1 s2 s3 more,
     remaining s = header_bytes major revision flags_ s0 s1 s2 s3 ++ more ->
     major <> 2 -> major <> 3 -> major <> 4 ->
     MP3_load V value_append frame_trace T ID3v1 ID3v1_load fuel s
     = Some (Raise ValueError, snd (read 10 s)))
  /\ (forall (mp3 : MP3File V ID3v1) (s' : reader),
        tables_ok T -> 0 <= pos s ->
        MP3_load V value_append frame_trace T ID3v1 ID3v1_load fuel s
        = Some (Ok mp3, s') ->
        filesize V ID3v1 mp3 = Z.of_nat (List.length (raw s))
        /\ raw s' = raw s
        /\ match _id3 V ID3v1 mp3 with
           | Some (Id3v2 _ _ id3) =>
               exists s1,
                 ID3v2_load V value_append frame_trace s = (Ok id3, s1)
                 /\ MP3StreamInfo_load T fuel s1
                    = Some (Ok (streaminfo V ID3v1 mp3), s')
                 /\ pos s <= pos s1 <= si_start (streaminfo V ID3v1 mp3)
           | _ =>
               (exists s1,
                  ID3v2_load V value_append frame_trace s
                  = (Raise InvalidHeader, s1)
                  \/ ID3v2_load V value_append frame_trace s
                     = (Raise InvalidFrame, s1))
               /\ exists s2,
                    MP3StreamInfo_load T fuel (mkReader (raw s) 0)
                    = Some (Ok (streaminfo V ID3v1 mp3), s2)
           end).
Proof.
  split.
  - intros major revision flags_ s0 s1 s2 s3 more Hrem H2 H3 H4.
    assert (E : ID3v2_load V value_append frame_trace s
                = (Raise ValueError, snd (read 10 s))).
    { unfold ID3v2_load. unfold bind at 1. unfold peek. rewrite Hrem.
      change (take_bytes 3 (header_bytes _ _ _ _ _ _ _ ++ more))
        with (bytes_of_string "ID3").
      rewrite bytes_eqb_refl. cbn [negb]. rewrite bind_read, Hrem.
      change (take_bytes 10 (header_bytes major revision flags_ s0 s1 s2 s3
                             ++ more))
        with (header_bytes major revision flags_ s0 s1 s2 s3).
      rewrite ID3v2Header_load_bytes. unfold ID3Version_of.
      destruct (Z.eqb_spec major 2); [contradiction|].
      destruct (Z.eqb_spec major 3); [contradiction|].
      destruct (Z.eqb_spec major 4); [contradiction|reflexivity]. }
    unfold MP3_load, try_id3v2. now rewrite E.
  - intros mp3 s' HT Hpos H. unfold MP3_load, try_id3v2 in H.
    destruct (ID3v2_load V value_append frame_trace s) as [[id3|e] s1] eqn:E.
    + pose proof (stays_ID3v2_load (pos s) s _ _ E ltac:(lia)) as [Hraw Hle].
      destruct (MP3StreamInfo_load T fuel s1) as [[[info|e] s2]|] eqn:Einfo;
        [|discriminate H..].
      injection H as <- <-. cbn [filesize _id3 streaminfo].
      apply MP3StreamInfo_load_Ok in Einfo as Hinfo; [|assumption|lia].
      destruct Hinfo as (Hraw2 & _ & Hstart & _).
      split; [reflexivity|]. split; [congruence|].
      exists s1. split; [reflexivity|]. split; [assumption|lia].
    + assert (Hcaught : (e = InvalidHeader \/ e = InvalidFrame)
                        /\ exists s0,
                             seek_set 0 s1 = (Ok tt, s0)
                             /\ match MP3StreamInfo_load T fuel s0 with
                                | Some (Ok info, s2) =>
                                    match find_id3v1 ID3v1 ID3v1_load info s2
                                    with
                                    | (Ok id3v1, s3) =>
                                        Some (Ok (mkMP3 V ID3v1
                                                    (Z.of_nat
                                                       (List.length (raw s)))
                                                    (option_map
                                                       (Id3v1 V ID3v1) id3v1)
                                                    info), s3)
                                    | (Raise e, s3) => Some (Raise e, s3)
                                    end
                                | Some (Raise e, s2) => Some (Raise e, s2)
                                | None => None
                                end = Some (Ok mp3, s')).
      { destruct e; try discriminate H;
          (split; [tauto|]); exists (mkReader (raw s1) 0);
          (split; [reflexivity|exact H]). }
      destruct Hcaught as (He & s0 & Hseek & H').
      injection Hseek as <-.
      pose proof (stays_ID3v2_load (pos s) s _ _ E ltac:(lia)) as [Hraw _].
      rewrite Hraw in H'.
      destruct (MP3StreamInfo_load T fuel (mkReader (raw s) 0))
        as [[[info|e'] s2]|] eqn:Einfo; [|discriminate H'..].
      apply MP3StreamInfo_load_Ok in Einfo as Hinfo; [|assumption|cbn; lia].
      destruct Hinfo as (Hraw2 & _).
      destruct (find_id3v1 ID3v1 ID3v1_load info s2) as [[id3v1|e'] s3]
        eqn:Ev1; [|discriminate H'].
      apply find_id3v1_state in Ev1.
      injection H' as <- <-. cbn [filesize _id3 streaminfo].
      split; [reflexivity|]. split; [cbn in Hraw2; congruence|].
      destruct id3v1;
        (split; [exists s1; destruct He as [-> | ->]; [now left|now right]
                |now exists s2]).
Qed.

Lemma find_startswith (l sub : bytes) :
  startswith l sub = true -> find l sub = 0.
Proof.
  unfold find. intros H. destruct l; cbn [find_from]; now rewrite H.
Qed.

(** The search for an ID3v1 tag, by the bytes after the audio region. *)
Lemma find_id3v1_eq (info : MP3StreamInfo) (s : reader) :
  0 <= si_start info + si_size info ->
  let audio_end := si_start info + si_size info in
  let end_buffer := skipn (Z.to_nat audio_end) (raw s) in
  let apev2_index := find end_buffer (bytes_of_string "APETAGEX") in
  let end_buffer :=
    if negb (apev2_index =? -1)
    then skipn (Z.to_nat (apev2_index + 8)) end_buffer
    else end_buffer in
  let id3v1_index := find end_buffer (bytes_of_string "TAG") in
  find_id3v1 ID3v1 ID3v1_load info s
  = (if negb (id3v1_index =? -1) then
       id3v1 <- lift (ID3v1_load
                        (firstn 128
                           (skipn (Z.to_nat id3v1_index) end_buffer))) ;;
       ret (Some id3v1)
     else ret None)
      (snd (read_all (mkReader (raw s) audio_end))).
Proof.
  intros Hend. cbv zeta. unfold find_id3v1. unfold bind at 1.
  unfold seek_set. rewrite seek_to_nonneg by assumption. reflexivity.
Qed.

(** X16: when the file does not begin with [ID3] and its stream
    information is computed, the search for an ID3v1 tag reads the bytes
    after the audio region, which are the last bytes of the file, as many
    as the end-tag offset.  When that offset is 0 the file is loaded with
    no tag at all; when those bytes start with [TAG] and hold no
    [APETAGEX], the ID3v1 decoder is given their first 128 bytes, its
    tag becomes the tag of the file and its exception the outcome of the
    load. *)
Theorem X16_id3v1_fallback (fuel : nat) (s s2 : reader)
    (info : MP3StreamInfo) :
  tables_ok T ->
  take_bytes 3 (remaining s) <> bytes_of_string "ID3" ->
  MP3StreamInfo_load T fuel (mkReader (raw s) 0) = Some (Ok info, s2) ->
  let size := Z.of_nat (List.length (raw s)) in
  let offset := end_tag_offset_of (end_window (raw s)) in
  let tail := skipn (Z.to_nat (size - offset)) (raw s) in
  Z.of_nat (List.length tail) = offset
  /\ si_start info + si_size info = size - offset
  /\ (offset = 0 ->
      exists s3,
        MP3_load V value_append frame_trace T ID3v1 ID3v1_load fuel s
        = Some (Ok (mkMP3 V ID3v1 size None info), s3))
  /\ (find tail APETAGEX = -1 -> startswith tail TAG = true ->
      exists s3,
        MP3_load V value_append frame_trace T ID3v1 ID3v1_load fuel s
        = Some (match ID3v1_load (firstn 128 tail) with
                | Ok id3 =>
                    Ok (mkMP3 V ID3v1 size (Some (Id3v1 V ID3v1 id3)) info)
                | Raise e => Raise e
                end, s3)).
Proof.
  intros HT Hmagic Hinfo size offset tail.
  apply MP3StreamInfo_load_Ok in Hinfo as Hfacts; [|assumption|cbn; lia].
  cbn [raw pos] in Hfacts. destruct Hfacts as (Hraw & _ & _ & Hend).
  fold size offset in Hend.
  pose proof (end_tag_offset_range (end_window (raw s))) as Hoffset.
  rewrite end_window_length in Hoffset. fold size offset in Hoffset.
  assert (Hload : MP3_load V value_append frame_trace T ID3v1 ID3v1_load fuel s
                  = match find_id3v1 ID3v1 ID3v1_load info s2 with
                    | (Ok id3v1, s3) =>
                        Some (Ok (mkMP3 V ID3v1 size
                                    (option_map (Id3v1 V ID3v1) id3v1) info),
                              s3)
                    | (Raise e, s3) => Some (Raise e, s3)
                    end).
  { unfold MP3_load, try_id3v2.
    rewrite ID3v2_load_no_magic by assumption.
    unfold bind at 1. unfold seek_set. rewrite seek_to_nonneg by lia.
    unfold ret. now rewrite Hinfo. }
  rewrite Hload, find_id3v1_eq by lia. cbv zeta.
  rewrite Hraw, Hend. fold tail.
  split; [unfold tail; rewrite length_skipn; lia|]. split; [reflexivity|].
  split.
  - intros Hzero.
    assert (Htail : tail = [])
      by (unfold tail; apply skipn_all2; lia).
    rewrite Htail. cbn. eauto.
  - intros Hape Htag. unfold APETAGEX in Hape. unfold TAG in Htag.
    rewrite Hape. change (-1 =? -1) with true. cbn [negb].
    rewrite (find_startswith _ _ Htag).
    change (0 =? -1) with false. cbn [negb Z.to_nat skipn].
    unfold bind, lift, ret.
    destruct (ID3v1_load (firstn 128 tail)); eauto.
Qed.

End ContainerLoad.

Lemma X15_witness :
  MP3_load unit (no_append unit) (no_frames unit) std_tables bytes raw_id3v1
    0 (after_tag 5)
  = Some (Raise ValueError, snd (read 10 (after_tag 5)))
  /\ match MP3_load unit (no_append unit) (no_frames unit) std_tables bytes
             raw_id3v1 200 (after_tag 3) with
     | Some (Ok mp3, _) =>
         filesize unit bytes mp3 = Z.of_nat (List.length (raw (after_tag 3)))
     | _ => False
     end.
Proof.
  split.
  - apply (proj1 (X15_tag_before_audio unit (no_append unit) (no_frames unit)
                    std_tables bytes raw_id3v1 0 (after_tag 5))
             5 0 0 0 0 0 0 (raw four_frames)); [reflexivity|lia..].
  - destruct (MP3_load unit (no_append unit) (no_frames unit) std_tables bytes
                raw_id3v1 200 (after_tag 3)) as [[[mp3|e] s']|] eqn:E.
    + exact (proj1 (proj2 (X15_tag_before_audio unit (no_append unit)
                             (no_frames unit) std_tables bytes raw_id3v1 200
                             (after_tag 3))
                      mp3 s' std_tables_ok ltac:(cbn; lia) E)).
    + vm_compute in E. discriminate E.
    + vm_compute in E. discriminate E.
Defined.

Example after_tag_loaded :
  exists mp3 id3 s',
    MP3_load unit (no_append unit) (no_frames unit) std_tables bytes raw_id3v1
      200 (after_tag 3) = Some (Ok mp3, s')
    /\ _id3 unit bytes mp3 = Some (Id3v2 unit bytes id3)
    /\ si_start (streaminfo unit bytes mp3) = 10
    /\ filesize unit bytes mp3 = 146.
Proof.
  eexists. eexists. eexists. split; [vm_compute; reflexivity|]. now cbn.
Qed.

Lemma X16_witness :
  match MP3StreamInfo_load std_tables 200 (mkReader (raw tagged_stream) 0) with
  | Some (Ok info, _) =>
      exists s3,
        MP3_load unit (no_append unit) (no_frames unit) std_tables bytes
          raw_id3v1 200 tagged_stream
        = Some (Ok (mkMP3 unit bytes 264
                      (Some (Id3v1 unit bytes (TAG ++ plain_filler))) info),
                s3)
  | _ => False
  end.
Proof.
  destruct (MP3StreamInfo_load std_tables 200 (mkReader (raw tagged_stream) 0))
    as [[[info|e] s2]|] eqn:E.
  - assert (Hmagic : take_bytes 3 (remaining tagged_stream)
                     <> bytes_of_string "ID3") by discriminate.
    destruct (X16_id3v1_fallback unit (no_append unit) (no_frames unit)
                std_tables bytes raw_id3v1 200 tagged_stream s2 info
                std_tables_ok Hmagic E) as (_ & _ & _ & Htag).
    exact (Htag ltac:(vm_compute; reflexivity) ltac:(vm_compute; reflexivity)).
  - vm_compute in E. discriminate E.
  - vm_compute in E. discriminate E.
Defined.

(** ** The shape of the run that the scan returns *)

Lemma scan_round_exhausted (T : Tables)
    (cached_frames : option (list MPEGFrameHeader)) (s s' : reader) :
  scan_round T cached_frames s = (Ok Exhausted, s') ->
  s' = s /\ Z.of_nat (List.length (remaining s)) < buffer_size.
Proof.
  unfold scan_round. intros H. inv_step H.
  destruct (Z.ltb_spec
              (Z.of_nat (List.length (take_bytes buffer_size (remaining s))))
              buffer_size) as [Hlen|Hlen].
  - injection H as <-. split; [reflexivity|].
    unfold take_bytes, buffer_size in *. cbn [Z.ltb Z.compare] in Hlen.
    rewrite length_firstn in Hlen. lia.
  - cbv zeta in H. destruct (_ =? -1).
    + inv_step H. discriminate H.
    + inv_step H. destruct (accepted a); discriminate H.
Qed.

Lemma cache_unaccepted (cached_frames : option (list MPEGFrameHeader))
    (frames : list MPEGFrameHeader) :
  unaccepted cached_frames -> accepted frames = false ->
  unaccepted (cache cached_frames frames).
Proof.
  intros Hc Hframes. unfold cache. destruct cached_frames; [assumption|].
  destruct (Z.leb_spec 2 (Z.of_nat (List.length frames))); [|exact I].
  split; [assumption|lia].
Qed.

Lemma scan_loop_shape (T : Tables) (fuel : nat) :
  forall (cached_frames cached_frames' : option (list MPEGFrameHeader))
         (frames : list MPEGFrameHeader) (s s' : reader),
    unaccepted cached_frames ->
    scan_loop T fuel cached_frames s = Some (Ok (frames, cached_frames'), s') ->
    unaccepted cached_frames'
    /\ ((frames = [] /\ Z.of_nat (List.length (remaining s')) < buffer_size)
        \/ accepted frames = true).
Proof.
  induction fuel as [|fuel IH]; intros c c' frames s s' Hc H; [discriminate|].
  cbn [scan_loop] in H.
  destruct (scan_round T c s) as [[[|run|c1]|e] s1] eqn:E.
  - injection H as <- <- <-. apply scan_round_exhausted in E as [-> Hlen].
    split; [assumption|now left].
  - injection H as <- <- <-. apply scan_round_inv in E.
    split; [assumption|now right].
  - apply scan_round_inv in E as [_ [->|(run & Hrun & ->)]].
    + now apply IH in H.
    + apply IH in H; [assumption|now apply cache_unaccepted].
  - discriminate H.
Qed.

(** X17: the list that [find_mp3_frames] returns has exactly one frame
    when its first frame carries a Xing header; otherwise it has two,
    three or four frames, and fewer than four only when the scan has
    exhausted the stream, fewer than 128 bytes being left at the reader's
    position. *)
Theorem X17_run_shape (T : Tables) (fuel : nat) (s s' : reader)
    (frames : list MPEGFrameHeader) :
  tables_ok T -> 0 <= pos s ->
  find_mp3_frames T fuel s = Some (Ok frames, s') ->
  exists frame0 rest,
    frames = frame0 :: rest
    /\ (truthy (_xing frame0) = true -> rest = [])
    /\ (truthy (_xing frame0) = false ->
        (2 <= List.length frames <= 4)%nat
        /\ ((List.length frames < 4)%nat ->
            Z.of_nat (List.length (remaining s')) < buffer_size)).
Proof.
  intros HT Hpos H. unfold find_mp3_frames in H.
  destruct (scan_loop T fuel None s) as [[[[run c]|e] s1]|] eqn:E;
    [|discriminate H..].
  injection H as H <-.
  pose proof (scan_loop_shape T fuel None _ _ _ _ I E) as [Hc Hshape].
  apply (scan_loop_runs T (raw s) (pos s)) in E
    as [Hrun Hcached]; [|assumption|reflexivity|assumption|lia|exact I].
  assert (Hout : run_at T (raw s) (pos s) frames
                 /\ ((accepted frames = false
                      /\ (2 <= List.length frames)%nat
                      /\ Z.of_nat (List.length (remaining s1)) < buffer_size)
                     \/ accepted frames = true)).
  { unfold choose_frames in H. destruct run as [|frame0 rest].
    - destruct c as [[|f cached]|]; [discriminate H| |discriminate H].
      injection H as <-. split; [exact (proj2 Hcached)|]. left.
      destruct Hshape as [[_ Hlen]|Hacc]; [|discriminate Hacc].
      destruct Hc as [Hacc Htwo]. now repeat split.
    - injection H as <-.
      destruct Hrun as [|Hrun]; [discriminate|]. split; [assumption|].
      right. destruct Hshape as [[Hnil _]|Hacc]; [discriminate|assumption]. }
  destruct Hout as [[Hlen (start & _ & Hdecoded)] Hcase].
  destruct frames as [|frame0 rest];
    [destruct Hcase as [(_ & Htwo & _)|Hacc];
     [cbn in Htwo; lia|discriminate Hacc]|].
  exists frame0, rest. split; [reflexivity|].
  destruct Hdecoded as (_ & _ & _ & Hlast & _).
  split.
  - intros Hx. destruct rest as [|frame1 rest]; [reflexivity|].
    rewrite Hlast in Hx by discriminate. discriminate Hx.
  - intros Hx. unfold accepted in Hcase. rewrite Hx, orb_false_r in Hcase.
    destruct Hcase as [(Hacc & Htwo & Hleft)|Hacc].
    + split; [lia|]. intros _. assumption.
    + apply Z.leb_le in Hacc. split; [lia|]. intros Hlt. lia.
Qed.

Lemma X17_witness :
  match find_mp3_frames std_tables 200 two_frames with
  | Some (Ok frames, s') =>
      (2 <= List.length frames <= 4)%nat
      /\ Z.of_nat (List.length (remaining s')) < buffer_size
  | _ => False
  end.
Proof.
  destruct (find_mp3_frames std_tables 200 two_frames)
    as [[[frames|e] s']|] eqn:E.
  - destruct (X17_run_shape std_tables 200 two_frames s' frames
                std_tables_ok ltac:(cbn; lia) E)
      as (frame0 & rest & Hframes & _ & Hshape).
    vm_compute in E. injection E as <- <-.
    injection Hframes as <- <-.
    destruct (Hshape eq_refl) as [Hlen Hleft].
    split; [exact Hlen|]. apply Hleft. cbn. lia.
  - vm_compute in E. discriminate E.
  - vm_compute in E. discriminate E.
Defined.

(** ** The load ends *)




Section ContainerEnds.

Variable V : Type.
Variable value_append : V -> item V -> result V.
Variable frame_trace : string -> Z -> Z -> bytes -> result (list (frame_obj V)).
Variable T : Tables.
Variable ID3v1 : Type.
Variable ID3v1_load : bytes -> result ID3v1.



End ContainerEnds.


Example silence_not_loaded :
  exists s',
    MP3_load unit (no_append unit) (no_frames unit) std_tables bytes raw_id3v1
      201 silence = Some (Raise InvalidFormat, s').
Proof. eexists. vm_compute. reflexivity. Qed.

(** ** The keys of the tag mapping *)

Section FrameKeys.

Variable V : Type.
Variable value_append : V -> item V -> result V.

Lemma append_to_set (frames frames' : dict (tagval V)) (key : string)
    (x : item V) :
  append_to V value_append frames key x = Ok frames' ->
  exists v, frames' = dict_set frames key v.
Proof.
  unfold append_to. destruct (dict_get frames key) as [[v|l]|].
  - destruct (value_append v x); [|discriminate]. intros [= <-]. eauto.
  - intros [= <-]. eauto.
  - intros [= <-]. eauto.
Qed.

(** A frame writes its key and no other. *)
Lemma fold_frame_set (frames frames' : dict (tagval V)) (frame : frame_obj V) :
  fold_frame V value_append frames frame = Ok frames' ->
  match frame_key frame with
  | None => frames' = frames
  | Some key =>
      exists v,
        frames' = dict_set frames key v
        /\ forall value, assigned_value frame = Some value ->
                         v = Assigned V value
  end.
Proof.
  destruct frame; cbn [fold_frame frame_key assigned_value]; intros H;
    try (apply append_to_set in H as [v ->]; exists v;
         split; [reflexivity|discriminate]).
  - now injection H as <-.
  - injection H as <-. eexists. split; [reflexivity|]. now intros ? [= <-].
  - injection H as <-. eexists. split; [reflexivity|]. now intros ? [= <-].
Qed.

Lemma fold_frames_keys (trace : list (frame_obj V)) :
  forall (frames0 frames : dict (tagval V)) (key : string),
    fold_frames V value_append trace frames0 = Ok frames ->
    (dict_get frames key <> None
     <-> dict_get frames0 key <> None
         \/ exists frame, In frame trace /\ frame_key frame = Some key).
Proof.
  induction trace as [|frame trace IH]; intros frames0 frames key H;
    cbn [fold_frames] in H.
  - injection H as <-. split; [now left|]. now intros [|(f & [] & _)].
  - destruct (fold_frame V value_append frames0 frame) as [frames1|e] eqn:E;
      [|discriminate H].
    cbn [rbind] in H. rewrite (IH _ _ key H).
    apply fold_frame_set in E.
    destruct (frame_key frame) as [k|] eqn:Ek.
    + destruct E as (v & -> & _).
      destruct (String.eqb_spec key k) as [->|Hne].
      * rewrite dict_get_set_same. split; intros _.
        -- right. exists frame. split; [now left|assumption].
        -- left. discriminate.
      * rewrite dict_get_set_other by assumption. split.
        -- intros [H0|(f & Hf & Hk)]; [now left|].
           right. exists f. split; [now right|assumption].
        -- intros [H0|(f & [<-|Hf] & Hk)]; [now left|congruence|].
           right. now exists f.
    + subst frames1. split.
      * intros [H0|(f & Hf & Hk)]; [now left|].
        right. exists f. split; [now right|assumption].
      * intros [H0|(f & [<-|Hf] & Hk)]; [now left|congruence|].
        right. now exists f.
Qed.

Lemma fold_frames_untouched (trace : list (frame_obj V)) :
  forall (frames0 frames : dict (tagval V)) (key : string),
    fold_frames V value_append trace frames0 = Ok frames ->
    (forall frame, In frame trace -> frame_key frame <> Some key) ->
    dict_get frames key = dict_get frames0 key.
Proof.
  induction trace as [|frame trace IH]; intros frames0 frames key H Hkeys;
    cbn [fold_frames] in H.
  - now injection H as <-.
  - destruct (fold_frame V value_append frames0 frame) as [frames1|e] eqn:E;
      [|discriminate H].
    cbn [rbind] in H. rewrite (IH _ _ key H) by (intros f Hf; apply Hkeys; now right).
    apply fold_frame_set in E.
    pose proof (Hkeys frame (or_introl eq_refl)) as Hk.
    destruct (frame_key frame) as [k|]; [|now subst].
    destruct E as (v & -> & _). apply dict_get_set_other. congruence.
Qed.

(** X19: the mapping that the aggregator builds from a stream of frames
    has an entry under a key exactly when a frame of the stream writes
    that key; and the value of a text, numeric text, timestamp or genre
    frame replaces whatever earlier frames left under its key, so that
    after the last frame that writes the key the entry is the value of
    that frame. *)
Theorem X19_frame_keys (trace : list (frame_obj V))
    (frames : dict (tagval V)) :
  fold_frames V value_append trace [] = Ok frames ->
  (forall key,
     dict_get frames key <> None
     <-> exists frame, In frame trace /\ frame_key frame = Some key)
  /\ (forall before frame after key value,
        trace = before ++ frame :: after ->
        frame_key frame = Some key ->
        assigned_value frame = Some value ->
        (forall later, In later after -> frame_key later <> Some key) ->
        dict_get frames key = Some (Assigned V value)).
Proof.
  intros H. split.
  - intros key. rewrite (fold_frames_keys trace [] frames key H).
    cbn [dict_get]. split; [intros [[]|]; [reflexivity|assumption]|now right].
  - intros before frame after key value -> Hkey Hvalue Hlater.
    rewrite fold_frames_app in H.
    destruct (fold_frames V value_append before []) as [frames1|e];
      [|discriminate H].
    cbn [rbind fold_frames] in H.
    destruct (fold_frame V value_append frames1 frame) as [frames2|e] eqn:E;
      [|discriminate H].
    cbn [rbind] in H.
    rewrite (fold_frames_untouched after frames2 frames key H Hlater).
    apply fold_frame_set in E. rewrite Hkey in E.
    destruct E as (v & -> & Hv). rewrite (Hv value Hvalue).
    apply dict_get_set_same.
Qed.

End FrameKeys.

Lemma X19_witness :
  match fold_frames string (no_append string)
          [OtherFrame string "TIT2" "first"; TextLike string "TIT2" "second";
           OtherFrame string "APIC" "front"]%string [] with
  | Ok frames =>
      dict_get frames "TIT2"%string = Some (Assigned string "second"%string)
  | Raise _ => False
  end.
Proof.
  destruct (fold_frames string (no_append string)
              [OtherFrame string "TIT2" "first";
               TextLike string "TIT2" "second";
               OtherFrame string "APIC" "front"]%string [])
    as [frames|e] eqn:E.
  - apply (proj2 (X19_frame_keys string (no_append string) _ frames E)
             [OtherFrame string "TIT2" "first"]%string
             (TextLike string "TIT2" "second")%string
             [OtherFrame string "APIC" "front"]%string
             "TIT2"%string "second"%string); try reflexivity.
    intros later [<-|[]]. discriminate.
  - vm_compute in E. discriminate E.
Defined.

(** ** The Xing and VBRI probes of a frame *)

(** A layer-3 frame header ends with the probes for the two headers, run
    on the same source. *)
Lemma MPEGFrameHeader_load_probes (T : Tables) (s s' : reader)
    (frame : MPEGFrameHeader) :
  MPEGFrameHeader_load T s = (Ok frame, s') -> layer frame = 3 ->
  exists s0,
    raw s0 = raw s
    /\ vbr_headers_load T (pos s) (_size frame) (version frame)
         (channel_mode frame) s0
       = (Ok (_vbri frame, _xing frame), s').
Proof.
  intros H. unfold MPEGFrameHeader_load in H.
  inv_step H. inv_step H. inv_step H.
  apply bitstruct_unpack_Ok_inv in Hrun as [_ ->].
  cbv [unpack_fields] in H. cbv iota beta in H.
  destruct (negb _); [discriminate H|].
  inv_step H. inv_step H.
  apply bitstruct_unpack_Ok_inv in Hrun as [_ ->].
  cbv [unpack_fields] in H. cbv iota beta in H.
  destruct (_ || _); [discriminate H|].
  do 10 inv_step H.
  match goal with
  | H1 : lookup (MP3SamplesPerFrame _ _ _) = Ok ?p |- _ =>
      destruct p as [samples_per_frame slot_size]
  end.
  do 2 inv_step H.
  match goal with
  | H1 : _ _ = (Ok ?x, _) |- _ =>
      lazymatch type of x with
      | (option VBRIHeader * option XingHeader)%type =>
          rename x into headers, H1 into Hheaders
      end
  end.
  inv_step H.
  cbn [_start _size _xing _vbri layer channel_mode version].
  intros Hlayer. rewrite Hlayer in Hheaders. cbn [Z.eqb Pos.eqb] in Hheaders.
  eexists. split; [|rewrite <- surjective_pairing; exact Hheaders].
  reflexivity.
Qed.

Lemma seek_set_remaining (p : Z) (s : reader) :
  0 <= p ->
  seek_set p s = (Ok tt, mkReader (raw s) p)
  /\ remaining (mkReader (raw s) p) = bytes_from s p.
Proof.
  intros Hp. unfold seek_set. rewrite seek_to_nonneg by assumption.
  split; reflexivity.
Qed.

(** X20: in a layer-3 frame header that decodes, a Xing header is
    attached exactly when the four bytes at the probe offset (36, 21 or 13
    bytes into the frame, by version and channel mode) are [Xing] or
    [Info], and it is what [XingHeader.load] decodes from the at most
    frame-size bytes that start there; a VBRI header is attached exactly
    when the four bytes 36 bytes into the frame are [VBRI], and it is what
    [VBRIHeader.load] decodes there; and without a VBRI header the reader
    is left 36 bytes into the frame. *)
Theorem X20_header_probes (T : Tables) (s s' : reader)
    (frame : MPEGFrameHeader) :
  0 <= pos s ->
  MPEGFrameHeader_load T s = (Ok frame, s') -> layer frame = 3 ->
  let probe :=
    bytes_from s (pos s + xing_header_start (version frame)
                                            (channel_mode frame)) in
  truthy (_xing frame) = is_xing_marker (take_bytes 4 probe)
  /\ (forall xing_header,
        _xing frame = Some xing_header ->
        on_bytes (XingHeader_load T) (take_bytes (_size frame) probe)
        = Ok xing_header)
  /\ truthy (_vbri frame)
     = bytes_eqb (take_bytes 4 (bytes_from s (pos s + 36)))
                 (bytes_of_string "VBRI")
  /\ (forall vbri_header,
        _vbri frame = Some vbri_header ->
        VBRIHeader_load (mkReader (raw s) (pos s + 36))
        = (Ok vbri_header, s'))
  /\ (_vbri frame = None -> s' = mkReader (raw s) (pos s + 36)).
Proof.
  intros Hpos H Hlayer probe.
  apply MPEGFrameHeader_load_probes in H as (s0 & Hraw & H); [|assumption].
  destruct s0 as [raw0 pos0]. cbn [raw] in Hraw. subst raw0.
  unfold vbr_headers_load in H.
  fold (xing_header_start (version frame) (channel_mode frame)) in H.
  assert (Hstart : 0 <= xing_header_start (version frame) (channel_mode frame)).
  { unfold xing_header_start.
    destruct (mpeg_version_eqb _ _), (negb _); lia. }
  inv_step H.
  destruct (seek_set_remaining
              (pos s + xing_header_start (version frame) (channel_mode frame))
              (mkReader (raw s) pos0) ltac:(lia)) as [Hseek Hprobe].
  rewrite Hseek in Hrun. injection Hrun as _ <-.
  cbn [raw] in Hprobe. change (bytes_from _ _) with probe in Hprobe.
  inv_step H. cbn [raw] in H. rewrite Hprobe in H.
  apply bind_Ok_inv in H as (xing & s2 & Hxing & H).
  assert (Hx : truthy xing = is_xing_marker (take_bytes 4 probe)
               /\ (forall xing_header,
                     xing = Some xing_header ->
                     on_bytes (XingHeader_load T)
                       (take_bytes (_size frame) probe) = Ok xing_header)
               /\ raw s2 = raw s).
  { destruct (is_xing_marker (take_bytes 4 probe)).
    - inv_step Hxing. inv_step Hxing. inv_step Hxing.
      cbn [raw] in *. rewrite Hprobe in *. cbn [truthy].
      split; [reflexivity|]. split; [|reflexivity].
      now intros ? [= <-].
    - inv_step Hxing. split; [reflexivity|]. split; [discriminate|reflexivity]. }
  destruct Hx as (Hx1 & Hx2 & Hraw2).
  inv_step H.
  destruct (seek_set_remaining (pos s + 36) s2 ltac:(lia)) as [Hseek2 Hvbri].
  rewrite Hseek2 in Hrun. injection Hrun as _ <-.
  unfold bytes_from in Hvbri. rewrite Hraw2 in Hvbri.
  fold (bytes_from s (pos s + 36)) in Hvbri.
  inv_step H. cbn [raw] in H. try rewrite Hraw2 in H. rewrite Hvbri in H.
  apply bind_Ok_inv in H as (vbri & s4 & Hv & H).
  unfold ret in H. injection H as Ev Ex Es. subst vbri xing s4.
  split; [assumption|]. split; [assumption|].
  try rewrite Hraw2 in Hv.
  destruct (bytes_eqb _ (bytes_of_string "VBRI")).
  - inv_step Hv. inv_step Hv. cbn [truthy].
    split; [reflexivity|]. split; [now intros ? [= <-]|discriminate].
  - inv_step Hv. split; [reflexivity|]. split; [discriminate|reflexivity].
Qed.

Lemma X20_witness :
  match MPEGFrameHeader_load std_tables bare_xing_stream with
  | (Ok frame, s') =>
      truthy (_xing frame) = true /\ truthy (_vbri frame) = false
      /\ s' = mkReader (raw bare_xing_stream) 36
  | _ => False
  end.
Proof.
  destruct (MPEGFrameHeader_load std_tables bare_xing_stream)
    as [[frame|e] s'] eqn:E.
  - pose proof E as E'. vm_compute in E'. injection E' as Hframe _.
    assert (Hlayer : layer frame = 3) by (rewrite <- Hframe; reflexivity).
    destruct (X20_header_probes std_tables bare_xing_stream s' frame
                ltac:(cbn; lia) E Hlayer) as (Hxing & _ & Hvbri & _ & Hend).
    subst frame.
    split; [rewrite Hxing; reflexivity|].
    split; [rewrite Hvbri; reflexivity|exact (Hend eq_refl)].
  - vm_compute in E. discriminate E.
Defined.

(** ** The steps of the scan *)

Lemma bind_peek_eq {B} (n : Z) (k : bytes -> M B) (s : reader) :
  bind (peek n) k s = k (take_bytes n (remaining s)) s.
Proof. reflexivity. Qed.

Lemma remaining_seek (s : reader) (k : Z) :
  0 <= pos s -> 0 <= k ->
  remaining (mkReader (raw s) (pos s + k)) = skipn (Z.to_nat k) (remaining s).
Proof.
  intros Hpos Hk. unfold remaining. cbn [raw pos].
  rewrite skipn_skipn. f_equal. lia.
Qed.

(** X21: a round of the frame scan, by what the next 128 bytes hold.
    With fewer than 128 bytes left the scan is over.  With no byte 0xFF
    among them the reader moves on by 128 bytes.  When the first 0xFF, at
    offset k, does not begin eleven set bits, the reader moves on by
    2k + 1 bytes: k to the candidate and k + 1 more, so that the k bytes
    after the candidate's first byte are not searched; nothing is cached.
    And when the first 0xFF is the last byte of the stream,
    [bitstruct.Error] is raised, outside the [try] of the loop over the
    frames, and ends the scan. *)
Theorem X21_scan_steps (T : Tables)
    (cached_frames : option (list MPEGFrameHeader)) (s : reader) :
  0 <= pos s ->
  let buffer := take_bytes buffer_size (remaining s) in
  (Z.of_nat (List.length buffer) < buffer_size ->
   scan_round T cached_frames s = (Ok Exhausted, s))
  /\ (buffer_size <= Z.of_nat (List.length buffer) ->
      find_byte buffer 255 = -1 ->
      scan_round T cached_frames s
      = (Ok (Again cached_frames), mkReader (raw s) (pos s + buffer_size)))
  /\ (forall k b0 b1 rest,
        buffer_size <= Z.of_nat (List.length buffer) ->
        find_byte buffer 255 = k -> 0 <= k ->
        skipn (Z.to_nat k) (remaining s) = b0 :: b1 :: rest ->
        bits_at (be_uint [b0; b1]) 5 11 <> 2047 ->
        scan_round T cached_frames s
        = (Ok (Again cached_frames), mkReader (raw s) (pos s + (2 * k + 1))))
  /\ (forall k b0 fuel,
        buffer_size <= Z.of_nat (List.length buffer) ->
        find_byte buffer 255 = k -> 0 <= k ->
        skipn (Z.to_nat k) (remaining s) = [b0] ->
        scan_round T cached_frames s
        = (Raise BitstructError, mkReader (raw s) (pos s + k))
        /\ scan_loop T (S fuel) cached_frames s
           = Some (Raise BitstructError, mkReader (raw s) (pos s + k))).
Proof.
  intros Hpos buffer.
  assert (Hstart : forall k,
            buffer_size <= Z.of_nat (List.length buffer) ->
            find_byte buffer 255 = k -> 0 <= k ->
            scan_round T cached_frames s
            = (frames <- decode_run T k ;;
               if accepted frames then ret (Accepted frames)
               else ret (Again (cache cached_frames frames))) s).
  { intros k Hlen Hfind Hk. unfold scan_round. rewrite bind_peek_eq.
    fold buffer.
    destruct (Z.ltb_spec (Z.of_nat (List.length buffer)) buffer_size); [lia|].
    cbv zeta. rewrite Hfind.
    destruct (Z.eqb_spec k (-1)); [lia|reflexivity]. }
  assert (Hdecode : forall k two,
            0 <= k ->
            take_bytes 2 (skipn (Z.to_nat k) (remaining s)) = two ->
            decode_run T k s
            = (fs <- lift (bitstruct_unpack [FU 11] two) ;;
               sync <- lift (index fs 0) ;;
               if sync =? 2047 then load_run T 4 []
               else seek_cur (k + 1) ;;; ret [])
                (mkReader (raw s) (pos s + k))).
  { intros k two Hk Htwo. unfold decode_run. unfold bind at 1.
    unfold seek_cur at 1. rewrite seek_to_nonneg by lia.
    rewrite bind_peek_eq.
    now rewrite remaining_seek, Htwo by assumption. }
  split; [|split; [|split]].
  - intros Hlen. unfold scan_round. rewrite bind_peek_eq. fold buffer.
    destruct (Z.ltb_spec (Z.of_nat (List.length buffer)) buffer_size); [|lia].
    reflexivity.
  - intros Hlen Hfind. unfold scan_round. rewrite bind_peek_eq.
    fold buffer.
    destruct (Z.ltb_spec (Z.of_nat (List.length buffer)) buffer_size); [lia|].
    cbv zeta. rewrite Hfind. cbn [Z.eqb Pos.eqb].
    unfold bind, seek_cur. rewrite seek_to_nonneg by (unfold buffer_size; lia).
    reflexivity.
  - intros k b0 b1 rest Hlen Hfind Hk Hrest Hsync.
    rewrite (Hstart k Hlen Hfind Hk). unfold bind at 1.
    rewrite (Hdecode k [b0; b1] Hk) by (rewrite Hrest; reflexivity).
    change (bitstruct_unpack [FU 11] [b0; b1])
      with (Ok [bits_at (be_uint [b0; b1]) 5 11]).
    rewrite bind_lift_Ok.
    change (index [bits_at (be_uint [b0; b1]) 5 11] 0)
      with (Ok (bits_at (be_uint [b0; b1]) 5 11)).
    rewrite bind_lift_Ok.
    destruct (Z.eqb_spec (bits_at (be_uint [b0; b1]) 5 11) 2047);
      [contradiction|].
    unfold bind, seek_cur. rewrite seek_to_nonneg by (cbn [pos]; lia).
    cbn [pos raw ret accepted cache List.length].
    replace (pos s + k + (k + 1)) with (pos s + (2 * k + 1)) by lia.
    now destruct cached_frames.
  - intros k b0 fuel Hlen Hfind Hk Hrest.
    assert (E : scan_round T cached_frames s
                = (Raise BitstructError, mkReader (raw s) (pos s + k))).
    { rewrite (Hstart k Hlen Hfind Hk). unfold bind at 1.
      rewrite (Hdecode k [b0] Hk) by (rewrite Hrest; reflexivity).
      reflexivity. }
    split; [exact E|]. cbn [scan_loop]. now rewrite E.
Qed.

Lemma X21_witness :
  scan_round std_tables None false_sync
  = (Ok (Again None), mkReader (raw false_sync) (0 + (2 * 10 + 1)))
  /\ scan_loop std_tables 1 None trailing_sync
     = Some (Raise BitstructError, mkReader (raw trailing_sync) (0 + 127)).
Proof.
  split.
  - destruct (X21_scan_steps std_tables None false_sync ltac:(cbn; lia))
      as (_ & _ & Hfalse & _).
    apply (Hfalse 10 255 0 (repeat 0 188%nat));
      [vm_compute; discriminate|reflexivity|lia|reflexivity
      |vm_compute; discriminate].
  - destruct (X21_scan_steps std_tables None trailing_sync ltac:(cbn; lia))
      as (_ & _ & _ & Hlast).
    apply (Hlast 127 255 0%nat);
      [vm_compute; discriminate|reflexivity|lia|reflexivity].
Defined.

Example false_sync_skips_frames :
  exists frames s',
    find_mp3_frames std_tables 400
      (mkReader (repeat 0 10%nat ++ [255; 0] ++ raw four_frames
                 ++ repeat 0 100%nat) 0)
    = Some (Ok frames, s')
    /\ map _start frames = [36; 60; 84].
Proof. eexists. eexists. split; [vm_compute; reflexivity|reflexivity]. Qed.
